(** * Media composition pipeline: script timing, captions, render graph,
      asset provisioning and thumbnail ladder

    A shallow embedding of the TypeScript sources

      - [modules/script/generateScript.ts]   (class [ScriptGenerator])
      - [modules/video/generateVideo.ts]     (class [VideoGenerator])
      - [modules/thumbnail/generateThumbnail.ts] (class [ThumbnailGenerator])
      - [modules/voice/generateVoice.ts]     (class [VoiceGenerator])

    Strings are [string]s whose characters stand for one code unit each
    (the Latin-1 range); numbers that the code only ever uses as
    non-negative integers (word counts, second offsets, indices) are [Z];
    the single division by [2.5] is carried out in [Q].  The integers
    stand for the numbers of the code where those are exact: word counts
    below [2^50], offsets up to [Js.maxSafeInteger]; statements that go
    beyond the counts and offsets of a script say so in a hypothesis.
    Everything the code does through [child_process.exec] and [fs] is
    threaded through an explicit world with an error monad; what the
    external tools and the file system do is left to a [Platform]. *)

From Stdlib Require Import ZArith QArith Qround List Ascii Lia Bool.
From Stdlib Require Import Numbers.DecimalString.
From Stdlib Require Numbers.DecimalZ.
From stdpp Require Import base option list gmap strings.

Local Open Scope Z_scope.

(* ===================================================================== *)
(** ** JavaScript string primitives used by the sources *)
(* ===================================================================== *)

Module Js.

(** The double quote and the line feed, which a literal cannot spell. *)
Definition dq : string := String "034"%char EmptyString.
Definition nl : string := String "010"%char EmptyString.
Definition space : ascii := " "%char.

(** [s.length] *)
Definition len (s : string) : Z := Z.of_nat (String.length s).

(** [s.split(sep)] for a one-character separator: every occurrence of
    the separator ends a piece, empty pieces are kept, and the result
    always has at least one piece. *)
Fixpoint split (sep : ascii) (s : string) : list string :=
  match s with
  | EmptyString => [EmptyString]
  | String c rest =>
      if Ascii.eqb c sep then EmptyString :: split sep rest
      else match split sep rest with
           | [] => [String c EmptyString]
           | w :: ws => String c w :: ws
           end
  end.

(** [s.substring(0, n)] *)
Definition substring0 (n : nat) (s : string) : string :=
  String.substring 0 n s.

(** [String.prototype.toLowerCase] on Latin-1 code units: A-Z and the
    accented capitals 0xC0-0xDE (except the multiplication sign 0xD7)
    move up by 32. *)
Definition lowerChar (c : ascii) : ascii :=
  let n := N_of_ascii c in
  if ((65 <=? n) && (n <=? 90))%N
     || ((192 <=? n) && (n <=? 222) && negb (n =? 215))%N
  then ascii_of_N (n + 32) else c.

Fixpoint toLowerCase (s : string) : string :=
  match s with
  | EmptyString => EmptyString
  | String c rest => String (lowerChar c) (toLowerCase rest)
  end.

(** The character classes [\w] and [\s] of a regular expression without
    the unicode flag, on Latin-1 code units. *)
Definition isWordChar (c : ascii) : bool :=
  let n := N_of_ascii c in
  (((48 <=? n) && (n <=? 57)) || ((65 <=? n) && (n <=? 90))
   || ((97 <=? n) && (n <=? 122)) || (n =? 95))%N.

Definition isSpaceChar (c : ascii) : bool :=
  let n := N_of_ascii c in
  (((9 <=? n) && (n <=? 13)) || (n =? 32) || (n =? 160))%N.

(** [s.replace(/[^\w\s]/g, '')] *)
Fixpoint stripNonWordSpace (s : string) : string :=
  match s with
  | EmptyString => EmptyString
  | String c rest =>
      if isWordChar c || isSpaceChar c
      then String c (stripNonWordSpace rest)
      else stripNonWordSpace rest
  end.

(** [s.replace(/'/g, r)] *)
Fixpoint replaceQuote (r : string) (s : string) : string :=
  match s with
  | EmptyString => EmptyString
  | String c rest =>
      if Ascii.eqb c "'"%char then r +:+ replaceQuote r rest
      else String c (replaceQuote r rest)
  end.

(** [n.toString()] for an integer-valued number. *)
Definition toString (n : Z) : string :=
  NilEmpty.string_of_int (Z.to_int n).

Fixpoint repeatChar (c : ascii) (k : nat) : string :=
  match k with
  | O => EmptyString
  | S k' => String c (repeatChar c k')
  end.

(** [s.padStart(target, c)] for a one-character filler. *)
Definition padStart (target : nat) (c : ascii) (s : string) : string :=
  repeatChar c (target - String.length s) +:+ s.

(** [Math.ceil(a / b)] over exact rationals.  For an integer [a] below
    2^50 the double [a / 2.5] lies strictly between the same two integers
    as the exact quotient, or is that integer, so the ceiling is the
    same. *)
Definition ceilDiv (a : Z) (b : Q) : Z := Qceiling (inject_Z a / b).

(** [Math.floor(Math.random() * n)]: some index below [n], fixed by the
    draw [d] that the environment supplies. *)
Definition randomIndex (d n : nat) : nat := (d mod n)%nat.

(** The property names that every object literal inherits from
    [Object.prototype].  Indexing an object literal with one of them
    gives the inherited function or object, with any other string that
    is not a key of the literal it gives [undefined]. *)
Definition inheritedKeys : list string :=
  [ "constructor"; "__proto__"; "hasOwnProperty"; "isPrototypeOf";
    "propertyIsEnumerable"; "toLocaleString"; "toString"; "valueOf";
    "__defineGetter__"; "__defineSetter__"; "__lookupGetter__";
    "__lookupSetter__" ].

(** The integers that a number holds exactly lie below [2^53]. *)
Definition maxSafeInteger : Z := 2 ^ 53 - 1.

(** [xs.entries()] *)
Definition entries {A} (xs : list A) : list (nat * A) :=
  combine (seq 0 (List.length xs)) xs.

(** Concatenation of a list of strings. *)
Definition concat (xs : list string) : string :=
  fold_right String.append EmptyString xs.

End Js.

(* ===================================================================== *)
(** ** [ScriptGenerator]: narration segments and their schedule *)
(* ===================================================================== *)

Module Script.
Import Js.

Inductive SegmentType := hook | context | explanation | summary | cta.

Definition typeName (t : SegmentType) : string :=
  match t with
  | hook => "hook" | context => "context" | explanation => "explanation"
  | summary => "summary" | cta => "cta"
  end.

Record ScriptSegment := {
  type : SegmentType;
  startTime : Z;
  endTime : Z;
  duration : Z;
  text : string;
  visualHint : string
}.

Record GeneratedScript := {
  id : string;
  topic : string;
  title : string;
  segments : list ScriptSegment;
  totalWords : Z;
  estimatedDuration : Z;
  targetKeywords : list string;
  timestamp : Z
}.

(** [ScoredTopic] of [scoreTopics.ts]; the pipeline reads [query]. *)
Record ScoredTopic := {
  query : string;
  category : string
}.

(** What [generateScript] takes from outside the program: the two
    [Math.random] draws, [crypto.randomUUID()] and [new Date()]. *)
Record Ambient := {
  hookDraw : nat;
  ctaDraw : nat;
  uuid : string;
  today : Z
}.

(** [contentLimits.maxKeywords] of [limits.config.ts]. *)
Definition maxKeywords : nat := 10.

Definition generateHook (d : nat) (topic : string) : string :=
  let hooks :=
    [ "Have you ever wondered " +:+ toLowerCase topic +:+ "?";
      "What if I told you there's a better way to "
        +:+ toLowerCase topic +:+ "?";
      "In this video, I'm revealing the truth about "
        +:+ toLowerCase topic +:+ ".";
      "Stop wasting time! Here's how to "
        +:+ toLowerCase topic +:+ " effectively.";
      "The secret to " +:+ toLowerCase topic
        +:+ " that nobody tells you about." ] in
  nth (randomIndex d (List.length hooks)) hooks EmptyString.

Definition generateContext (topic : string) : string :=
  "Before we dive in, let's understand why " +:+ toLowerCase topic
    +:+ " matters." +:+ nl
    +:+ "    Many people struggle with this, but with the right approach, you can master it."
    +:+ nl
    +:+ "    I've spent years researching this topic, and today I'll share what really works.".

Definition generateExplanation (topic : string) : list string :=
  [ "First, let's break down the fundamentals of " +:+ toLowerCase topic
      +:+ "." +:+ nl
      +:+ "      Understanding the basics is crucial for success.";
    "Next, I'll show you the step-by-step process that actually works."
      +:+ nl
      +:+ "      Many tutorials skip these important details, but they're essential.";
    "Here's a practical example to illustrate the concept." +:+ nl
      +:+ "      You can apply this immediately to see results.";
    "Common mistakes to avoid when dealing with " +:+ toLowerCase topic
      +:+ "." +:+ nl
      +:+ "      These pitfalls can save you hours of frustration." ].

Definition generateSummary (topic : string) : string :=
  "To recap, mastering " +:+ toLowerCase topic
    +:+ " requires understanding the basics," +:+ nl
    +:+ "    following a proven process, avoiding common mistakes, and applying what you learn."
    +:+ nl
    +:+ "    Remember, consistency is key.".

Definition generateCTA (d : nat) : string :=
  let ctas :=
    [ "If you found this helpful, please like and subscribe for more content like this."
        +:+ nl
        +:+ "      Your support helps me create more valuable videos.";
      "What topic should I cover next? Let me know in the comments below."
        +:+ nl
        +:+ "      Don't forget to hit the notification bell so you don't miss future videos.";
      "Check out the description for additional resources and links."
        +:+ nl
        +:+ "      If you have questions, ask them in the comments and I'll do my best to help." ] in
  nth (randomIndex d (List.length ctas)) ctas EmptyString.

(** [text.split(' ').length] *)
Definition splitCount (s : string) : Z :=
  Z.of_nat (List.length (split space s)).

(** 150 words per minute = 2.5 words per second. *)
Definition calculateSegmentDuration (wordCount : Z) : Z :=
  ceilDiv wordCount 2.5%Q.

Definition stopWords : list string :=
  ["the"; "a"; "an"; "and"; "or"; "but"; "in"; "on"; "at"; "to"; "for";
   "of"; "with"; "by"].

Definition extractKeywords (query : string) : list string :=
  let words := split space (toLowerCase query) in
  take maxKeywords
    (List.filter
       (fun word => (3 <? len word)
                    && negb (existsb (String.eqb word) stopWords))
       words).

(** [generateScript]; what it writes to the log, the warning about
    [maxScriptLength] included, leaves no trace in the result. *)
Definition generateScript (a : Ambient) (topic : ScoredTopic)
  : GeneratedScript :=
  let query := query topic in
  let hookText := generateHook (hookDraw a) query in
  let contextText := generateContext query in
  let explanationTexts := generateExplanation query in
  let summaryText := generateSummary query in
  let ctaText := generateCTA (ctaDraw a) in
  let segments : list ScriptSegment := [] in
  let currentTime := 0 in
  (* Hook segment *)
  let hookDuration := calculateSegmentDuration (splitCount hookText) in
  let segments := segments ++
    [ {| type := hook; startTime := currentTime;
         endTime := currentTime + hookDuration;
         duration := hookDuration; text := hookText;
         visualHint := "attention_grabber" |} ] in
  let currentTime := currentTime + hookDuration in
  (* Context segment *)
  let contextDuration :=
    calculateSegmentDuration (splitCount contextText) in
  let segments := segments ++
    [ {| type := context; startTime := currentTime;
         endTime := currentTime + contextDuration;
         duration := contextDuration; text := contextText;
         visualHint := "explanation_visual" |} ] in
  let currentTime := currentTime + contextDuration in
  (* Explanation segments *)
  let '(segments, currentTime) :=
    fold_left
      (fun '(segments, currentTime) '(index, paragraph) =>
         let explanationDuration :=
           calculateSegmentDuration (splitCount paragraph) in
         (segments ++
            [ {| type := explanation; startTime := currentTime;
                 endTime := currentTime + explanationDuration;
                 duration := explanationDuration; text := paragraph;
                 visualHint :=
                   "step_" +:+ toString (Z.of_nat index + 1) |} ],
          currentTime + explanationDuration))
      (entries explanationTexts) (segments, currentTime) in
  (* Summary segment *)
  let summaryDuration :=
    calculateSegmentDuration (splitCount summaryText) in
  let segments := segments ++
    [ {| type := summary; startTime := currentTime;
         endTime := currentTime + summaryDuration;
         duration := summaryDuration; text := summaryText;
         visualHint := "recap_visual" |} ] in
  let currentTime := currentTime + summaryDuration in
  (* CTA segment *)
  let ctaDuration := calculateSegmentDuration (splitCount ctaText) in
  let segments := segments ++
    [ {| type := cta; startTime := currentTime;
         endTime := currentTime + ctaDuration;
         duration := ctaDuration; text := ctaText;
         visualHint := "end_screen" |} ] in
  let currentTime := currentTime + ctaDuration in
  let totalWords :=
    fold_left (fun sum seg => sum + splitCount (text seg)) segments 0 in
  {| id := uuid a;
     topic := query;
     title := query +:+ " - Complete Guide & Tutorial";
     segments := segments;
     totalWords := totalWords;
     estimatedDuration := currentTime;
     targetKeywords := extractKeywords query;
     timestamp := today a |}.

End Script.

(* ===================================================================== *)
(** ** The outside world: [child_process.exec], [fs], clock and entropy *)
(* ===================================================================== *)

Module Sys.

(** How the promise of [execAsync] rejects. *)
Inductive ExecFailure := NonZeroExit | TimedOut | CommandNotFound.

Inductive Error :=
| ExecError (cmd : string) (why : ExecFailure)
| FsError (op path : string)
| JsError (msg : string).

(** One [execAsync(command, { timeout })] call; the timeout is in
    milliseconds and absent when the code passes none. *)
Record Call := {
  command : string;
  timeout : option Z
}.

(** Files are kept with their content, so a file's size is the length
    of its content. *)
Record World := {
  files : gmap string string;
  calls : list Call;
  clock : Z;
  draws : list nat
}.

(** What an external command leaves behind. *)
Record Outcome := {
  failure : option ExecFailure;
  filesAfter : gmap string string;
  clockAfter : Z
}.

(** The parts of the platform the sources rely on but do not define:
    Node's [path.join], the behaviour of the external tools, and
    whether the file system refuses to write or to unlink a file. *)
Class Platform := {
  pathJoin : list string -> string;
  run : Call -> World -> Outcome;
  writeRefused : string -> World -> bool;
  unlinkRefused : string -> World -> bool
}.

Inductive Result (A : Type) :=
| Ok (a : A)
| Throw (e : Error).
Arguments Ok {A} a.
Arguments Throw {A} e.

(** An [async] function body: it reads and changes the world and either
    resolves or rejects. *)
Definition M (A : Type) : Type := World -> Result A * World.

Definition ret {A} (a : A) : M A := fun w => (Ok a, w).

Definition throw {A} (e : Error) : M A := fun w => (Throw e, w).

Definition bind {A B} (m : M A) (k : A -> M B) : M B :=
  fun w =>
    match m w with
    | (Ok a, w') => k a w'
    | (Throw e, w') => (Throw e, w')
    end.

(** [try { m } catch (error) { h error }] *)
Definition tryCatch {A} (m : M A) (h : Error -> M A) : M A :=
  fun w =>
    match m w with
    | (Ok a, w') => (Ok a, w')
    | (Throw e, w') => h e w'
    end.

Declare Scope prog_scope.
Delimit Scope prog_scope with prog.
Notation "x <- c1 ;; c2" := (bind c1 (fun x => c2))
  (at level 100, c1 at next level, right associativity) : prog_scope.
Notation "c1 ;; c2" := (bind c1 (fun _ => c2))
  (at level 100, right associativity) : prog_scope.

Section Primitives.
Context `{Platform}.

(** [await execAsync(command, { timeout })] *)
Definition exec (cmd : string) (t : option Z) : M unit :=
  fun w =>
    let c := {| command := cmd; timeout := t |} in
    let o := run c w in
    let w' := {| files := filesAfter o; calls := calls w ++ [c];
                 clock := clockAfter o; draws := draws w |} in
    match failure o with
    | None => (Ok tt, w')
    | Some why => (Throw (ExecError cmd why), w')
    end.

(** [await fs.access(path)] *)
Definition access (path : string) : M unit :=
  fun w =>
    match files w !! path with
    | Some _ => (Ok tt, w)
    | None => (Throw (FsError "access" path), w)
    end.

(** [(await fs.stat(path)).size] *)
Definition statSize (path : string) : M Z :=
  fun w =>
    match files w !! path with
    | Some content => (Ok (Js.len content), w)
    | None => (Throw (FsError "stat" path), w)
    end.

(** [await fs.writeFile(path, content)] *)
Definition writeFile (path content : string) : M unit :=
  fun w =>
    if writeRefused path w then (Throw (FsError "writeFile" path), w)
    else (Ok tt, {| files := <[path := content]> (files w);
                    calls := calls w; clock := clock w;
                    draws := draws w |}).

(** [await fs.unlink(path).catch(() => {})]: the file is removed unless
    the file system refuses; the rejection of a refused [unlink] is
    swallowed, and the file then stays where it is. *)
Definition unlinkQuiet (path : string) : M unit :=
  fun w =>
    if unlinkRefused path w then (Ok tt, w)
    else (Ok tt, {| files := delete path (files w); calls := calls w;
                    clock := clock w; draws := draws w |}).

(** [Date.now()] *)
Definition now : M Z := fun w => (Ok (clock w), w).

(** [Math.floor(Math.random() * n)]: uses up one draw. *)
Definition randomBelow (n : nat) : M nat :=
  fun w =>
    (Ok (Js.randomIndex (hd O (draws w)) n),
     {| files := files w; calls := calls w; clock := clock w;
        draws := tl (draws w) |}).

(** A [for] loop over an array whose body awaits. *)
Fixpoint forEach {A} (body : A -> M unit) (xs : list A) : M unit :=
  match xs with
  | [] => ret tt
  | x :: rest => (body x ;; forEach body rest)%prog
  end.

End Primitives.

End Sys.

(* ===================================================================== *)
(** ** [VideoGenerator]: assets, captions and the render command *)
(* ===================================================================== *)

Module Video.
Import Js Script Sys.
Local Open Scope prog_scope.

(** The instance fields of the class. *)
Record VideoGenerator := {
  outputDir : string;
  assetsDir : string
}.

(** [VideoGenerationOptions]; the optional fields are [None] where the
    caller gave none. *)
Record VideoGenerationOptions := {
  script : GeneratedScript;
  voiceoverPath : string;
  topic : ScoredTopic;
  resolution : option (Z * Z);
  framerate : option Z
}.

Record RenderOptions := {
  r_voiceoverPath : string;
  r_assets : list string;
  r_captionsPath : string;
  r_outputPath : string;
  r_resolution : Z * Z;
  r_framerate : Z;
  r_duration : Z
}.

(** The locals that [renderWithFFmpeg] builds up. *)
Record Graph := {
  inputs : string;
  filterComplex : string;
  filterCount : Z
}.

Definition segmentColors : gmap string string :=
  list_to_map
    [ ("hook", "darkblue"); ("context", "darkgreen");
      ("explanation", "darkred"); ("summary", "darkorange");
      ("cta", "darkviolet") ].

(** [colors[type] || 'black'] for a [type] that names no property which
    the object literal inherits ([Js.inheritedKeys]); every caller in the
    sources passes the kind of a segment. *)
Definition getSegmentColor (type : string) : string :=
  default "black" (segmentColors !! type).

(** [formatTime] on a whole number of seconds in the range [0, 2^53) of
    the integers that a number holds exactly, which is where the
    offsets of a schedule lie: there the divisions, remainders and
    [Math.floor] are those of the integers, [seconds % 1] is [0], and
    [toString] prints the decimal digits. *)
Definition formatTime (seconds : Z) : string :=
  let hours := seconds / 3600 in
  let minutes := Z.rem seconds 3600 / 60 in
  let secs := Z.rem seconds 60 in
  let ms := Z.rem seconds 1 * 1000 in
  padStart 2 "0" (toString hours) +:+ ":"
    +:+ padStart 2 "0" (toString minutes) +:+ ":"
    +:+ padStart 2 "0" (toString secs) +:+ ","
    +:+ padStart 3 "0" (toString ms).

(** The body of the caption loop: the content and the running index. *)
Definition captionStep (acc : string * Z) (segment : ScriptSegment)
  : string * Z :=
  let '(captionsContent, captionIndex) := acc in
  let startTime := formatTime (startTime segment) in
  let endTime := formatTime (endTime segment) in
  let captionsContent := captionsContent +:+ toString captionIndex +:+ nl in
  let captionsContent :=
    captionsContent +:+ startTime +:+ " --> " +:+ endTime +:+ nl in
  let captionsContent :=
    captionsContent +:+ text segment +:+ nl +:+ nl in
  (captionsContent, captionIndex + 1).

Definition captionsDocument (segments : list ScriptSegment) : string :=
  fst (fold_left captionStep segments (EmptyString, 1)).

(** The body of the first loop of [renderWithFFmpeg]. *)
Definition inputStep (assets : list string) (segmentDurations : list Z)
    (g : Graph) (i : nat) : Graph :=
  {| inputs :=
       inputs g +:+ "-loop 1 -t "
         +:+ toString (default 0 (segmentDurations !! i))
         +:+ " -i " +:+ dq +:+ default EmptyString (assets !! i)
         +:+ dq +:+ " ";
     filterComplex :=
       filterComplex g +:+ "[" +:+ toString (Z.of_nat i)
         +:+ ":v]setpts=PTS-STARTPTS[v" +:+ toString (Z.of_nat i) +:+ "];";
     filterCount := filterCount g + 1 |}.

(** The body of the second loop. *)
Definition concatStep (concatInputs : string) (i : nat) : string :=
  concatInputs +:+ "[v" +:+ toString (Z.of_nat i) +:+ "]".

(** The filter that mixes narration and music. *)
Definition mixFilter (n : Z) : string :=
  ";[" +:+ toString n +:+ ":a]volume=0.3[music];["
    +:+ toString (n + 1)
    +:+ ":a]volume=0.1[bg];[music][bg]amix=inputs=2:duration=longest[aout]".

(** The filter that passes the narration through. *)
Definition soloFilter (n : Z) : string :=
  "[" +:+ toString n +:+ ":a]volume=1.0[aout]".

(** The caption burn-in stage. *)
Definition subtitlesFilter (captionsPath : string) : string :=
  ";[outv]subtitles='" +:+ replaceQuote "'\''" captionsPath
    +:+ "':force_style='FontName=Arial,FontSize=24,PrimaryColour=&HFFFFFF&'[finalv]".

Definition ffmpegCommand (g : Graph) (o : RenderOptions) : string :=
  "ffmpeg " +:+ inputs g +:+ " "
    +:+ "      -filter_complex " +:+ dq +:+ filterComplex g +:+ dq +:+ " "
    +:+ "      -map " +:+ dq +:+ "[finalv]" +:+ dq
    +:+ " -map " +:+ dq +:+ "[aout]" +:+ dq +:+ " "
    +:+ "      -c:v libx264 -preset medium -crf 23 "
    +:+ "      -c:a aac -b:a 192k "
    +:+ "      -r " +:+ toString (r_framerate o)
    +:+ " -s " +:+ toString (fst (r_resolution o)) +:+ "x"
    +:+ toString (snd (r_resolution o)) +:+ " "
    +:+ "      -pix_fmt yuv420p "
    +:+ "      -shortest "
    +:+ "      -y " +:+ dq +:+ r_outputPath o +:+ dq.

(** The render timeout, in milliseconds. *)
Definition renderTimeout : Z := 300000.

Section Methods.
Context `{Platform}.
Variable this : VideoGenerator.

Definition createSegmentImage (segment : ScriptSegment)
    (outputPath : string) (index : nat) : M unit :=
  let text := stripNonWordSpace (substring0 100 (text segment)) in
  let bgColor := getSegmentColor (typeName (type segment)) in
  let command :=
    "convert -size 1920x1080 xc:" +:+ bgColor +:+ " "
      +:+ "      -font Arial -pointsize 72 -fill white -gravity center "
      +:+ "      -annotate +0+0 " +:+ dq +:+ "Segment "
      +:+ toString (Z.of_nat index + 1) +:+ "\n"
      +:+ typeName (type segment) +:+ "\n\n" +:+ text +:+ dq +:+ " "
      +:+ "      " +:+ dq +:+ outputPath +:+ dq in
  tryCatch (exec command None)
    (fun error =>
       exec ("ffmpeg -f lavfi -i color=c=" +:+ bgColor
               +:+ ":s=1920x1080:d=1 -frames:v 1 "
               +:+ dq +:+ outputPath +:+ dq)
            None).

(** The loop of [prepareAssets], from index [i] on. *)
Fixpoint prepareFrom (scr : GeneratedScript) (i : nat)
    (rest : list ScriptSegment) (assets : list string)
  : M (list string) :=
  match rest with
  | [] => ret assets
  | segment :: rest' =>
      let assetPath :=
        pathJoin [ outputDir this;
                   id scr +:+ "_segment_" +:+ toString (Z.of_nat i)
                     +:+ ".png" ] in
      createSegmentImage segment assetPath i ;;
      prepareFrom scr (S i) rest' (assets ++ [assetPath])
  end.

Definition prepareAssets (scr : GeneratedScript) : M (list string) :=
  prepareFrom scr 0 (segments scr) [].

Definition generateCaptions (scr : GeneratedScript) (videoId : string)
  : M string :=
  let captionsPath :=
    pathJoin [outputDir this; videoId +:+ "_captions.srt"] in
  let captionsContent := captionsDocument (segments scr) in
  writeFile captionsPath captionsContent ;;
  ret captionsPath.

Definition musicPath : string :=
  pathJoin [assetsDir this; "music"; "background.mp3"].

(** [renderWithFFmpeg] up to the command it is about to run. *)
Definition compileGraph (o : RenderOptions) : M string :=
  let assets := r_assets o in
  let segmentDurations := map (fun _ => 2) assets in
  let n := List.length assets in
  let g := {| inputs := EmptyString; filterComplex := EmptyString;
              filterCount := 0 |} in
  let g := fold_left (inputStep assets segmentDurations) (seq 0 n) g in
  let g := {| inputs := inputs g +:+ "-i " +:+ dq
                          +:+ r_voiceoverPath o +:+ dq +:+ " ";
              filterComplex := filterComplex g;
              filterCount := filterCount g |} in
  let concatInputs := fold_left concatStep (seq 0 n) EmptyString in
  let g := {| inputs := inputs g;
              filterComplex :=
                filterComplex g +:+ concatInputs +:+ "concat=n="
                  +:+ toString (Z.of_nat n) +:+ ":v=1:a=0[outv];";
              filterCount := filterCount g |} in
  g <- tryCatch
         (access musicPath ;;
          let audioFilter := mixFilter (Z.of_nat n) in
          ret {| inputs := inputs g +:+ "-i " +:+ dq +:+ musicPath
                             +:+ dq +:+ " ";
                 filterComplex := filterComplex g +:+ audioFilter;
                 filterCount := filterCount g |})
         (fun _ =>
            ret {| inputs := inputs g;
                   filterComplex :=
                     filterComplex g +:+ soloFilter (Z.of_nat n);
                   filterCount := filterCount g |}) ;;
  let g := {| inputs := inputs g;
              filterComplex :=
                filterComplex g +:+ subtitlesFilter (r_captionsPath o);
              filterCount := filterCount g |} in
  ret (ffmpegCommand g o).

Definition renderWithFFmpeg (o : RenderOptions) : M unit :=
  command <- compileGraph o ;;
  exec command (Some renderTimeout).

Definition generateVideo (options : VideoGenerationOptions) : M string :=
  let scr := script options in
  let resolution := default (1920, 1080) (resolution options) in
  let framerate := default 30 (framerate options) in
  let videoId := id scr in
  let outputPath := pathJoin [outputDir this; videoId +:+ "_video.mp4"] in
  tryCatch
    (assets <- prepareAssets scr ;;
     captionsPath <- generateCaptions scr videoId ;;
     renderWithFFmpeg
       {| r_voiceoverPath := voiceoverPath options;
          r_assets := assets;
          r_captionsPath := captionsPath;
          r_outputPath := outputPath;
          r_resolution := resolution;
          r_framerate := framerate;
          r_duration := estimatedDuration scr |} ;;
     size <- statSize outputPath ;;
     if size =? 0
     then throw (JsError "Generated video file is empty")
     else ret outputPath)
    (fun error => throw error).

End Methods.

End Video.

(* ===================================================================== *)
(** ** [ThumbnailGenerator]: frame, overlay and the flat-colour fallback *)
(* ===================================================================== *)

Module Thumbnail.
Import Js Script Sys.
Local Open Scope prog_scope.

Record ThumbnailGenerator := {
  outputDir : string;
  assetsDir : string;
  width : Z;
  height : Z
}.

Record ThumbnailOptions := {
  topic : ScoredTopic;
  script : GeneratedScript;
  videoPath : string;
  style : option string
}.

Record ColorScheme := {
  primary : string;
  accent : string;
  overlay : string
}.

(** The three symbols of the overlay text lie outside the Latin-1 range
    of the strings used here; each stands here as the bytes of its UTF-8
    form, the bytes the shell receives.  The overlay command is that of
    the source for queries within Latin-1 up to this spelling of the
    three symbols. *)
Definition clapper : string :=
  String "240" (String "159" (String "142" (String "172" EmptyString))).
Definition playSign : string :=
  String "226" (String "150" (String "182" EmptyString)).
Definition bullet : string :=
  String "226" (String "128" (String "162" EmptyString)).

Definition schemeBold : ColorScheme :=
  {| primary := "#FF0000"; accent := "#FF5722";
     overlay := "rgba(255,0,0,0.2)" |}.

Definition schemes : gmap string ColorScheme :=
  list_to_map
    [ ("minimal", {| primary := "#000000"; accent := "#333333";
                     overlay := "rgba(0,0,0,0.3)" |});
      ("bold", schemeBold);
      ("contrast", {| primary := "#2196F3"; accent := "#FFC107";
                      overlay := "rgba(33,150,243,0.2)" |});
      ("gradient", {| primary := "#9C27B0"; accent := "#673AB7";
                      overlay := "rgba(156,39,176,0.2)" |}) ].

(** [schemes[style] || schemes.bold] for a [style] that names no
    property which the object literal inherits ([Js.inheritedKeys]). *)
Definition getColorScheme (style : string) : ColorScheme :=
  default schemeBold (schemes !! style).

Definition prefixes : list string :=
  ["How to"; "Complete Guide to"; "Master"; "Learn"; "Discover"].

Definition palette : list string :=
  ["red"; "blue"; "green"; "purple"; "orange"; "teal"].

Section Methods.
Context `{Platform}.
Variable this : ThumbnailGenerator.

Definition extractVideoFrame (videoPath : string) : M string :=
  t <- now ;;
  let framePath :=
    pathJoin [outputDir this; "frame_" +:+ toString t +:+ ".jpg"] in
  exec ("ffmpeg -i " +:+ dq +:+ videoPath +:+ dq
          +:+ " -ss 00:00:02 -vframes 1 -q:v 2 "
          +:+ dq +:+ framePath +:+ dq)
       None ;;
  ret framePath.

Definition createThumbnailTitle (query : string) : M string :=
  i <- randomBelow (List.length prefixes) ;;
  let suffix := prefixes !! i in
  if 40 <? len query
  then ret (substring0 40 query +:+ "...")
  else ret query.

Definition createThumbnailWithFFmpeg (backgroundPath outputPath : string)
    (topic : ScoredTopic) : M unit :=
  let text := query topic in
  let command :=
    "ffmpeg -i " +:+ dq +:+ backgroundPath +:+ dq +:+ " "
      +:+ "      -vf " +:+ dq +:+ "drawtext=text='" +:+ text
      +:+ "':fontcolor=white:fontsize=60:box=1:boxcolor=black@0.5:boxborderw=5:x=(w-text_w)/2:y=(h-text_h)/2"
      +:+ dq +:+ " "
      +:+ "      -frames:v 1 " +:+ dq +:+ outputPath +:+ dq in
  exec command None.

Definition overlayCommand (backgroundPath outputPath title : string)
    (topic : ScoredTopic) (colorScheme : ColorScheme) : string :=
  let w := toString (width this) in
  let h := toString (height this) in
  "convert " +:+ dq +:+ backgroundPath +:+ dq +:+ " "
    +:+ "      -resize " +:+ w +:+ "x" +:+ h
    +:+ "^ -gravity center -extent " +:+ w +:+ "x" +:+ h +:+ " "
    +:+ "      -fill " +:+ dq +:+ overlay colorScheme +:+ dq
    +:+ " -colorize 30% "
    +:+ "      -fill white -font Arial -pointsize 60 -gravity north "
    +:+ "      -annotate +0+100 " +:+ dq +:+ clapper +:+ " " +:+ title
    +:+ dq +:+ " "
    +:+ "      -fill " +:+ dq +:+ accent colorScheme +:+ dq
    +:+ " -font Arial-Bold -pointsize 90 -gravity center "
    +:+ "      -annotate +0+0 " +:+ dq +:+ query topic +:+ dq +:+ " "
    +:+ "      -fill white -font Arial -pointsize 36 -gravity south "
    +:+ "      -annotate +0+100 " +:+ dq +:+ playSign +:+ " WATCH NOW "
    +:+ bullet +:+ " COMPLETE GUIDE" +:+ dq +:+ " "
    +:+ "      -fill " +:+ dq +:+ accent colorScheme +:+ dq
    +:+ " -strokewidth 2 -draw " +:+ dq +:+ "rectangle 100,$(("
    +:+ h +:+ "-150)) $((" +:+ w +:+ "-100)),$((" +:+ h +:+ "-120))"
    +:+ dq +:+ " "
    +:+ "      " +:+ dq +:+ outputPath +:+ dq.

Definition createThumbnailWithOverlay
    (backgroundPath outputPath : string) (topic : ScoredTopic)
    (style : string) : M unit :=
  title <- createThumbnailTitle (query topic) ;;
  let colorScheme := getColorScheme style in
  let command :=
    overlayCommand backgroundPath outputPath title topic colorScheme in
  tryCatch (exec command None)
    (fun error =>
       createThumbnailWithFFmpeg backgroundPath outputPath topic).

Definition getRandomColor : M string :=
  i <- randomBelow (List.length palette) ;;
  ret (default EmptyString (palette !! i)).

Definition fallbackCommand (color text outputPath : string) : string :=
  "ffmpeg -f lavfi -i color=c=" +:+ color +:+ ":s="
    +:+ toString (width this) +:+ "x" +:+ toString (height this)
    +:+ ":d=1 "
    +:+ "      -vf " +:+ dq +:+ "drawtext=text='" +:+ text
    +:+ "':fontcolor=white:fontsize=48:box=1:boxcolor=black@0.5:boxborderw=10:x=(w-text_w)/2:y=(h-text_h)/2"
    +:+ dq +:+ " "
    +:+ "      -frames:v 1 " +:+ dq +:+ outputPath +:+ dq.

Definition generateFallbackThumbnail (outputPath : string)
    (topic : ScoredTopic) : M unit :=
  color <- getRandomColor ;;
  let text := substring0 50 (query topic) in
  exec (fallbackCommand color text outputPath) None.

Definition generateThumbnail (options : ThumbnailOptions) : M string :=
  let style := default "bold" (style options) in
  let thumbnailPath :=
    pathJoin [outputDir this; id (script options) +:+ "_thumbnail.png"] in
  tryCatch
    (framePath <- extractVideoFrame (videoPath options) ;;
     createThumbnailWithOverlay framePath thumbnailPath
       (topic options) style ;;
     unlinkQuiet framePath ;;
     size <- statSize thumbnailPath ;;
     if size =? 0
     then throw (JsError "Generated thumbnail is empty")
     else ret thumbnailPath)
    (fun error =>
       generateFallbackThumbnail thumbnailPath (topic options) ;;
       ret thumbnailPath).

End Methods.

End Thumbnail.

(* ===================================================================== *)
(** ** Reading aids: the schedule as a fold, cues, and word counting *)
(* ===================================================================== *)

Module Timeline.
Import Js Script.

(** What [generateScript] knows of a segment before it is timed. *)
Definition Piece : Type := SegmentType * string * string.

(** The block that [generateScript] repeats for every segment: time the
    text, push the segment at [currentTime], advance [currentTime]. *)
Definition pushSegment (acc : list ScriptSegment * Z) (p : Piece)
  : list ScriptSegment * Z :=
  let '(segments, currentTime) := acc in
  let '(ty, txt, hint) := p in
  let d := calculateSegmentDuration (splitCount txt) in
  (segments ++
     [ {| type := ty; startTime := currentTime;
          endTime := currentTime + d; duration := d; text := txt;
          visualHint := hint |} ],
   currentTime + d).

(** The block repeated over an ordered list, from an empty array and
    [currentTime = 0]. *)
Definition layOut (pieces : list Piece) : list ScriptSegment * Z :=
  fold_left pushSegment pieces ([], 0).

(** The eight pieces of a generated script, in narration order. *)
Definition scriptPieces (a : Ambient) (t : ScoredTopic) : list Piece :=
  [ (hook, generateHook (hookDraw a) (query t), "attention_grabber");
    (context, generateContext (query t), "explanation_visual") ]
  ++ map (fun '(index, paragraph) =>
            (explanation, paragraph,
             "step_" +:+ toString (Z.of_nat index + 1)))
         (entries (generateExplanation (query t)))
  ++ [ (summary, generateSummary (query t), "recap_visual");
       (cta, generateCTA (ctaDraw a), "end_screen") ].

(** The same schedule by recursion on the list, from time [t]. *)
Fixpoint scheduleFrom (t : Z) (pieces : list Piece) : list ScriptSegment :=
  match pieces with
  | [] => []
  | (ty, txt, hint) :: rest =>
      let d := calculateSegmentDuration (splitCount txt) in
      {| type := ty; startTime := t; endTime := t + d; duration := d;
         text := txt; visualHint := hint |} :: scheduleFrom (t + d) rest
  end.

Fixpoint endFrom (t : Z) (pieces : list Piece) : Z :=
  match pieces with
  | [] => t
  | (_, txt, _) :: rest =>
      endFrom (t + calculateSegmentDuration (splitCount txt)) rest
  end.

(** Segments that start at [t], touch each other and end at [total]. *)
Fixpoint chained (t : Z) (segs : list ScriptSegment) (total : Z) : Prop :=
  match segs with
  | [] => t = total
  | s :: rest => startTime s = t /\ chained (endTime s) rest total
  end.

(** Word count by whitespace tokenization: the number of maximal runs
    of characters that are not white space. *)
Fixpoint countTokens (inWord : bool) (s : string) : nat :=
  match s with
  | EmptyString => O
  | String c rest =>
      if isSpaceChar c then countTokens false rest
      else ((if inWord then 0 else 1) + countTokens true rest)%nat
  end.

Definition whitespaceWordCount (s : string) : Z :=
  Z.of_nat (countTokens false s).

End Timeline.

Module Captions.
Import Js Script Video.

(** A caption cue as the data model has it. *)
Record CaptionCue := {
  index : Z;
  startOffsetSeconds : Z;
  endOffsetSeconds : Z;
  cueText : string
}.

(** One cue per segment, numbered from [first] on. *)
Fixpoint cuesFrom (first : Z) (segs : list ScriptSegment) : list CaptionCue :=
  match segs with
  | [] => []
  | s :: rest =>
      {| index := first; startOffsetSeconds := startTime s;
         endOffsetSeconds := endTime s; cueText := text s |}
        :: cuesFrom (first + 1) rest
  end.

Definition cuesOf (segs : list ScriptSegment) : list CaptionCue :=
  cuesFrom 1 segs.

(** A numbered-cue / time-range / text block. *)
Definition cueBlock (c : CaptionCue) : string :=
  toString (index c) +:+ nl
    +:+ formatTime (startOffsetSeconds c) +:+ " --> "
    +:+ formatTime (endOffsetSeconds c) +:+ nl
    +:+ cueText c +:+ nl +:+ nl.

Definition isDigit (c : ascii) : bool :=
  let n := N_of_ascii c in ((48 <=? n) && (n <=? 57))%N.

Fixpoint allDigits (s : string) : bool :=
  match s with
  | EmptyString => true
  | String c rest => isDigit c && allDigits rest
  end.

Definition twoDigits (s : string) : bool :=
  match s with
  | String a (String b EmptyString) => isDigit a && isDigit b
  | _ => false
  end.

(** The shape [DD:DD:DD,DDD]. *)
Definition isTimestamp (s : string) : bool :=
  match s with
  | String h1 (String h2 (String c1 (String m1 (String m2 (String c2
      (String s1 (String s2 (String c3 (String f1 (String f2 (String f3
         EmptyString))))))))))) =>
      isDigit h1 && isDigit h2 && Ascii.eqb c1 ":"
      && isDigit m1 && isDigit m2 && Ascii.eqb c2 ":"
      && isDigit s1 && isDigit s2 && Ascii.eqb c3 ","
      && isDigit f1 && isDigit f2 && isDigit f3
  | _ => false
  end.

End Captions.

Module RenderGraph.
Import Js Script Sys Video.
Local Open Scope prog_scope.

(** One still image as a timed input. *)
Definition imageInput (seconds : Z) (asset : string) : string :=
  "-loop 1 -t " +:+ toString seconds +:+ " -i " +:+ dq +:+ asset
    +:+ dq +:+ " ".

(** One audio file as an input. *)
Definition audioInput (path : string) : string :=
  "-i " +:+ dq +:+ path +:+ dq +:+ " ".

Definition setptsStage (i : nat) : string :=
  "[" +:+ toString (Z.of_nat i) +:+ ":v]setpts=PTS-STARTPTS[v"
    +:+ toString (Z.of_nat i) +:+ "];".

Definition concatLabel (i : nat) : string :=
  "[v" +:+ toString (Z.of_nat i) +:+ "]".

(** The stage that joins the [n] video streams, in order, into [outv]. *)
Definition concatStage (n : nat) : string :=
  Js.concat (map concatLabel (seq 0 n)) +:+ "concat=n="
    +:+ toString (Z.of_nat n) +:+ ":v=1:a=0[outv];".

(** The graph in closed form; [music] is the path of the background
    music when there is one. *)
Definition graphOf (music : option string) (o : RenderOptions) : Graph :=
  let n := List.length (r_assets o) in
  {| inputs :=
       Js.concat (map (imageInput 2) (r_assets o))
         +:+ audioInput (r_voiceoverPath o)
         +:+ match music with
             | Some path => audioInput path
             | None => EmptyString
             end;
     filterComplex :=
       Js.concat (map setptsStage (seq 0 n))
         +:+ concatStage n
         +:+ match music with
             | Some _ => mixFilter (Z.of_nat n)
             | None => soloFilter (Z.of_nat n)
             end
         +:+ subtitlesFilter (r_captionsPath o);
     filterCount := Z.of_nat n |}.

Definition commandOf (music : option string) (o : RenderOptions) : string :=
  ffmpegCommand (graphOf music o) o.

(** Two render requests that differ at most in the [duration] they
    carry. *)
Definition sameRequest (o1 o2 : RenderOptions) : Prop :=
  r_voiceoverPath o1 = r_voiceoverPath o2
  /\ r_assets o1 = r_assets o2
  /\ r_captionsPath o1 = r_captionsPath o2
  /\ r_outputPath o1 = r_outputPath o2
  /\ r_resolution o1 = r_resolution o2
  /\ r_framerate o1 = r_framerate o2.

(** The value of a decimal literal such as [0.3]. *)
Fixpoint digitsValue (acc : Z) (s : string) : option Z :=
  match s with
  | EmptyString => Some acc
  | String c rest =>
      let n := Z.of_N (N_of_ascii c) in
      if (48 <=? n) && (n <=? 57)
      then digitsValue (10 * acc + (n - 48)) rest
      else None
  end.

Definition decimalValue (s : string) : option Q :=
  match split "."%char s with
  | [whole; frac] =>
      match digitsValue 0 whole, digitsValue 0 frac with
      | Some a, Some b =>
          Some (inject_Z a
                + inject_Z b / inject_Z (10 ^ Z.of_nat (String.length frac)))%Q
      | _, _ => None
      end
  | _ => None
  end.

Section Stages.
Context `{Platform}.
Variable this : VideoGenerator.

(** The background music, when the file is there. *)
Definition musicIn (w : World) : option string :=
  match files w !! musicPath this with
  | Some _ => Some (musicPath this)
  | None => None
  end.

(** The steps of [generateVideo] that come before the renderer. *)
Definition beforeRender (scr : GeneratedScript)
  : M (list string * string) :=
  assets <- prepareAssets this scr ;;
  captionsPath <- generateCaptions this scr (id scr) ;;
  ret (assets, captionsPath).

Definition videoPathOf (scr : GeneratedScript) : string :=
  pathJoin [outputDir this; id scr +:+ "_video.mp4"].

(** The request that [generateVideo] hands to [renderWithFFmpeg]. *)
Definition requestOf (options : VideoGenerationOptions)
    (assets : list string) (captionsPath : string) : RenderOptions :=
  {| r_voiceoverPath := voiceoverPath options;
     r_assets := assets;
     r_captionsPath := captionsPath;
     r_outputPath := videoPathOf (script options);
     r_resolution := default (1920, 1080) (resolution options);
     r_framerate := default 30 (framerate options);
     r_duration := estimatedDuration (script options) |}.

(** The path of the image of segment [i]. *)
Definition assetPathOf (scr : GeneratedScript) (i : nat) : string :=
  pathJoin [ outputDir this;
             id scr +:+ "_segment_" +:+ toString (Z.of_nat i)
               +:+ ".png" ].

End Stages.

End RenderGraph.

Module Examples.
Import Js Script Sys.

(** [path.join] on segments without dots or doubled separators. *)
Fixpoint joinWithSlash (parts : list string) : string :=
  match parts with
  | [] => "."
  | [p] => p
  | p :: rest => p +:+ "/" +:+ joinWithSlash rest
  end.

(** What a command does in an example world: how it fails, if it does,
    and which files it leaves. *)
Definition Behaviour : Type :=
  string -> option ExecFailure * list (string * string).

Definition writeAll (writes : list (string * string))
    (fs : gmap string string) : gmap string string :=
  fold_right (fun '(path, content) m => <[path := content]> m) fs writes.

(** A platform whose tools follow [b], whose clock ticks with every
    command and whose file system never refuses to write or to unlink. *)
Definition scripted (b : Behaviour) : Platform :=
  {| pathJoin := joinWithSlash;
     run := fun c w =>
              {| failure := fst (b (command c));
                 filesAfter := writeAll (snd (b (command c))) (files w);
                 clockAfter := clock w + 1 |};
     writeRefused := fun _ _ => false;
     unlinkRefused := fun _ _ => false |}.

(** The same platform on a file system that refuses every unlink. *)
Definition stickyFiles (b : Behaviour) : Platform :=
  {| pathJoin := joinWithSlash;
     run := fun c w =>
              {| failure := fst (b (command c));
                 filesAfter := writeAll (snd (b (command c))) (files w);
                 clockAfter := clock w + 1 |};
     writeRefused := fun _ _ => false;
     unlinkRefused := fun _ _ => true |}.

Definition emptyWorld : World :=
  {| files := ∅; calls := []; clock := 1700000000000; draws := [] |}.

Definition startsWith (p s : string) : bool := String.prefix p s.

Definition topicX : ScoredTopic :=
  {| query := "x"; category := "Technology" |}.

Definition ambient0 : Ambient :=
  {| hookDraw := 0; ctaDraw := 0; uuid := "run"; today := 0 |}.

(** A script without segments. *)
Definition emptyScript : GeneratedScript :=
  {| id := "run"; topic := "x"; title := "x - Complete Guide & Tutorial";
     segments := []; totalWords := 0; estimatedDuration := 0;
     targetKeywords := []; timestamp := 0 |}.

(** A script with one segment. *)
Definition hookSegment : ScriptSegment :=
  {| type := hook; startTime := 0; endTime := 2; duration := 2;
     text := "Have you ever wondered x?";
     visualHint := "attention_grabber" |}.

Definition oneSegmentScript : GeneratedScript :=
  {| id := "run"; topic := "x"; title := "x - Complete Guide & Tutorial";
     segments := [hookSegment]; totalWords := 5; estimatedDuration := 2;
     targetKeywords := []; timestamp := 0 |}.

Definition video : Video.VideoGenerator :=
  {| Video.outputDir := "out"; Video.assetsDir := "assets" |}.

Definition thumbs : Thumbnail.ThumbnailGenerator :=
  {| Thumbnail.outputDir := "out"; Thumbnail.assetsDir := "assets";
     Thumbnail.width := 1280; Thumbnail.height := 720 |}.

Definition videoOptions (scr : GeneratedScript)
  : Video.VideoGenerationOptions :=
  {| Video.script := scr; Video.voiceoverPath := "out/run_voice.mp3";
     Video.topic := topicX; Video.resolution := None;
     Video.framerate := None |}.

Definition thumbnailOptions : Thumbnail.ThumbnailOptions :=
  {| Thumbnail.topic := topicX; Thumbnail.script := oneSegmentScript;
     Thumbnail.videoPath := "out/run_video.mp4";
     Thumbnail.style := None |}.

(** Every tool works: the rasterizer draws the segment image and the
    renderer writes a video. *)
Definition allWell : Behaviour :=
  fun cmd =>
    if startsWith "convert" cmd
    then (None, [("out/run_segment_0.png", "PNG")])
    else (None, [("out/run_video.mp4", "MP4")]).

(** The rasterizer reports success and leaves an empty file. *)
Definition emptyRaster : Behaviour :=
  fun cmd =>
    if startsWith "convert" cmd
    then (None, [("out/run_segment_0.png", EmptyString)])
    else (None, []).

(** No tool is installed. *)
Definition nothingInstalled : Behaviour :=
  fun _ => (Some CommandNotFound, []).

(** The video cannot be read, and the flat-colour command reports
    success but leaves an empty file. *)
Definition unreadableVideo : Behaviour :=
  fun cmd =>
    if startsWith "ffmpeg -f lavfi" cmd
    then (None, [("out/run_thumbnail.png", EmptyString)])
    else (Some NonZeroExit, []).

(** The renderer runs out of time. *)
Definition slowRenderer : Behaviour :=
  fun cmd =>
    if startsWith "convert" cmd
    then (None, [("out/run_segment_0.png", "PNG")])
    else (Some TimedOut, []).

Definition mentions (word s : string) : bool :=
  match String.index 0 word s with
  | Some _ => true
  | None => false
  end.

(** The frame is extracted; the rasterizer reports success but leaves an
    empty thumbnail; the flat-colour command draws one. *)
Definition emptyOverlay : Behaviour :=
  fun cmd =>
    if startsWith "convert" cmd
    then (None, [("out/run_thumbnail.png", EmptyString)])
    else if startsWith "ffmpeg -f lavfi" cmd
         then (None, [("out/run_thumbnail.png", "PNG")])
         else (None, [("out/frame_1700000000000.jpg", "JPG")]).

(** Frame extraction and the rasterizer both work. *)
Definition thumbnailWell : Behaviour :=
  fun cmd =>
    if startsWith "convert" cmd
    then (None, [("out/run_thumbnail.png", "PNG")])
    else (None, [("out/frame_1700000000000.jpg", "JPG")]).

(** There is no rasterizer; the rendering engine extracts frames, draws
    text on them and makes flat frames. *)
Definition noRasterizer : Behaviour :=
  fun cmd =>
    if startsWith "convert" cmd then (Some CommandNotFound, [])
    else if mentions "drawtext" cmd
         then (None, [("out/run_thumbnail.png", "PNG")])
         else if startsWith "ffmpeg -f lavfi" cmd
              then (None, [("out/run_segment_0.png", "PNG")])
              else (None, [("out/frame_1700000000000.jpg", "JPG")]).

(** A world that has the background music. *)
Definition musicWorld : World :=
  {| files := <["assets/music/background.mp3" := "MP3"]> ∅;
     calls := []; clock := 1700000000000; draws := [] |}.

Definition requestA : Video.RenderOptions :=
  {| Video.r_voiceoverPath := "out/run_voice.mp3";
     Video.r_assets := ["out/run_segment_0.png"; "out/run_segment_1.png"];
     Video.r_captionsPath := "out/run_captions.srt";
     Video.r_outputPath := "out/run_video.mp4";
     Video.r_resolution := (1920, 1080);
     Video.r_framerate := 30;
     Video.r_duration := 59 |}.

(** The same request, carrying another duration. *)
Definition requestB : Video.RenderOptions :=
  {| Video.r_voiceoverPath := "out/run_voice.mp3";
     Video.r_assets := ["out/run_segment_0.png"; "out/run_segment_1.png"];
     Video.r_captionsPath := "out/run_captions.srt";
     Video.r_outputPath := "out/run_video.mp4";
     Video.r_resolution := (1920, 1080);
     Video.r_framerate := 30;
     Video.r_duration := 70 |}.

(** A world that differs from [emptyWorld] in everything but the
    missing background music. *)
Definition busyWorld : World :=
  {| files := <["out/run_voice.mp3" := "MP3"]> ∅;
     calls := [ {| command := "convert"; timeout := None |} ];
     clock := 1700000000999; draws := [4%nat] |}.

End Examples.

Module Ladder.
Import Js Script Sys.

Section Worlds.
Context `{Platform}.

(** The world once the call [c] has run in [w]. *)
Definition after (c : Call) (w : World) : World :=
  {| files := filesAfter (run c w); calls := calls w ++ [c];
     clock := clockAfter (run c w); draws := draws w |}.

(** The world once a random number has been drawn. *)
Definition drawn (w : World) : World :=
  {| files := files w; calls := calls w; clock := clock w;
     draws := tl (draws w) |}.

(** The world once the unlinking of [path] has been tried: the file is
    gone unless the file system refused. *)
Definition unlinked (path : string) (w : World) : World :=
  if unlinkRefused path w then w
  else {| files := delete path (files w); calls := calls w;
          clock := clock w; draws := draws w |}.

(** How a call ends in [w]. *)
Definition failed (c : Call) (w : World) : option ExecFailure :=
  failure (run c w).
End Worlds.

(** A call without a timeout. *)
Definition plain (cmd : string) : Call :=
  {| command := cmd; timeout := None |}.

(** The rasterizer command of [createSegmentImage]. *)
Definition rasterCommand (segment : ScriptSegment) (outputPath : string)
    (index : nat) : string :=
  "convert -size 1920x1080 xc:"
    +:+ Video.getSegmentColor (typeName (type segment)) +:+ " "
    +:+ "      -font Arial -pointsize 72 -fill white -gravity center "
    +:+ "      -annotate +0+0 " +:+ dq +:+ "Segment "
    +:+ toString (Z.of_nat index + 1) +:+ "\n"
    +:+ typeName (type segment) +:+ "\n\n"
    +:+ stripNonWordSpace (substring0 100 (text segment)) +:+ dq +:+ " "
    +:+ "      " +:+ dq +:+ outputPath +:+ dq.

(** Its fallback: one frame of the segment's colour, without text. *)
Definition flatFrameCommand (segment : ScriptSegment)
    (outputPath : string) : string :=
  "ffmpeg -f lavfi -i color=c="
    +:+ Video.getSegmentColor (typeName (type segment))
    +:+ ":s=1920x1080:d=1 -frames:v 1 " +:+ dq +:+ outputPath +:+ dq.

Section ThumbnailCalls.
Import Thumbnail.
Context `{Platform}.
Variable this : ThumbnailGenerator.
Variable options : ThumbnailOptions.

Definition thumbnailPathOf : string :=
  pathJoin [outputDir this; id (script options) +:+ "_thumbnail.png"].

(** The frame file, named after the clock of the world [w]. *)
Definition framePathIn (w : World) : string :=
  pathJoin [outputDir this; "frame_" +:+ toString (clock w) +:+ ".jpg"].

(** The title of the overlay. *)
Definition titleOf (query : string) : string :=
  if 40 <? len query then substring0 40 query +:+ "..." else query.

(** Frame extraction. *)
Definition frameCall (w : World) : Call :=
  plain ("ffmpeg -i " +:+ dq +:+ videoPath options +:+ dq
           +:+ " -ss 00:00:02 -vframes 1 -q:v 2 "
           +:+ dq +:+ framePathIn w +:+ dq).

(** Level 1: the rasterizer overlay on the frame. *)
Definition overlayCall (w : World) : Call :=
  plain (overlayCommand this (framePathIn w) thumbnailPathOf
           (titleOf (query (topic options))) (topic options)
           (getColorScheme (default "bold" (style options)))).

(** Level 2: one text drawn on the same frame. *)
Definition drawtextCall (w : World) : Call :=
  plain ("ffmpeg -i " +:+ dq +:+ framePathIn w +:+ dq +:+ " "
           +:+ "      -vf " +:+ dq +:+ "drawtext=text='"
           +:+ query (topic options)
           +:+ "':fontcolor=white:fontsize=60:box=1:boxcolor=black@0.5:boxborderw=5:x=(w-text_w)/2:y=(h-text_h)/2"
           +:+ dq +:+ " "
           +:+ "      -frames:v 1 " +:+ dq +:+ thumbnailPathOf +:+ dq).

(** Level 3: a flat background with one centred text; the colour is
    the palette entry picked by the next draw of [w]. *)
Definition flatCall (w : World) : Call :=
  plain (fallbackCommand this
           (default EmptyString
              (palette !! randomIndex (hd O (draws w))
                                      (List.length palette)))
           (substring0 50 (query (topic options)))
           thumbnailPathOf).

(** What level 3 makes of the world [w] it starts in. *)
Definition flatOutcome (w : World) : Result string * World :=
  (match failed (flatCall w) (drawn w) with
   | None => Ok thumbnailPathOf
   | Some why => Throw (ExecError (command (flatCall w)) why)
   end,
   after (flatCall w) (drawn w)).

(** The check that ends the first two levels, in the world [w] they
    leave behind: the path when the thumbnail is there and not empty,
    level 3 otherwise. *)
Definition verified (frame : string) (w : World)
  : Result string * World :=
  match files (unlinked frame w) !! thumbnailPathOf with
  | Some content =>
      if len content =? 0 then flatOutcome (unlinked frame w)
      else (Ok thumbnailPathOf, unlinked frame w)
  | None => flatOutcome (unlinked frame w)
  end.

(** The thumbnail is there and not empty. *)
Definition hasImage (w : World) : Prop :=
  exists content,
    files w !! thumbnailPathOf = Some content /\ 0 < len content.

(** The thumbnail is missing or empty once [frame] is unlinked. *)
Definition lacksImage (frame : string) (w : World) : Prop :=
  forall content,
    files (unlinked frame w) !! thumbnailPathOf = Some content ->
    len content = 0.

End ThumbnailCalls.

End Ladder.

(* ===================================================================== *)
(** ** More string primitives, and the voice generator *)
(* ===================================================================== *)

Module Text.
Import Js.

(** Every character of [s] satisfies [p]. *)
Fixpoint allChars (p : ascii -> bool) (s : string) : bool :=
  match s with
  | EmptyString => true
  | String c rest => p c && allChars p rest
  end.

(** [xs.join(sep)] *)
Fixpoint join (sep : string) (xs : list string) : string :=
  match xs with
  | [] => EmptyString
  | [x] => x
  | x :: rest => x +:+ sep +:+ join sep rest
  end.

(** [s.replace(/c/g, r)] for a one-character pattern. *)
Fixpoint replaceChar (c : ascii) (r : string) (s : string) : string :=
  match s with
  | EmptyString => EmptyString
  | String x rest =>
      if Ascii.eqb x c then r +:+ replaceChar c r rest
      else String x (replaceChar c r rest)
  end.

(** [s] without its first [n] characters. *)
Fixpoint dropChars (n : nat) (s : string) : string :=
  match n, s with
  | O, _ => s
  | S _, EmptyString => EmptyString
  | S n', String _ rest => dropChars n' rest
  end.

(** [s.replace(pat, rep)] for a string pattern without metacharacters in
    the replacement: only the first occurrence is replaced. *)
Fixpoint replaceFirst (pat rep : string) (s : string) : string :=
  if String.prefix pat s then rep +:+ dropChars (String.length pat) s
  else match s with
       | EmptyString => EmptyString
       | String c rest => String c (replaceFirst pat rep rest)
       end.

(** The characters that end or escape a double-quoted shell word. *)
Definition isShellActive (c : ascii) : bool :=
  let n := N_of_ascii c in
  ((n =? 34) || (n =? 36) || (n =? 92) || (n =? 96))%N.

(** Reading a decimal field of a timestamp. *)
Definition readNumber (s : string) : option Z :=
  match NilEmpty.int_of_string s with
  | Some d => Some (Z.of_int d)
  | None => None
  end.

(** Reading [hours:minutes:seconds,milliseconds] back into whole seconds
    and milliseconds. *)
Definition readTimestamp (s : string) : option (Z * Z) :=
  match split ":"%char s with
  | [hh; mm; rest] =>
      match split ","%char rest with
      | [ss; ms] =>
          match readNumber hh, readNumber mm, readNumber ss, readNumber ms with
          | Some h, Some m, Some sec, Some f =>
              Some (h * 3600 + m * 60 + sec, f)
          | _, _, _, _ => None
          end
      | _ => None
      end
  | _ => None
  end.

(** The sum of the piece counts of the texts of [segs]. *)
Definition pieceTotal (segs : list Script.ScriptSegment) : Z :=
  fold_right (fun seg acc => Script.splitCount (Script.text seg) + acc) 0 segs.

End Text.

Module Voice.
Import Js Script Sys Text.
Local Open Scope prog_scope.

(** The instance fields of [VoiceGenerator], together with
    [process.platform], which [generateWithFFmpegTTS] reads. *)
Record VoiceGenerator := {
  outputDir : string;
  assetsDir : string;
  platform : string
}.

(** [script.segments.map(s => s.text).join(' ')] *)
Definition fullText (scr : GeneratedScript) : string :=
  join " " (map text (segments scr)).

(** [fullText.replace(/"/g, '\\"')] *)
Definition escapeQuotes (s : string) : string :=
  replaceChar "034"%char ("\" +:+ dq) s.

Section Methods.
Context `{Platform}.
Variable this : VoiceGenerator.

Definition fileExists (filePath : string) : M bool :=
  tryCatch (access filePath ;; ret true) (fun _ => ret false).

Definition generateWithFFmpegTTS (scr : GeneratedScript)
    (outputPath : string) : M unit :=
  let fullText := fullText scr in
  let platform := platform this in
  if String.eqb platform "darwin" then
    exec ("say -v Samantha -o " +:+ outputPath +:+ " " +:+ dq
            +:+ escapeQuotes fullText +:+ dq)
         None
  else if String.eqb platform "linux" then
    let tempFile := pathJoin [outputDir this; id scr +:+ "_temp.wav"] in
    exec ("espeak -v en-us -w " +:+ tempFile +:+ " " +:+ dq
            +:+ escapeQuotes fullText +:+ dq)
         None ;;
    exec ("ffmpeg -i " +:+ tempFile
            +:+ " -codec:a libmp3lame -qscale:a 2 " +:+ outputPath)
         None ;;
    unlinkQuiet tempFile
  else
    let psScript := pathJoin [outputDir this; id scr +:+ "_tts.ps1"] in
    let wavPath := replaceFirst ".mp3" ".wav" outputPath in
    let psContent :=
      "Add-Type -AssemblyName System.Speech" +:+ nl
        +:+ "$speak = New-Object System.Speech.Synthesis.SpeechSynthesizer"
        +:+ nl
        +:+ "$speak.SetOutputToWaveFile(" +:+ dq +:+ wavPath +:+ dq +:+ ")"
        +:+ nl
        +:+ "$speak.Speak(" +:+ dq +:+ escapeQuotes fullText +:+ dq +:+ ")"
        +:+ nl
        +:+ "$speak.Dispose()" in
    writeFile psScript psContent ;;
    exec ("powershell -ExecutionPolicy Bypass -File " +:+ dq +:+ psScript
            +:+ dq)
         None ;;
    unlinkQuiet psScript ;;
    found <- fileExists wavPath ;;
    if found : bool then
      exec ("ffmpeg -i " +:+ dq +:+ wavPath +:+ dq
              +:+ " -codec:a libmp3lame -qscale:a 2 " +:+ dq +:+ outputPath
              +:+ dq)
           None ;;
      unlinkQuiet wavPath
    else ret tt.

Definition silenceCommand (duration : Z) (outputPath : string) : string :=
  "ffmpeg -f lavfi -i anullsrc=r=44100:cl=stereo -t " +:+ toString duration
    +:+ " -c:a libmp3lame -qscale:a 2 " +:+ dq +:+ outputPath +:+ dq.

Definition createFallbackAudio (duration : Z) (outputPath : string)
  : M unit :=
  exec (silenceCommand duration outputPath) None.

Definition generateVoice (scr : GeneratedScript) : M string :=
  let outputPath := pathJoin [outputDir this; id scr +:+ "_voice.mp3"] in
  tryCatch
    (generateWithFFmpegTTS scr outputPath ;;
     size <- statSize outputPath ;;
     if size =? 0
     then throw (JsError "Generated voice file is empty")
     else ret outputPath)
    (fun error =>
       createFallbackAudio (estimatedDuration scr) outputPath ;;
       ret outputPath).

(** The path of the narration file. *)
Definition voicePathOf (scr : GeneratedScript) : string :=
  pathJoin [outputDir this; id scr +:+ "_voice.mp3"].

(** The call that makes the silent stand-in. *)
Definition silenceCall (scr : GeneratedScript) : Call :=
  Ladder.plain (silenceCommand (estimatedDuration scr) (voicePathOf scr)).

(** The narration file is there and not empty. *)
Definition hasVoice (scr : GeneratedScript) (w : World) : Prop :=
  exists content,
    files w !! voicePathOf scr = Some content /\ 0 < len content.

End Methods.

End Voice.

Module VoiceExamples.
Import Js Script Sys Examples.

Definition linuxVoice : Voice.VoiceGenerator :=
  {| Voice.outputDir := "out"; Voice.assetsDir := "assets";
     Voice.platform := "linux" |}.

Definition windowsVoice : Voice.VoiceGenerator :=
  {| Voice.outputDir := "out"; Voice.assetsDir := "assets";
     Voice.platform := "win32" |}.

(** The speech engine and the encoder both work. *)
Definition speechWell : Behaviour :=
  fun cmd =>
    if startsWith "espeak" cmd then (None, [("out/run_temp.wav", "WAV")])
    else (None, [("out/run_voice.mp3", "MP3")]).

(** There is no speech engine; the encoder makes silence. *)
Definition noSpeech : Behaviour :=
  fun cmd =>
    if startsWith "ffmpeg -f lavfi" cmd
    then (None, [("out/run_voice.mp3", "MP3")])
    else (Some CommandNotFound, []).

End VoiceExamples.

(* ===================================================================== *)
(** * Properties *)
(* ===================================================================== *)

Import Js Script Sys.

(** ** Arithmetic of the narration rate *)

Lemma ceilDiv_rate (n : Z) : ceilDiv n 2.5%Q = (2 * n + 4) / 5.
Proof.
  unfold ceilDiv.
  assert (E : (inject_Z n / 2.5 == (2 * n) # 5)%Q).
  { unfold Qeq, Qdiv, Qmult, Qinv, inject_Z. simpl. lia. }
  rewrite E. unfold Qceiling, Qfloor, Qopp. simpl Qnum. simpl Qden.
  pose proof (Z.div_mod (2 * n + 4) 5 ltac:(lia)) as D1.
  pose proof (Z.mod_pos_bound (2 * n + 4) 5 ltac:(lia)) as B1.
  pose proof (Z.div_mod (- (2 * n)) 5 ltac:(lia)) as D2.
  pose proof (Z.mod_pos_bound (- (2 * n)) 5 ltac:(lia)) as B2.
  lia.
Qed.

Lemma splitCount_pos (s : string) : 1 <= splitCount s.
Proof.
  unfold splitCount.
  assert (List.length (split space s) <> 0)%nat; [| lia].
  induction s as [| c s IH]; simpl; [lia |].
  destruct (Ascii.eqb c space); simpl; [lia |].
  destruct (split space s); simpl; lia.
Qed.

(** ** The schedule of narration segments *)

Section Schedule.
Import Timeline.

Lemma fold_pushSegment (pieces : list Piece) :
  forall segs t,
    fold_left pushSegment pieces (segs, t)
    = (segs ++ scheduleFrom t pieces, endFrom t pieces).
Proof.
  induction pieces as [| [[ty txt] hint] rest IH]; intros segs t; simpl.
  - by rewrite app_nil_r.
  - rewrite IH, <- app_assoc. reflexivity.
Qed.

Lemma layOut_schedule (pieces : list Piece) :
  layOut pieces = (scheduleFrom 0 pieces, endFrom 0 pieces).
Proof. unfold layOut. by rewrite fold_pushSegment. Qed.

Lemma scheduleFrom_chained (pieces : list Piece) :
  forall t, chained t (scheduleFrom t pieces) (endFrom t pieces).
Proof.
  induction pieces as [| [[ty txt] hint] rest IH]; intros t; simpl.
  - reflexivity.
  - split; [reflexivity | apply IH].
Qed.

Lemma scheduleFrom_length (pieces : list Piece) :
  forall t, List.length (scheduleFrom t pieces) = List.length pieces.
Proof.
  induction pieces as [| [[ty txt] hint] rest IH]; intros t; simpl;
    [reflexivity | by rewrite IH].
Qed.

Lemma scheduleFrom_lookup (pieces : list Piece) :
  forall t i seg,
    scheduleFrom t pieces !! i = Some seg ->
    exists ty txt hint,
      pieces !! i = Some (ty, txt, hint)
      /\ type seg = ty /\ text seg = txt /\ visualHint seg = hint
      /\ duration seg = calculateSegmentDuration (splitCount txt)
      /\ endTime seg = startTime seg + duration seg.
Proof.
  induction pieces as [| [[ty txt] hint] rest IH]; intros t i seg Hi.
  - destruct i; discriminate.
  - destruct i as [| i]; simpl in Hi.
    + injection Hi as <-. exists ty, txt, hint. simpl.
      repeat split; reflexivity.
    + apply (IH _ _ _ Hi).
Qed.

Lemma chained_first t segs total seg :
  chained t segs total -> segs !! 0%nat = Some seg -> startTime seg = t.
Proof.
  destruct segs as [| s rest]; [discriminate |].
  simpl. intros [Hs _] [= <-]. exact Hs.
Qed.

Lemma chained_adjacent segs :
  forall t total i a b,
    chained t segs total ->
    segs !! i = Some a -> segs !! S i = Some b ->
    endTime a = startTime b.
Proof.
  induction segs as [| s rest IH]; intros t total i a b Hc Ha Hb.
  - destruct i; discriminate.
  - destruct Hc as [_ Hc]. destruct i as [| i]; simpl in Ha, Hb.
    + injection Ha as <-. symmetry. exact (chained_first _ _ _ _ Hc Hb).
    + exact (IH _ _ _ _ _ Hc Ha Hb).
Qed.

Lemma chained_last segs :
  forall t total z,
    chained t segs total -> last segs = Some z -> endTime z = total.
Proof.
  induction segs as [| s rest IH]; intros t total z Hc Hz.
  - discriminate.
  - destruct Hc as [_ Hc]. destruct rest as [| s' rest'].
    + simpl in Hz, Hc. congruence.
    + apply (IH _ _ _ Hc). exact Hz.
Qed.

Lemma generateScript_layOut (a : Ambient) (t : ScoredTopic) :
  (segments (generateScript a t), estimatedDuration (generateScript a t))
  = layOut (scriptPieces a t).
Proof. reflexivity. Qed.

End Schedule.

(** C1 at the script for the topic [x], with the first hook and the
    first call to action: the code times the context segment by the 42
    pieces of [text.split(' ')] and gives it 17 seconds, where
    whitespace tokenization finds 36 words, for which [ceil(36 / 2.5)]
    is 15 seconds.  The six extra pieces are the empty strings between
    the spaces that indent the second and third line of the template;
    the line breaks themselves separate nothing. *)
Lemma C1_whitespace_count_differs :
  exists seg,
    segments (generateScript
                {| hookDraw := 0; ctaDraw := 0; uuid := "run"; today := 0 |}
                {| query := "x"; category := "Technology" |}) !! 1%nat
    = Some seg
    /\ Timeline.whitespaceWordCount (text seg) = 36
    /\ ceilDiv (Timeline.whitespaceWordCount (text seg)) 2.5%Q = 15
    /\ splitCount (text seg) = 42
    /\ duration seg = 17
    /\ duration seg <> ceilDiv (Timeline.whitespaceWordCount (text seg)) 2.5%Q.
Proof.
  eexists. split; [reflexivity |].
  repeat split; try (vm_compute; reflexivity).
  vm_compute. discriminate.
Qed.

(** ** Strings *)

Lemma append_cons (x : ascii) (a b : string) :
  String x a +:+ b = String x (a +:+ b).
Proof. reflexivity. Qed.

Lemma append_assoc (a b c : string) : (a +:+ b) +:+ c = a +:+ (b +:+ c).
Proof.
  induction a as [| x a IH]; [reflexivity |].
  by rewrite !append_cons, IH.
Qed.

Lemma append_nil_r (a : string) : a +:+ EmptyString = a.
Proof.
  induction a as [| x a IH]; [reflexivity |]. by rewrite append_cons, IH.
Qed.

Lemma length_append (a b : string) :
  String.length (a +:+ b) = (String.length a + String.length b)%nat.
Proof.
  induction a as [| x a IH]; [reflexivity |].
  rewrite append_cons. simpl. by rewrite IH.
Qed.

Lemma length_substring0 (n : nat) (s : string) :
  String.length (substring0 n s) = Nat.min n (String.length s).
Proof.
  unfold substring0. revert s.
  induction n as [| n IH]; intros [| c s]; simpl; try reflexivity.
  by rewrite IH.
Qed.

Lemma substring0_all (n : nat) (s : string) :
  (String.length s <= n)%nat -> substring0 n s = s.
Proof.
  unfold substring0. revert s.
  induction n as [| n IH]; intros [| c s]; simpl; intros Hl;
    try reflexivity; try lia.
  rewrite IH; [reflexivity | lia].
Qed.

(** A boolean property checked on every integer below [k]. *)
Lemma checked_below (P : Z -> bool) (k : nat) :
  forallb P (map Z.of_nat (seq 0 k)) = true ->
  forall n, 0 <= n < Z.of_nat k -> P n = true.
Proof.
  intros Hall n Hn.
  rewrite forallb_forall in Hall. apply Hall.
  apply in_map_iff. exists (Z.to_nat n). split; [lia |].
  apply in_seq. lia.
Qed.

(** ** The caption track *)

Section CaptionTrack.
Import Video Captions.

Lemma pad2_twoDigits (n : Z) :
  0 <= n < 100 -> twoDigits (padStart 2 "0" (toString n)) = true.
Proof.
  apply (checked_below
           (fun n => twoDigits (padStart 2 "0" (toString n))) 100).
  vm_compute. reflexivity.
Qed.

Lemma isTimestamp_fields (a b c : string) :
  twoDigits a = true -> twoDigits b = true -> twoDigits c = true ->
  isTimestamp (a +:+ ":" +:+ b +:+ ":" +:+ c +:+ "," +:+ "000") = true.
Proof.
  destruct a as [| a1 [| a2 [| ? ?]]]; try discriminate.
  destruct b as [| b1 [| b2 [| ? ?]]]; try discriminate.
  destruct c as [| c1 [| c2 [| ? ?]]]; try discriminate.
  cbn [twoDigits]. intros Ha Hb Hc.
  apply andb_prop in Ha as [Ha1 Ha2].
  apply andb_prop in Hb as [Hb1 Hb2].
  apply andb_prop in Hc as [Hc1 Hc2].
  cbv [String.append isTimestamp].
  rewrite Ha1, Ha2, Hb1, Hb2, Hc1, Hc2. reflexivity.
Qed.

Lemma string_of_uint_digits (d : Decimal.uint) :
  allDigits (NilEmpty.string_of_uint d) = true.
Proof. induction d; simpl; auto. Qed.

Lemma toString_digits (n : Z) : 0 <= n -> allDigits (toString n) = true.
Proof.
  intros Hn. unfold toString. destruct n as [| p | p]; [reflexivity | | lia].
  apply string_of_uint_digits.
Qed.

Lemma padStart_digits (k : nat) (s : string) :
  allDigits s = true -> allDigits (padStart k "0" s) = true.
Proof.
  intros Hs. unfold padStart.
  induction (k - String.length s)%nat as [| m IH]; [exact Hs |].
  cbn [repeatChar]. rewrite append_cons. cbn [allDigits]. by rewrite IH.
Qed.

Lemma padStart_length (k : nat) (c : ascii) (s : string) :
  String.length (padStart k c s) = Nat.max k (String.length s).
Proof.
  unfold padStart. rewrite length_append.
  assert (Hr : forall m, String.length (repeatChar c m) = m).
  { induction m as [| m IH]; simpl; [reflexivity | by rewrite IH]. }
  rewrite Hr. lia.
Qed.

Lemma formatTime_shape (s : Z) :
  0 <= s < 360000 -> isTimestamp (formatTime s) = true.
Proof.
  intros Hs. unfold formatTime.
  rewrite Z.rem_1_r.
  change (padStart 3 "0" (toString (0 * 1000))) with "000".
  pose proof (Z.rem_bound_pos s 3600 ltac:(lia) ltac:(lia)).
  pose proof (Z.rem_bound_pos s 60 ltac:(lia) ltac:(lia)).
  apply isTimestamp_fields; apply pad2_twoDigits.
  - split; [apply Z.div_pos; lia | apply Z.div_lt_upper_bound; lia].
  - split; [apply Z.div_pos; lia | apply Z.div_lt_upper_bound; lia].
  - lia.
Qed.

Lemma fold_captionStep (segs : list ScriptSegment) :
  forall acc k,
    fold_left captionStep segs (acc, k)
    = (acc +:+ Js.concat (map cueBlock (cuesFrom k segs)),
       k + Z.of_nat (List.length segs)).
Proof.
  induction segs as [| s rest IH]; intros acc k.
  - cbn. rewrite append_nil_r. f_equal. lia.
  - cbn [fold_left captionStep]. rewrite IH.
    cbn [cuesFrom map Js.concat fold_right List.length].
    f_equal; [| lia].
    unfold cueBlock. cbn [index startOffsetSeconds endOffsetSeconds cueText].
    fold (Js.concat (map cueBlock (cuesFrom (k + 1) rest))).
    by rewrite !append_assoc.
Qed.

Lemma captionsDocument_cues (segs : list ScriptSegment) :
  captionsDocument segs = Js.concat (map cueBlock (cuesOf segs)).
Proof. unfold captionsDocument. by rewrite fold_captionStep. Qed.

Lemma cuesFrom_lookup (segs : list ScriptSegment) :
  forall k i seg,
    segs !! i = Some seg ->
    cuesFrom k segs !! i
    = Some {| index := k + Z.of_nat i; startOffsetSeconds := startTime seg;
              endOffsetSeconds := endTime seg; cueText := text seg |}.
Proof.
  induction segs as [| s rest IH]; intros k i seg Hi.
  - destruct i; discriminate.
  - destruct i as [| i]; simpl in Hi.
    + injection Hi as <-. cbn. do 2 f_equal. lia.
    + cbn [cuesFrom]. change ((?x :: ?l) !! S i) with (l !! i).
      rewrite (IH _ _ _ Hi). do 2 f_equal. lia.
Qed.

Lemma cuesFrom_length (segs : list ScriptSegment) :
  forall k, List.length (cuesFrom k segs) = List.length segs.
Proof.
  induction segs as [| s rest IH]; intros k; simpl;
    [reflexivity | by rewrite IH].
Qed.

End CaptionTrack.

(** ** The render graph *)

Section GraphClosedForm.
Import Video RenderGraph.

Lemma fold_inputStep (assets : list string) :
  forall m k g,
    (k + m)%nat = List.length assets ->
    fold_left (inputStep assets (map (fun _ => 2) assets)) (seq k m) g
    = {| inputs :=
           inputs g +:+ Js.concat (map (imageInput 2) (drop k assets));
         filterComplex :=
           filterComplex g +:+ Js.concat (map setptsStage (seq k m));
         filterCount := filterCount g + Z.of_nat m |}.
Proof.
  induction m as [| m IH]; intros k g Hk.
  - rewrite drop_ge by lia. cbn. rewrite !append_nil_r, Z.add_0_r.
    by destruct g.
  - assert (Hlt : (k < List.length assets)%nat) by lia.
    destruct (lookup_lt_is_Some_2 assets k Hlt) as [a Ha].
    cbn [seq fold_left]. rewrite IH by lia.
    rewrite (drop_S _ _ _ Ha).
    unfold inputStep at 1 2 3.
    cbn [inputs filterComplex filterCount map Js.concat fold_right].
    rewrite list_lookup_fmap, Ha. cbn [fmap option_fmap option_map default].
    f_equal.
    + unfold imageInput. by rewrite !append_assoc.
    + unfold setptsStage. by rewrite !append_assoc.
    + lia.
Qed.

Lemma fold_concatStep :
  forall m k acc,
    fold_left concatStep (seq k m) acc
    = acc +:+ Js.concat (map concatLabel (seq k m)).
Proof.
  induction m as [| m IH]; intros k acc.
  - cbn. by rewrite append_nil_r.
  - cbn [seq fold_left]. rewrite IH.
    cbn [map Js.concat fold_right]. unfold concatStep, concatLabel.
    by rewrite !append_assoc.
Qed.

End GraphClosedForm.

Section GraphCompilation.
Import Video RenderGraph.
Context `{Platform}.
Variable this : VideoGenerator.

Lemma ffmpegCommand_ext (g1 g2 : Graph) (o : RenderOptions) :
  inputs g1 = inputs g2 -> filterComplex g1 = filterComplex g2 ->
  ffmpegCommand g1 o = ffmpegCommand g2 o.
Proof. unfold ffmpegCommand. by intros -> ->. Qed.

(** [renderWithFFmpeg] compiles the closed-form graph, never rejects
    while doing so, and leaves the world as it found it. *)
Lemma compileGraph_closed (o : RenderOptions) (w : World) :
  compileGraph this o w = (Ok (commandOf (musicIn this w) o), w).
Proof.
  unfold compileGraph, commandOf, musicIn.
  rewrite fold_inputStep by lia. rewrite fold_concatStep.
  unfold bind, tryCatch, access, ret. rewrite drop_0.
  cbn [inputs filterComplex filterCount].
  destruct (files w !! musicPath this) as [content |];
    (f_equal; f_equal; apply ffmpegCommand_ext;
     cbn [inputs filterComplex graphOf];
     unfold audioInput, concatStage;
     rewrite ?append_assoc; reflexivity).
Qed.

Lemma prepareFrom_paths (scr : GeneratedScript)
    (rest : list ScriptSegment) :
  forall i acc w assets w',
    prepareFrom this scr i rest acc w = (Ok assets, w') ->
    assets = acc ++ map (assetPathOf this scr) (seq i (List.length rest)).
Proof.
  induction rest as [| segment rest IH]; intros i acc w assets w' Hrun.
  - cbn in Hrun. injection Hrun as <- _. by rewrite app_nil_r.
  - cbn [prepareFrom] in Hrun. unfold bind at 1 in Hrun.
    destruct (createSegmentImage segment _ i w) as [[[] | e] w1];
      [| discriminate].
    apply IH in Hrun. rewrite Hrun, <- app_assoc. reflexivity.
Qed.

Lemma renderWithFFmpeg_run (o : RenderOptions) (w : World) :
  renderWithFFmpeg this o w
  = exec (commandOf (musicIn this w) o) (Some renderTimeout) w.
Proof. unfold renderWithFFmpeg, bind. by rewrite compileGraph_closed. Qed.

End GraphCompilation.

(** Unfolds the closed form of the graph down to the text of the
    command and compares. *)
Ltac command_text :=
  unfold RenderGraph.commandOf, Video.ffmpegCommand, RenderGraph.graphOf,
    RenderGraph.imageInput, RenderGraph.audioInput, RenderGraph.setptsStage,
    RenderGraph.concatStage, RenderGraph.concatLabel, Video.mixFilter,
    Video.soloFilter, Video.subtitlesFilter;
  cbn [Video.inputs Video.filterComplex];
  rewrite ?append_assoc; reflexivity.

Section RenderGraphClaims.
Import Video RenderGraph.
Context `{Platform}.

Lemma musicIn_presence (this : VideoGenerator) (w1 w2 : World) :
  (is_Some (files w1 !! musicPath this)
   <-> is_Some (files w2 !! musicPath this)) ->
  musicIn this w1 = musicIn this w2.
Proof.
  intros Hmusic. unfold musicIn.
  destruct (files w1 !! musicPath this) as [c1 |] eqn:E1,
           (files w2 !! musicPath this) as [c2 |] eqn:E2;
    try reflexivity.
  - destruct Hmusic as [Hx _]. destruct (Hx (ex_intro _ c1 eq_refl)).
    discriminate.
  - destruct Hmusic as [_ Hx]. destruct (Hx (ex_intro _ c2 eq_refl)).
    discriminate.
Qed.

Lemma commandOf_sameRequest (music : option string) (o o' : RenderOptions) :
  sameRequest o o' -> commandOf music o' = commandOf music o.
Proof.
  intros (Hv & Ha & Hc & Hp & Hr & Hf).
  unfold commandOf, ffmpegCommand, graphOf. cbn [inputs filterComplex].
  by rewrite Hv, Ha, Hc, Hp, Hr, Hf.
Qed.

(** C4: the command that [renderWithFFmpeg] compiles and runs is,
    letter by letter: [ffmpeg]; for every visual asset, in the order of
    the asset list, one input [-loop 1 -t 2 -i "asset"], a still image
    shown for exactly 2 seconds; the narration and, if it is there, the
    music as further inputs; then the filter graph, which resets the
    time stamps of each of the [n] video inputs, joins [v0 .. v(n-1)] in
    that order with [concat=n=n] into [outv], treats the audio, and as
    its last stage burns the captions into [outv] with the fixed
    Arial / 24 / white style, giving [finalv], the stream that is
    mapped to the output.  The [duration] handed over with the request
    occurs nowhere in it: a request that differs only in its duration
    compiles to the same command.  And the assets that [prepareAssets]
    hands over are the images of segments [0 .. n-1], in that order. *)
Theorem C4_uniform_slots_and_final_burn_in :
  forall (this : VideoGenerator) (o : RenderOptions) (w : World),
    let n := List.length (r_assets o) in
    let number := fun i : nat => toString (Z.of_nat i) in
    let images :=
      Js.concat
        (map (fun asset => "-loop 1 -t 2 -i " +:+ dq +:+ asset +:+ dq +:+ " ")
             (r_assets o)) in
    let narration := "-i " +:+ dq +:+ r_voiceoverPath o +:+ dq +:+ " " in
    let music :=
      match files w !! musicPath this with
      | Some _ => "-i " +:+ dq +:+ musicPath this +:+ dq +:+ " "
      | None => EmptyString
      end in
    let resets :=
      Js.concat
        (map (fun i => "[" +:+ number i +:+ ":v]setpts=PTS-STARTPTS[v"
                         +:+ number i +:+ "];")
             (seq 0 n)) in
    let joined :=
      Js.concat (map (fun i => "[v" +:+ number i +:+ "]") (seq 0 n))
        +:+ "concat=n=" +:+ number n +:+ ":v=1:a=0[outv];" in
    let audio :=
      match files w !! musicPath this with
      | Some _ =>
          ";[" +:+ number n +:+ ":a]volume=0.3[music];["
            +:+ toString (Z.of_nat n + 1)
            +:+ ":a]volume=0.1[bg];[music][bg]amix=inputs=2:duration=longest[aout]"
      | None => "[" +:+ number n +:+ ":a]volume=1.0[aout]"
      end in
    let burnIn :=
      ";[outv]subtitles='" +:+ replaceQuote "'\''" (r_captionsPath o)
        +:+ "':force_style='FontName=Arial,FontSize=24,PrimaryColour=&HFFFFFF&'[finalv]" in
    let commandText :=
      "ffmpeg " +:+ images +:+ narration +:+ music +:+ " "
        +:+ "      -filter_complex " +:+ dq
        +:+ resets +:+ joined +:+ audio +:+ burnIn +:+ dq +:+ " "
        +:+ "      -map " +:+ dq +:+ "[finalv]" +:+ dq
        +:+ " -map " +:+ dq +:+ "[aout]" +:+ dq +:+ " "
        +:+ "      -c:v libx264 -preset medium -crf 23 "
        +:+ "      -c:a aac -b:a 192k "
        +:+ "      -r " +:+ toString (r_framerate o)
        +:+ " -s " +:+ toString (fst (r_resolution o)) +:+ "x"
        +:+ toString (snd (r_resolution o)) +:+ " "
        +:+ "      -pix_fmt yuv420p "
        +:+ "      -shortest "
        +:+ "      -y " +:+ dq +:+ r_outputPath o +:+ dq in
    compileGraph this o w = (Ok commandText, w)
    /\ calls (snd (renderWithFFmpeg this o w))
       = calls w ++ [ {| command := commandText; timeout := Some renderTimeout |} ]
    /\ (forall o' w',
          sameRequest o o' ->
          (is_Some (files w' !! musicPath this)
           <-> is_Some (files w !! musicPath this)) ->
          fst (compileGraph this o' w') = Ok commandText)
    /\ (forall scr w0 assets w1,
          prepareAssets this scr w0 = (Ok assets, w1) ->
          assets
          = map (fun i => pathJoin [ outputDir this;
                                     id scr +:+ "_segment_" +:+ number i
                                       +:+ ".png" ])
                (seq 0 (List.length (segments scr)))).
Proof.
  intros this o w n number images narration music resets joined audio
    burnIn commandText.
  assert (Htext : commandOf (musicIn this w) o = commandText).
  { unfold commandText, images, narration, music, resets, joined, audio, burnIn,
      number, musicIn. fold n.
    destruct (files w !! musicPath this); command_text. }
  split; [by rewrite compileGraph_closed, Htext |].
  split.
  { rewrite renderWithFFmpeg_run, Htext. unfold exec.
    by destruct (failure _). }
  split.
  - intros o' w' Hsame Hm.
    rewrite compileGraph_closed. cbn [fst]. f_equal.
    by rewrite (musicIn_presence _ _ _ Hm), (commandOf_sameRequest _ _ _ Hsame).
  - intros scr w0 assets w1 Hrun.
    apply (prepareFrom_paths this scr _ 0%nat [] w0 assets w1 Hrun).
Qed.

(** C5: two compilations whose requests agree on the asset list, the
    narration path, the caption path, the output path, the resolution
    and the frame rate, run in two worlds that agree on whether the
    background music is there, give the same graph (inputs, filter
    stages) and the same command, and hand the same call to the
    renderer, whatever else differs between the worlds. *)
Theorem C5_compilation_is_deterministic :
  forall (this : VideoGenerator) (o1 o2 : RenderOptions) (w1 w2 : World),
    sameRequest o1 o2 ->
    (is_Some (files w1 !! musicPath this)
     <-> is_Some (files w2 !! musicPath this)) ->
    graphOf (musicIn this w1) o1 = graphOf (musicIn this w2) o2
    /\ fst (compileGraph this o1 w1) = fst (compileGraph this o2 w2)
    /\ exists call,
         calls (snd (renderWithFFmpeg this o1 w1)) = calls w1 ++ [call]
         /\ calls (snd (renderWithFFmpeg this o2 w2)) = calls w2 ++ [call].
Proof.
  intros this o1 o2 w1 w2 (Hv & Ha & Hc & Hp & Hr & Hf) Hmusic.
  assert (Hm : musicIn this w1 = musicIn this w2).
  { unfold musicIn.
    destruct (files w1 !! musicPath this) as [c1 |] eqn:E1,
             (files w2 !! musicPath this) as [c2 |] eqn:E2;
      try reflexivity.
    - destruct Hmusic as [Hx _]. destruct (Hx (ex_intro _ c1 eq_refl)).
      discriminate.
    - destruct Hmusic as [_ Hx]. destruct (Hx (ex_intro _ c2 eq_refl)).
      discriminate. }
  assert (Hg : graphOf (musicIn this w1) o1 = graphOf (musicIn this w2) o2).
  { unfold graphOf. by rewrite Hm, Hv, Ha, Hc. }
  assert (Hcmd : commandOf (musicIn this w1) o1
                 = commandOf (musicIn this w2) o2).
  { unfold commandOf, ffmpegCommand. by rewrite Hg, Hp, Hr, Hf. }
  split; [exact Hg |].
  split; [by rewrite !compileGraph_closed, Hcmd |].
  exists {| command := commandOf (musicIn this w2) o2;
            timeout := Some renderTimeout |}.
  rewrite !renderWithFFmpeg_run, Hcmd. unfold exec.
  split.
  - by destruct (failure (run _ w1)).
  - by destruct (failure (run _ w2)).
Qed.

End RenderGraphClaims.

(** C5 at two requests that differ in their duration, in two worlds
    without background music that share nothing else. *)
Lemma C5_witness :
  let P := Examples.scripted Examples.allWell in
  RenderGraph.graphOf
    (@RenderGraph.musicIn P Examples.video Examples.emptyWorld)
    Examples.requestA
  = RenderGraph.graphOf
      (@RenderGraph.musicIn P Examples.video Examples.busyWorld)
      Examples.requestB
  /\ fst (@Video.compileGraph P Examples.video Examples.requestA
            Examples.emptyWorld)
     = fst (@Video.compileGraph P Examples.video Examples.requestB
              Examples.busyWorld)
  /\ exists call,
       calls (snd (@Video.renderWithFFmpeg P Examples.video
                     Examples.requestA Examples.emptyWorld))
       = calls Examples.emptyWorld ++ [call]
       /\ calls (snd (@Video.renderWithFFmpeg P Examples.video
                        Examples.requestB Examples.busyWorld))
          = calls Examples.busyWorld ++ [call].
Proof.
  apply (@C5_compilation_is_deterministic
           (Examples.scripted Examples.allWell) Examples.video
           Examples.requestA Examples.requestB
           Examples.emptyWorld Examples.busyWorld).
  - repeat split; reflexivity.
  - split; intros [c Hc]; vm_compute in Hc; discriminate.
Defined.

Section AudioMix.
Import Video RenderGraph.
Context `{Platform}.

(** C7: when the background music is at [assetsDir/music/background.mp3]
    the command that is compiled takes it as the input after the
    narration, sets the narration (input [n]) to volume 0.3 and the music
    (input [n + 1]) to volume 0.1, which is strictly lower, and joins
    the two with [amix] and [duration=longest]; when the file is not
    there the compilation still succeeds, and the command has the
    narration as its only audio input and passes it at volume 1.0. *)
Theorem C7_audio_mix_plan :
  forall (this : VideoGenerator) (o : RenderOptions) (w : World),
    let n := List.length (r_assets o) in
    let number := fun i : nat => toString (Z.of_nat i) in
    let narrationLevel := "0.3" in
    let musicLevel := "0.1" in
    let soloLevel := "1.0" in
    let narration := "-i " +:+ dq +:+ r_voiceoverPath o +:+ dq +:+ " " in
    let music := "-i " +:+ dq +:+ musicPath this +:+ dq +:+ " " in
    let mix :=
      ";[" +:+ number n +:+ ":a]volume=" +:+ narrationLevel +:+ "[music]"
        +:+ ";[" +:+ toString (Z.of_nat n + 1) +:+ ":a]volume="
        +:+ musicLevel +:+ "[bg]"
        +:+ ";[music][bg]amix=inputs=2:duration=longest[aout]" in
    let solo :=
      "[" +:+ number n +:+ ":a]volume=" +:+ soloLevel +:+ "[aout]" in
    let commandText := fun audioInputs audioStage : string =>
      "ffmpeg "
        +:+ Js.concat
              (map (fun asset =>
                      "-loop 1 -t 2 -i " +:+ dq +:+ asset +:+ dq +:+ " ")
                   (r_assets o))
        +:+ audioInputs +:+ " "
        +:+ "      -filter_complex " +:+ dq
        +:+ Js.concat
              (map (fun i => "[" +:+ number i +:+ ":v]setpts=PTS-STARTPTS[v"
                               +:+ number i +:+ "];")
                   (seq 0 n))
        +:+ Js.concat (map (fun i => "[v" +:+ number i +:+ "]") (seq 0 n))
        +:+ "concat=n=" +:+ number n +:+ ":v=1:a=0[outv];"
        +:+ audioStage
        +:+ ";[outv]subtitles='" +:+ replaceQuote "'\''" (r_captionsPath o)
        +:+ "':force_style='FontName=Arial,FontSize=24,PrimaryColour=&HFFFFFF&'[finalv]"
        +:+ dq +:+ " "
        +:+ "      -map " +:+ dq +:+ "[finalv]" +:+ dq
        +:+ " -map " +:+ dq +:+ "[aout]" +:+ dq +:+ " "
        +:+ "      -c:v libx264 -preset medium -crf 23 "
        +:+ "      -c:a aac -b:a 192k "
        +:+ "      -r " +:+ toString (r_framerate o)
        +:+ " -s " +:+ toString (fst (r_resolution o)) +:+ "x"
        +:+ toString (snd (r_resolution o)) +:+ " "
        +:+ "      -pix_fmt yuv420p "
        +:+ "      -shortest "
        +:+ "      -y " +:+ dq +:+ r_outputPath o +:+ dq in
    (forall content,
       files w !! musicPath this = Some content ->
       compileGraph this o w = (Ok (commandText (narration +:+ music) mix), w))
    /\ (files w !! musicPath this = None ->
        compileGraph this o w = (Ok (commandText narration solo), w))
    /\ musicPath this = pathJoin [assetsDir this; "music"; "background.mp3"]
    /\ (exists a b c : Q,
          decimalValue narrationLevel = Some a
          /\ decimalValue musicLevel = Some b
          /\ decimalValue soloLevel = Some c
          /\ (b < a)%Q /\ (a < c)%Q /\ (c == 1)%Q).
Proof.
  intros this o w n number narrationLevel musicLevel soloLevel narration
    music mix solo commandText.
  split; [| split; [| split; [reflexivity |]]].
  - intros content Hc. rewrite compileGraph_closed.
    unfold musicIn. rewrite Hc. f_equal. f_equal.
    unfold commandText, narration, music, mix, solo, number, narrationLevel,
      musicLevel. fold n. command_text.
  - intros Hc. rewrite compileGraph_closed.
    unfold musicIn. rewrite Hc. f_equal. f_equal.
    unfold commandText, narration, solo, number, soloLevel. fold n. command_text.
  - eexists _, _, _.
    repeat split; try (vm_compute; reflexivity).
Qed.

End AudioMix.

(** ** Video generation: the renderer's failures are terminal *)

Section RenderFailure.
Import Video RenderGraph.
Context `{Platform}.

Lemma generateVideo_after (this : VideoGenerator)
    (options : VideoGenerationOptions) (w w1 : World)
    (assets : list string) (captionsPath : string) :
  beforeRender this (script options) w = (Ok (assets, captionsPath), w1) ->
  generateVideo this options w
  = tryCatch
      (exec (commandOf (musicIn this w1)
               (requestOf this options assets captionsPath))
            (Some renderTimeout) ;;
       size <- statSize (videoPathOf this (script options)) ;;
       if size =? 0
       then throw (JsError "Generated video file is empty")
       else ret (videoPathOf this (script options)))%prog
      (fun error => throw error) w1.
Proof.
  intros Hpre. unfold beforeRender, bind in Hpre.
  unfold generateVideo, tryCatch, bind.
  destruct (prepareAssets this (script options) w)
    as [[a | e] wa]; [| discriminate].
  destruct (generateCaptions this (script options) (id (script options)) wa)
    as [[c | e] wc]; [| discriminate].
  unfold ret in Hpre. injection Hpre as -> -> ->.
  rewrite renderWithFFmpeg_run. reflexivity.
Qed.

Lemma generateVideo_resolves (this : VideoGenerator)
    (options : VideoGenerationOptions) (w w2 : World) (p : string) :
  generateVideo this options w = (Ok p, w2) ->
  p = videoPathOf this (script options)
  /\ exists content, files w2 !! p = Some content /\ 0 < len content.
Proof.
  unfold generateVideo, tryCatch, bind.
  destruct (prepareAssets this (script options) w)
    as [[a | e] wa]; [| discriminate].
  destruct (generateCaptions this (script options) (id (script options)) wa)
    as [[c | e] wc]; [| discriminate].
  destruct (renderWithFFmpeg this _ wc) as [[[] | e] wr]; [| discriminate].
  unfold statSize.
  destruct (files wr !! pathJoin [outputDir this; _]) as [content |] eqn:E;
    [| discriminate].
  destruct (len content =? 0) eqn:Hz; [discriminate |].
  unfold ret. intros [= <- <-].
  split; [reflexivity |].
  exists content. split; [exact E |].
  apply Z.eqb_neq in Hz. unfold len in *. lia.
Qed.

(** C3: once the assets and the caption file are there, the renderer is
    called exactly once, with a timeout of 300 seconds; if that call
    fails in any way, running out of time included, [generateVideo]
    rejects with that very failure and calls nothing afterwards; if the
    call reports success but the video file has zero bytes,
    [generateVideo] rejects as well, again without another call; and
    whenever [generateVideo] resolves, the path it returns is that of a
    file of non-zero size. *)
Theorem C3_render_failure_is_terminal :
  forall (this : VideoGenerator) (options : VideoGenerationOptions)
         (w w1 : World) (assets : list string) (captionsPath : string),
    beforeRender this (script options) w
      = (Ok (assets, captionsPath), w1) ->
    let call :=
      {| command := commandOf (musicIn this w1)
                      (requestOf this options assets captionsPath);
         timeout := Some (300 * 1000) |} in
    let out := run call w1 in
    let outputPath := videoPathOf this (script options) in
    (forall why,
       failure out = Some why ->
       exists w2,
         generateVideo this options w
           = (Throw (ExecError (command call) why), w2)
         /\ calls w2 = calls w1 ++ [call])
    /\ (failure out = None ->
        filesAfter out !! outputPath = Some EmptyString ->
        exists w2,
          generateVideo this options w
            = (Throw (JsError "Generated video file is empty"), w2)
          /\ calls w2 = calls w1 ++ [call])
    /\ (forall p w2,
          generateVideo this options w = (Ok p, w2) ->
          failure out = None /\ calls w2 = calls w1 ++ [call])
    /\ (forall options' w' p w2,
          generateVideo this options' w' = (Ok p, w2) ->
          p = videoPathOf this (script options')
          /\ exists content,
               files w2 !! p = Some content /\ 0 < len content).
Proof.
  intros this options w w1 assets captionsPath Hpre call out outputPath.
  pose proof (generateVideo_after _ _ _ _ _ _ Hpre) as Hgen.
  change (Some renderTimeout) with (timeout call) in Hgen.
  change (commandOf _ _) with (command call) in Hgen.
  unfold tryCatch, bind, exec in Hgen.
  change {| command := command call; timeout := timeout call |}
    with call in Hgen.
  fold out in Hgen. fold outputPath in Hgen.
  split; [| split; [| split]].
  - intros why Hwhy. rewrite Hwhy in Hgen.
    eexists. split; [exact Hgen | reflexivity].
  - intros Hok Hempty. rewrite Hok in Hgen.
    unfold statSize in Hgen. cbn [files] in Hgen.
    rewrite Hempty in Hgen. cbn in Hgen.
    eexists. split; [exact Hgen | reflexivity].
  - intros p w2 Hres. rewrite Hgen in Hres.
    destruct (failure out) as [why |]; [discriminate |].
    split; [reflexivity |].
    unfold statSize in Hres. cbn [files] in Hres.
    destruct (filesAfter out !! outputPath) as [content |];
      [| discriminate].
    destruct (len content =? 0); [discriminate |].
    unfold ret in Hres. by injection Hres as <- <-.
  - intros options' w' p w2. apply generateVideo_resolves.
Qed.

End RenderFailure.

(** C3 where the rasterizer works and the renderer runs out of time: the
    run ends in the renderer's time-out after two commands, the
    rasterizer's and the renderer's. *)
Lemma C3_witness :
  let P := Examples.scripted Examples.slowRenderer in
  exists cmd w2,
    @Video.generateVideo P Examples.video
      (Examples.videoOptions Examples.oneSegmentScript) Examples.emptyWorld
    = (Throw (ExecError cmd TimedOut), w2)
    /\ map timeout (calls w2) = [None; Some 300000].
Proof.
  intros P.
  pose (w1 := snd (@RenderGraph.beforeRender P Examples.video
                     Examples.oneSegmentScript Examples.emptyWorld)).
  assert (Hpre : @RenderGraph.beforeRender P Examples.video
                   (Video.script
                      (Examples.videoOptions Examples.oneSegmentScript))
                   Examples.emptyWorld
                 = (Ok (["out/run_segment_0.png"], "out/run_captions.srt"),
                    w1)).
  { vm_compute. reflexivity. }
  destruct (@C3_render_failure_is_terminal P Examples.video
              (Examples.videoOptions Examples.oneSegmentScript)
              Examples.emptyWorld w1 _ _ Hpre) as (Hfail & _).
  destruct (Hfail TimedOut ltac:(vm_compute; reflexivity))
    as (w2 & Hgen & Hcalls).
  eexists _, w2. split; [exact Hgen |].
  rewrite Hcalls. vm_compute. reflexivity.
Defined.

(** ** Asset provisioning *)

Section Provisioning.
Import Video Ladder.
Context `{Platform}.

Lemma exec_after (cmd : string) (t : option Z) (w : World) :
  exec cmd t w
  = (match failed {| command := cmd; timeout := t |} w with
     | None => Ok tt
     | Some why => Throw (ExecError cmd why)
     end,
     after {| command := cmd; timeout := t |} w).
Proof. unfold exec, failed, after. by destruct (failure _). Qed.

Lemma unlinkQuiet_run (path : string) (w : World) :
  unlinkQuiet path w = (Ok tt, unlinked path w).
Proof. unfold unlinkQuiet, unlinked. by destruct (unlinkRefused path w). Qed.

Lemma calls_unlinked (path : string) (w : World) :
  calls (unlinked path w) = calls w.
Proof. unfold unlinked. by destruct (unlinkRefused path w). Qed.

Lemma draws_unlinked (path : string) (w : World) :
  draws (unlinked path w) = draws w.
Proof. unfold unlinked. by destruct (unlinkRefused path w). Qed.

Lemma files_unlinked (path : string) (w : World) :
  unlinkRefused path w = false -> files (unlinked path w) !! path = None.
Proof. unfold unlinked. intros ->. apply lookup_delete_eq. Qed.

(** C6 (amended): for every segment the provisioner first calls the
    rasterizer; if that call succeeds nothing else is called; if it
    fails, for whatever reason, the rendering engine is called once for
    a single frame of the colour of the segment's kind, without text, at
    the same path, and the provisioner rejects exactly when that second
    call fails too, with that failure. *)
Theorem C6_raster_then_flat_frame :
  forall (segment : ScriptSegment) (outputPath : string) (index : nat)
         (w : World),
    let c1 := plain (rasterCommand segment outputPath index) in
    let c2 := plain (flatFrameCommand segment outputPath) in
    (failed c1 w = None ->
     createSegmentImage segment outputPath index w
     = (Ok tt, after c1 w))
    /\ (forall why,
          failed c1 w = Some why ->
          createSegmentImage segment outputPath index w
          = (match failed c2 (after c1 w) with
             | None => Ok tt
             | Some why2 => Throw (ExecError (command c2) why2)
             end,
             after c2 (after c1 w)))
    /\ calls (after c1 w) = calls w ++ [c1]
    /\ calls (after c2 (after c1 w)) = calls w ++ [c1; c2]
    /\ command c2
       = "ffmpeg -f lavfi -i color=c="
           +:+ getSegmentColor (typeName (type segment))
           +:+ ":s=1920x1080:d=1 -frames:v 1 "
           +:+ dq +:+ outputPath +:+ dq
    /\ map (fun t => getSegmentColor (typeName t))
           [hook; context; explanation; summary; cta]
       = ["darkblue"; "darkgreen"; "darkred"; "darkorange"; "darkviolet"].
Proof.
  intros segment outputPath index w c1 c2.
  assert (Hrun : createSegmentImage segment outputPath index w
                 = tryCatch (exec (command c1) None)
                     (fun _ => exec (command c2) None) w)
    by reflexivity.
  unfold tryCatch in Hrun. rewrite exec_after in Hrun.
  change {| command := command c1; timeout := None |} with c1 in Hrun.
  split; [| split; [| split; [| split; [| split]]]].
  - intros Hok. by rewrite Hrun, Hok.
  - intros why Hwhy. rewrite Hrun, Hwhy. by rewrite exec_after.
  - reflexivity.
  - cbn [after calls]. by rewrite <- app_assoc.
  - reflexivity.
  - vm_compute. reflexivity.
Qed.

End Provisioning.

(** C6, as stated, in two worlds.  Where the rasterizer reports success
    and leaves an empty file, the provisioner resolves after that single
    call and the segment image has zero bytes: the empty result triggers no
    fallback.  Where no tool is installed, the provisioner rejects: the
    error reaches the caller. *)
Lemma C6_empty_raster_not_caught :
  (exists w1,
     @Video.createSegmentImage (Examples.scripted Examples.emptyRaster)
       Examples.hookSegment "out/run_segment_0.png" 0
       Examples.emptyWorld
     = (Ok tt, w1)
     /\ files w1 !! "out/run_segment_0.png" = Some EmptyString
     /\ List.length (calls w1) = 1%nat)
  /\ (exists cmd w1,
        @Video.createSegmentImage
          (Examples.scripted Examples.nothingInstalled)
          Examples.hookSegment "out/run_segment_0.png" 0
          Examples.emptyWorld
        = (Throw (ExecError cmd CommandNotFound), w1)
        /\ List.length (calls w1) = 2%nat).
Proof.
  split.
  - eexists. split; [vm_compute; reflexivity |].
    split; vm_compute; reflexivity.
  - eexists _, _. split; [vm_compute; reflexivity |].
    vm_compute; reflexivity.
Qed.

(** ** The thumbnail ladder *)

Section ThumbnailLadder.
Import Thumbnail Ladder.
Context `{Platform}.
Variable this : ThumbnailGenerator.
Variable options : ThumbnailOptions.

Lemma createThumbnailTitle_value (q : string) (w : World) :
  createThumbnailTitle q w = (Ok (titleOf q), drawn w).
Proof.
  unfold createThumbnailTitle, bind, randomBelow, titleOf, drawn, ret.
  by destruct (40 <? len q).
Qed.

Lemma fallback_flatOutcome (w : World) :
  (generateFallbackThumbnail this (thumbnailPathOf this options)
     (topic options) ;;
   ret (thumbnailPathOf this options))%prog w
  = flatOutcome this options w.
Proof.
  unfold generateFallbackThumbnail, getRandomColor, bind, randomBelow, ret.
  rewrite exec_after. unfold flatOutcome, flatCall, plain.
  fold (drawn w).
  by destruct (failed _ (drawn w)).
Qed.

Lemma extractVideoFrame_run (w : World) :
  extractVideoFrame this (videoPath options) w
  = (match failed (frameCall this options w) w with
     | None => Ok (framePathIn this w)
     | Some why =>
         Throw (ExecError (command (frameCall this options w)) why)
     end,
     after (frameCall this options w) w).
Proof.
  unfold extractVideoFrame, bind, now. rewrite exec_after.
  unfold frameCall, plain, framePathIn, ret.
  by destruct (failed _ w).
Qed.

Lemma createThumbnailWithOverlay_run (w0 w : World) :
  createThumbnailWithOverlay this (framePathIn this w0)
    (thumbnailPathOf this options) (topic options)
    (default "bold" (style options)) w
  = match failed (overlayCall this options w0) (drawn w) with
    | None => (Ok tt, after (overlayCall this options w0) (drawn w))
    | Some _ =>
        (match failed (drawtextCall this options w0)
                      (after (overlayCall this options w0) (drawn w)) with
         | None => Ok tt
         | Some why =>
             Throw (ExecError (command (drawtextCall this options w0)) why)
         end,
         after (drawtextCall this options w0)
           (after (overlayCall this options w0) (drawn w)))
    end.
Proof.
  unfold createThumbnailWithOverlay, bind.
  rewrite createThumbnailTitle_value. unfold tryCatch.
  rewrite exec_after. fold (plain (overlayCommand this (framePathIn this w0)
    (thumbnailPathOf this options) (titleOf (query (topic options)))
    (topic options) (getColorScheme (default "bold" (style options))))).
  fold (overlayCall this options w0).
  destruct (failed (overlayCall this options w0) (drawn w)); [| reflexivity].
  unfold createThumbnailWithFFmpeg. rewrite exec_after. reflexivity.
Qed.

Lemma verified_run (frame : string) (w : World) :
  tryCatch
    (unlinkQuiet frame ;;
     size <- statSize (thumbnailPathOf this options) ;;
     if size =? 0
     then throw (JsError "Generated thumbnail is empty")
     else ret (thumbnailPathOf this options))%prog
    (fun _ =>
       generateFallbackThumbnail this (thumbnailPathOf this options)
         (topic options) ;;
       ret (thumbnailPathOf this options))%prog w
  = verified this options frame w.
Proof.
  unfold tryCatch, bind. rewrite unlinkQuiet_run.
  unfold statSize, verified.
  destruct (files (unlinked frame w) !! thumbnailPathOf this options)
    as [content |].
  - destruct (len content =? 0).
    + unfold throw. apply fallback_flatOutcome.
    + reflexivity.
  - apply fallback_flatOutcome.
Qed.

(** The ladder as a decision over how the calls end. *)
Lemma generateThumbnail_ladder (w : World) :
  let cF := frameCall this options w in
  let cO := overlayCall this options w in
  let cD := drawtextCall this options w in
  let wF := after cF w in
  let wO := after cO (drawn wF) in
  let wD := after cD wO in
  generateThumbnail this options w
  = match failed cF w with
    | Some _ => flatOutcome this options wF
    | None =>
        match failed cO (drawn wF) with
        | None => verified this options (framePathIn this w) wO
        | Some _ =>
            match failed cD wO with
            | None => verified this options (framePathIn this w) wD
            | Some _ => flatOutcome this options wD
            end
        end
    end.
Proof.
  intros cF cO cD wF wO wD.
  unfold generateThumbnail.
  fold (thumbnailPathOf this options).
  unfold tryCatch at 1. unfold bind at 1.
  rewrite extractVideoFrame_run. fold cF. fold wF.
  destruct (failed cF w) as [why |].
  - apply fallback_flatOutcome.
  - unfold bind at 1. rewrite createThumbnailWithOverlay_run.
    fold cO cD. fold wO.
    destruct (failed cO (drawn wF)) as [why1 |].
    + fold wD. destruct (failed cD wO) as [why2 |].
      * apply fallback_flatOutcome.
      * apply (verified_run (framePathIn this w) wD).
    + apply (verified_run (framePathIn this w) wO).
Qed.

End ThumbnailLadder.

Section ThumbnailClaims.
Import Thumbnail Ladder.
Context `{Platform}.
Variable this : ThumbnailGenerator.
Variable options : ThumbnailOptions.

Lemma flatOutcome_calls (wl : World) :
  calls (snd (flatOutcome this options wl))
  = calls wl ++ [flatCall this options wl].
Proof. reflexivity. Qed.

Lemma verified_cases (frame : string) (w0 : World) :
  (verified this options frame w0
     = (Ok (thumbnailPathOf this options), unlinked frame w0)
   /\ hasImage this options (unlinked frame w0))
  \/ (lacksImage this options frame w0
      /\ verified this options frame w0
         = flatOutcome this options (unlinked frame w0)).
Proof.
  unfold verified, hasImage, lacksImage.
  destruct (files (unlinked frame w0) !! thumbnailPathOf this options)
    as [content |] eqn:E.
  - destruct (len content =? 0) eqn:Hz.
    + right. split; [| reflexivity].
      intros c [= <-]. by apply Z.eqb_eq.
    + left. split; [reflexivity |]. exists content. split; [done |].
      apply Z.eqb_neq in Hz. unfold len in *. lia.
  - right. split; [| reflexivity]. intros c Hc. discriminate.
Qed.

(** X17: the Composer first extracts a frame and calls the rasterizer
    overlay on it; the text-draw overlay on the same frame is called only
    when the rasterizer call failed; the flat-coloured background with
    one centred text is called last, and only when the extraction failed,
    the text-draw call failed, or the first two levels left the thumbnail
    missing or empty.  A run that returns through the first two levels
    returns the path of a non-empty image.  A run that reaches the
    flat-colour level resolves when that call succeeds, whatever the call
    left behind, and rejects, with that call's failure, when it fails:
    there is no other terminal error. *)
Theorem X17_thumbnail_ladder_order :
  forall w : World,
    let r := fst (generateThumbnail this options w) in
    let w' := snd (generateThumbnail this options w) in
    let path := thumbnailPathOf this options in
    let frame := framePathIn this w in
    let cF := frameCall this options w in
    let cO := overlayCall this options w in
    let cD := drawtextCall this options w in
    let wF := after cF w in
    let wO := after cO (drawn wF) in
    let wD := after cD wO in
    (* returned through the rasterizer overlay *)
    (failed cF w = None /\ failed cO (drawn wF) = None
     /\ calls w' = calls w ++ [cF; cO]
     /\ r = Ok path /\ hasImage this options w')
    (* returned through the text-draw overlay *)
    \/ (failed cF w = None /\ failed cO (drawn wF) <> None
        /\ failed cD wO = None
        /\ calls w' = calls w ++ [cF; cO; cD]
        /\ r = Ok path /\ hasImage this options w')
    (* reached the flat-colour level *)
    \/ (exists wl,
          let cL := flatCall this options wl in
          ((failed cF w <> None /\ calls w' = calls w ++ [cF; cL])
           \/ (failed cF w = None /\ failed cO (drawn wF) = None
               /\ lacksImage this options frame wO
               /\ calls w' = calls w ++ [cF; cO; cL])
           \/ (failed cF w = None /\ failed cO (drawn wF) <> None
               /\ (failed cD wO <> None
                   \/ lacksImage this options frame wD)
               /\ calls w' = calls w ++ [cF; cO; cD; cL]))
          /\ r = match failed cL (drawn wl) with
                 | None => Ok path
                 | Some why => Throw (ExecError (command cL) why)
                 end).
Proof.
  intros w r w' path frame cF cO cD wF wO wD.
  unfold r, w'. rewrite generateThumbnail_ladder.
  fold cF cO cD. fold wF. fold wO. fold wD.
  destruct (failed cF w) as [whyF |] eqn:EF.
  { right; right. exists wF. split; [| reflexivity].
    left. split; [discriminate |].
    rewrite flatOutcome_calls. unfold wF. cbn [after calls].
    by rewrite <- app_assoc. }
  destruct (failed cO (drawn wF)) as [whyO |] eqn:EO.
  - destruct (failed cD wO) as [whyD |] eqn:ED.
    + right; right. exists wD. split; [| reflexivity].
      right; right. split; [reflexivity |]. split; [discriminate |].
      split; [left; discriminate |].
      rewrite flatOutcome_calls. unfold wD, wO, wF. cbn [after calls drawn].
      by rewrite <- !app_assoc.
    + destruct (verified_cases frame wD) as [[Hv Hi] | [Hl Hv]].
      * right; left. fold frame. rewrite Hv. cbn [fst snd].
        split; [reflexivity |]. split; [discriminate |].
        split; [reflexivity |].
        split; [| split; [reflexivity | exact Hi]].
        unfold wD, wO, wF. rewrite calls_unlinked. cbn [after calls drawn].
        by rewrite <- !app_assoc.
      * right; right. exists (unlinked frame wD). fold frame. rewrite Hv.
        split; [| reflexivity].
        right; right. split; [reflexivity |]. split; [discriminate |].
        split; [right; exact Hl |].
        rewrite flatOutcome_calls.
        unfold wD, wO, wF. rewrite calls_unlinked. cbn [after calls drawn].
        by rewrite <- !app_assoc.
  - destruct (verified_cases frame wO) as [[Hv Hi] | [Hl Hv]].
    + left. fold frame. rewrite Hv. cbn [fst snd].
      split; [reflexivity |]. split; [reflexivity |].
      split; [| split; [reflexivity | exact Hi]].
      unfold wO, wF. rewrite calls_unlinked. cbn [after calls drawn].
      by rewrite <- !app_assoc.
    + right; right. exists (unlinked frame wO). fold frame. rewrite Hv.
      split; [| reflexivity].
      right; left. split; [reflexivity |]. split; [reflexivity |].
      split; [exact Hl |].
      rewrite flatOutcome_calls.
      unfold wO, wF. rewrite calls_unlinked. cbn [after calls drawn].
      by rewrite <- !app_assoc.
Qed.

End ThumbnailClaims.

(** ** A script without segments *)

Section EmptyTimeline.
Import Video RenderGraph Ladder.
Context `{Platform}.

(** C9 (amended): an empty list of pieces is laid out as no segments and a
    total of 0 seconds; on a script without segments the provisioner
    resolves with no assets and calls nothing, the caption generator
    writes the empty document and resolves, the graph is compiled for
    [concat=n=0] and the renderer is called once; [generateVideo] then
    rejects or resolves as the renderer's call and the check of its output
    decide, and a rejection carries the renderer's failure. *)
Theorem C9_empty_timeline_flows_through :
  forall (this : VideoGenerator) (options : VideoGenerationOptions)
         (w : World),
    segments (script options) = [] ->
    let scr := script options in
    let captionsPath := pathJoin [outputDir this; id scr +:+ "_captions.srt"] in
    let w1 := {| files := <[captionsPath := EmptyString]> (files w);
                 calls := calls w; clock := clock w; draws := draws w |} in
    let request := requestOf this options [] captionsPath in
    let call := {| command := commandOf (musicIn this w1) request;
                   timeout := Some renderTimeout |} in
    Timeline.layOut [] = ([], 0)
    /\ prepareAssets this scr w = (Ok [], w)
    /\ captionsDocument (segments scr) = EmptyString
    /\ (exists audioStage,
          filterComplex (graphOf (musicIn this w1) request)
          = "concat=n=0:v=1:a=0[outv];" +:+ audioStage)
    /\ (writeRefused captionsPath w = false ->
        generateCaptions this scr (id scr) w = (Ok captionsPath, w1)
        /\ calls (snd (generateVideo this options w)) = calls w ++ [call]
        /\ (forall why,
              failed call w1 = Some why ->
              fst (generateVideo this options w)
              = Throw (ExecError (command call) why))
        /\ (forall content,
              failed call w1 = None ->
              filesAfter (run call w1) !! videoPathOf this scr = Some content ->
              0 < len content ->
              fst (generateVideo this options w)
              = Ok (videoPathOf this scr))).
Proof.
  intros this options w Hseg scr captionsPath w1 request call.
  assert (Hassets : prepareAssets this scr w = (Ok [], w)).
  { unfold prepareAssets, scr. by rewrite Hseg. }
  split; [reflexivity |].
  split; [exact Hassets |].
  split; [unfold scr; by rewrite Hseg |].
  split.
  { cbn [graphOf filterComplex request requestOf r_assets List.length seq
         map Js.concat fold_right concatStage].
    eexists. unfold concatStage. cbn [seq map Js.concat fold_right].
    rewrite !append_assoc. reflexivity. }
  intros Hw.
  assert (Hcap : generateCaptions this scr (id scr) w = (Ok captionsPath, w1)).
  { unfold generateCaptions, bind, writeFile. fold captionsPath.
    rewrite Hw. unfold scr. rewrite Hseg. reflexivity. }
  assert (Hpre : beforeRender this (script options) w
                 = (Ok ([], captionsPath), w1)).
  { unfold beforeRender, bind. fold scr. by rewrite Hassets, Hcap. }
  pose proof (generateVideo_after _ _ _ _ _ _ Hpre) as Hgen.
  unfold tryCatch, bind in Hgen. rewrite exec_after in Hgen.
  fold request in Hgen. fold call in Hgen. fold scr in Hgen.
  split; [exact Hcap |].
  split; [| split].
  - rewrite Hgen. destruct (failed call w1) as [why |]; [reflexivity |].
    unfold statSize.
    destruct (files (after call w1) !! videoPathOf this scr) as [c |];
      [| reflexivity].
    by destruct (len c =? 0).
  - intros why Hwhy. by rewrite Hgen, Hwhy.
  - intros content Hok Hfile Hpos. rewrite Hgen, Hok.
    unfold statSize. cbn [after files]. rewrite Hfile.
    destruct (len content =? 0) eqn:Hz; [| reflexivity].
    apply Z.eqb_eq in Hz. lia.
Qed.

End EmptyTimeline.

(** C9 on the script without segments, in a world whose tools all work. *)
Lemma C9_witness :
  let P := Examples.scripted Examples.allWell in
  @Video.prepareAssets P Examples.video Examples.emptyScript
    Examples.emptyWorld
  = (Ok [], Examples.emptyWorld)
  /\ Video.captionsDocument (segments Examples.emptyScript) = EmptyString.
Proof.
  intros P.
  destruct (@C9_empty_timeline_flows_through P Examples.video
              (Examples.videoOptions Examples.emptyScript)
              Examples.emptyWorld eq_refl)
    as (_ & Ha & Hc & _).
  split; [exact Ha | exact Hc].
Defined.

(** C9, as stated, on the script without segments in a world whose tools
    all work: the provisioner and the caption generator resolve, the
    caption file is written empty, and [generateVideo] resolves with the
    path of the video; no stage raises an error about the empty
    timeline. *)
Lemma C9_empty_timeline_no_error :
  let P := Examples.scripted Examples.allWell in
  @Video.prepareAssets P Examples.video Examples.emptyScript
    Examples.emptyWorld
  = (Ok [], Examples.emptyWorld)
  /\ (exists w1,
        @Video.generateCaptions P Examples.video Examples.emptyScript "run"
          Examples.emptyWorld
        = (Ok "out/run_captions.srt", w1)
        /\ files w1 !! "out/run_captions.srt" = Some EmptyString)
  /\ fst (@Video.generateVideo P Examples.video
            (Examples.videoOptions Examples.emptyScript) Examples.emptyWorld)
     = Ok "out/run_video.mp4".
Proof.
  intros P. split; [reflexivity |]. split.
  - eexists. split; vm_compute; reflexivity.
  - vm_compute. reflexivity.
Qed.

(** ** The thumbnail title *)

Lemma substring0_prefix (n : nat) (s : string) :
  exists rest, s = substring0 n s +:+ rest.
Proof.
  unfold substring0. revert s.
  induction n as [| n IH]; intros [| c s].
  - by exists EmptyString.
  - by exists (String c s).
  - by exists EmptyString.
  - destruct (IH s) as [rest Hrest]. exists rest.
    simpl. rewrite append_cons. by rewrite <- Hrest.
Qed.

(** C10: the title is the query when the query has at most 40
    characters, and otherwise its first 40 characters followed by three
    dots, 43 characters in all; so a title never has more than 43
    characters; and the prefix drawn at random never reaches the result,
    which is the same whatever the world's draws are. *)
Theorem C10_thumbnail_title :
  forall (query : string) (w : World),
    (len query <= 40 ->
     fst (Thumbnail.createThumbnailTitle query w) = Ok query)
    /\ (40 < len query ->
        fst (Thumbnail.createThumbnailTitle query w)
          = Ok (substring0 40 query +:+ "...")
        /\ len (substring0 40 query) = 40
        /\ (exists rest, query = substring0 40 query +:+ rest)
        /\ len (substring0 40 query +:+ "...") = 43)
    /\ (forall title,
          fst (Thumbnail.createThumbnailTitle query w) = Ok title ->
          len title <= 43)
    /\ (forall w2 : World,
          fst (Thumbnail.createThumbnailTitle query w2)
          = fst (Thumbnail.createThumbnailTitle query w))
    /\ files (snd (Thumbnail.createThumbnailTitle query w)) = files w
    /\ calls (snd (Thumbnail.createThumbnailTitle query w)) = calls w.
Proof.
  intros query w.
  assert (Hlen40 : 40 < len query -> len (substring0 40 query) = 40).
  { unfold len. rewrite length_substring0. lia. }
  assert (Hlen43 : 40 < len query ->
                   len (substring0 40 query +:+ "...") = 43).
  { intros Hq. specialize (Hlen40 Hq). unfold len in *.
    rewrite length_append. simpl String.length. lia. }
  rewrite createThumbnailTitle_value. cbn [fst snd].
  unfold Ladder.titleOf.
  split; [| split; [| split; [| split; [| split]]]].
  - intros Hq. destruct (40 <? len query) eqn:E; [| reflexivity].
    apply Z.ltb_lt in E. lia.
  - intros Hq. apply Z.ltb_lt in Hq as Hb. rewrite Hb.
    split; [reflexivity |]. split; [auto |].
    split; [apply substring0_prefix | auto].
  - intros title. destruct (40 <? len query) eqn:E; intros [= <-].
    + apply Z.ltb_lt in E. rewrite Hlen43; lia.
    + apply Z.ltb_ge in E. lia.
  - intros w2. by rewrite createThumbnailTitle_value.
  - reflexivity.
  - reflexivity.
Qed.

(** C8 where the video cannot be read and the flat-colour command
    reports success but leaves an empty file: the Composer resolves with
    the thumbnail path after the frame extraction and the flat-colour
    call, and the image at that path has zero bytes.  On its first two
    levels the code rejects such a file as an empty thumbnail; the result
    of the flat-colour level it returns without looking at it. *)
Lemma C8_flat_level_unchecked :
  exists w',
    @Thumbnail.generateThumbnail (Examples.scripted Examples.unreadableVideo)
      Examples.thumbs Examples.thumbnailOptions Examples.emptyWorld
    = (Ok "out/run_thumbnail.png", w')
    /\ files w' !! "out/run_thumbnail.png" = Some EmptyString
    /\ List.length (calls w') = 2%nat.
Proof.
  eexists. split; [vm_compute; reflexivity |].
  split; vm_compute; reflexivity.
Qed.

(** ** Worked runs *)

Example formatTime_samples :
  Video.formatTime 0 = "00:00:00,000"
  /\ Video.formatTime 59 = "00:00:59,000"
  /\ Video.formatTime 3725 = "01:02:05,000"
  /\ Video.formatTime 360000 = "100:00:00,000".
Proof. repeat split; vm_compute; reflexivity. Qed.

Example captions_sample :
  Video.captionsDocument [Examples.hookSegment]
  = "1" +:+ nl +:+ "00:00:00,000 --> 00:00:02,000" +:+ nl
      +:+ "Have you ever wondered x?" +:+ nl +:+ nl.
Proof. vm_compute. reflexivity. Qed.

Example script_sample :
  map (fun s => (startTime s, endTime s))
      (segments (generateScript Examples.ambient0 Examples.topicX))
  = [(0, 2); (2, 19); (19, 27); (27, 37); (37, 46); (46, 55); (55, 67);
     (67, 78)]
  /\ estimatedDuration (generateScript Examples.ambient0 Examples.topicX)
     = 78.
Proof. split; vm_compute; reflexivity. Qed.

(** Without music the narration is input 2 of a two-image graph. *)
Example graph_without_music :
  fst (@Video.compileGraph (Examples.scripted Examples.allWell)
         Examples.video Examples.requestA Examples.emptyWorld)
  = Ok (Video.ffmpegCommand
          {| Video.inputs :=
               "-loop 1 -t 2 -i " +:+ dq +:+ "out/run_segment_0.png" +:+ dq
                 +:+ " -loop 1 -t 2 -i " +:+ dq +:+ "out/run_segment_1.png"
                 +:+ dq +:+ " -i " +:+ dq +:+ "out/run_voice.mp3" +:+ dq
                 +:+ " ";
             Video.filterComplex :=
               "[0:v]setpts=PTS-STARTPTS[v0];[1:v]setpts=PTS-STARTPTS[v1];[v0][v1]concat=n=2:v=1:a=0[outv];[2:a]volume=1.0[aout];[outv]subtitles='out/run_captions.srt':force_style='FontName=Arial,FontSize=24,PrimaryColour=&HFFFFFF&'[finalv]";
             Video.filterCount := 2 |}
          Examples.requestA).
Proof. vm_compute. reflexivity. Qed.

(** With music the mix filter follows the separator that ends the concat
    stage with a separator of its own. *)
Example graph_with_music :
  fst (@Video.compileGraph (Examples.scripted Examples.allWell)
         Examples.video Examples.requestA Examples.musicWorld)
  = Ok (Video.ffmpegCommand
          {| Video.inputs :=
               "-loop 1 -t 2 -i " +:+ dq +:+ "out/run_segment_0.png" +:+ dq
                 +:+ " -loop 1 -t 2 -i " +:+ dq +:+ "out/run_segment_1.png"
                 +:+ dq +:+ " -i " +:+ dq +:+ "out/run_voice.mp3" +:+ dq
                 +:+ " -i " +:+ dq +:+ "assets/music/background.mp3" +:+ dq
                 +:+ " ";
             Video.filterComplex :=
               "[0:v]setpts=PTS-STARTPTS[v0];[1:v]setpts=PTS-STARTPTS[v1];[v0][v1]concat=n=2:v=1:a=0[outv];;[2:a]volume=0.3[music];[3:a]volume=0.1[bg];[music][bg]amix=inputs=2:duration=longest[aout];[outv]subtitles='out/run_captions.srt':force_style='FontName=Arial,FontSize=24,PrimaryColour=&HFFFFFF&'[finalv]";
             Video.filterCount := 2 |}
          Examples.requestA).
Proof. vm_compute. reflexivity. Qed.

(** A whole run of [generateVideo] where every tool works. *)
Example video_run :
  exists w',
    @Video.generateVideo (Examples.scripted Examples.allWell)
      Examples.video (Examples.videoOptions Examples.oneSegmentScript)
      Examples.emptyWorld
    = (Ok "out/run_video.mp4", w')
    /\ files w' !! "out/run_video.mp4" = Some "MP4"
    /\ map timeout (calls w') = [None; Some 300000].
Proof.
  eexists. split; [vm_compute; reflexivity |].
  split; vm_compute; reflexivity.
Qed.

(** Without a rasterizer the segment image comes from the flat frame. *)
Example segment_image_fallback :
  exists w',
    @Video.createSegmentImage (Examples.scripted Examples.noRasterizer)
      Examples.hookSegment "out/run_segment_0.png" 0 Examples.emptyWorld
    = (Ok tt, w')
    /\ files w' !! "out/run_segment_0.png" = Some "PNG"
    /\ map command (calls w')
       = [ Ladder.rasterCommand Examples.hookSegment "out/run_segment_0.png" 0;
           "ffmpeg -f lavfi -i color=c=darkblue:s=1920x1080:d=1 -frames:v 1 "
             +:+ dq +:+ "out/run_segment_0.png" +:+ dq ].
Proof.
  eexists. split; [vm_compute; reflexivity |].
  split; vm_compute; reflexivity.
Qed.

(** The thumbnail through level 1, through level 2, and, where nothing is
    installed, the terminal error of level 3. *)
Example thumbnail_runs :
  (exists w',
     @Thumbnail.generateThumbnail (Examples.scripted Examples.thumbnailWell)
       Examples.thumbs Examples.thumbnailOptions Examples.emptyWorld
     = (Ok "out/run_thumbnail.png", w')
     /\ files w' !! "out/run_thumbnail.png" = Some "PNG"
     /\ files w' !! "out/frame_1700000000000.jpg" = None
     /\ List.length (calls w') = 2%nat)
  /\ (exists w',
        @Thumbnail.generateThumbnail (Examples.scripted Examples.noRasterizer)
          Examples.thumbs Examples.thumbnailOptions Examples.emptyWorld
        = (Ok "out/run_thumbnail.png", w')
        /\ files w' !! "out/run_thumbnail.png" = Some "PNG"
        /\ List.length (calls w') = 3%nat)
  /\ (exists cmd w',
        @Thumbnail.generateThumbnail
          (Examples.scripted Examples.nothingInstalled)
          Examples.thumbs Examples.thumbnailOptions Examples.emptyWorld
        = (Throw (ExecError cmd CommandNotFound), w')
        /\ Examples.startsWith "ffmpeg -f lavfi -i color=c=red:s=1280x720:d=1"
             cmd = true
        /\ List.length (calls w') = 2%nat).
Proof.
  split; [| split].
  - eexists. split; [vm_compute; reflexivity |].
    repeat split; vm_compute; reflexivity.
  - eexists. split; [vm_compute; reflexivity |].
    repeat split; vm_compute; reflexivity.
  - eexists _, _. split; [vm_compute; reflexivity |].
    repeat split; vm_compute; reflexivity.
Qed.

(** An empty thumbnail left by the rasterizer overlay is caught by the
    check of the first two levels and replaced by the flat-colour one. *)
Example thumbnail_empty_overlay_is_caught :
  exists w',
    @Thumbnail.generateThumbnail (Examples.scripted Examples.emptyOverlay)
      Examples.thumbs Examples.thumbnailOptions Examples.emptyWorld
    = (Ok "out/run_thumbnail.png", w')
    /\ files w' !! "out/run_thumbnail.png" = Some "PNG"
    /\ List.length (calls w') = 3%nat.
Proof.
  eexists. split; [vm_compute; reflexivity |].
  split; vm_compute; reflexivity.
Qed.

(** On a file system that refuses to unlink, the run still resolves and
    the extracted frame stays where it was written. *)
Example thumbnail_frame_stays :
  exists w',
    @Thumbnail.generateThumbnail (Examples.stickyFiles Examples.thumbnailWell)
      Examples.thumbs Examples.thumbnailOptions Examples.emptyWorld
    = (Ok "out/run_thumbnail.png", w')
    /\ files w' !! "out/run_thumbnail.png" = Some "PNG"
    /\ files w' !! "out/frame_1700000000000.jpg" = Some "JPG".
Proof.
  eexists. split; [vm_compute; reflexivity |].
  split; vm_compute; reflexivity.
Qed.

(* ===================================================================== *)
(** * Further properties of the script generator *)
(* ===================================================================== *)

(** ** Pieces of [split] *)

Lemma split_nonempty (sep : ascii) (s : string) : split sep s <> [].
Proof.
  destruct s as [| c s]; simpl; [discriminate |].
  destruct (Ascii.eqb c sep); [discriminate |].
  destruct (split sep s); discriminate.
Qed.

Lemma split_length_cons (sep c : ascii) (s : string) :
  List.length (split sep (String c s))
  = if Ascii.eqb c sep then S (List.length (split sep s))
    else List.length (split sep s).
Proof.
  simpl. destruct (Ascii.eqb c sep); [reflexivity |].
  pose proof (split_nonempty sep s).
  destruct (split sep s); [contradiction | reflexivity].
Qed.

Lemma split_length_app (sep : ascii) (a b : string) :
  List.length (split sep (a +:+ b))
  = (List.length (split sep a) + List.length (split sep b) - 1)%nat.
Proof.
  induction a as [| c a IH].
  - change (EmptyString +:+ b) with b. simpl. lia.
  - rewrite append_cons, !split_length_cons, IH.
    pose proof (split_nonempty sep a). pose proof (split_nonempty sep b).
    destruct (split sep a), (split sep b); try contradiction.
    destruct (Ascii.eqb c sep); simpl; lia.
Qed.

Lemma splitCount_app (a b : string) :
  splitCount (a +:+ b) = splitCount a + splitCount b - 1.
Proof.
  unfold splitCount. rewrite split_length_app.
  pose proof (split_nonempty space a). pose proof (split_nonempty space b).
  destruct (split space a), (split space b); try contradiction.
  simpl List.length. lia.
Qed.

Lemma lowerChar_space (c : ascii) :
  Ascii.eqb (lowerChar c) space = Ascii.eqb c space.
Proof. destruct c as [[] [] [] [] [] [] [] []]; reflexivity. Qed.

Lemma splitCount_toLowerCase (s : string) :
  splitCount (toLowerCase s) = splitCount s.
Proof.
  unfold splitCount. f_equal.
  induction s as [| c s IH]; [reflexivity |].
  cbn [toLowerCase]. rewrite !split_length_cons, lowerChar_space.
  by rewrite IH.
Qed.

Lemma duration_pos (n : Z) : 1 <= n -> 1 <= calculateSegmentDuration n.
Proof.
  intros Hn. unfold calculateSegmentDuration. rewrite ceilDiv_rate.
  apply Z.div_le_lower_bound; lia.
Qed.

Lemma duration_bounds (n : Z) :
  2 * n <= 5 * calculateSegmentDuration n <= 2 * n + 4.
Proof.
  unfold calculateSegmentDuration. rewrite ceilDiv_rate.
  pose proof (Z.div_mod (2 * n + 4) 5 ltac:(lia)).
  pose proof (Z.mod_pos_bound (2 * n + 4) 5 ltac:(lia)).
  lia.
Qed.

Lemma duration_mono (n m : Z) :
  n <= m -> calculateSegmentDuration n <= calculateSegmentDuration m.
Proof.
  intros Hnm. unfold calculateSegmentDuration. rewrite !ceilDiv_rate.
  apply Z.div_le_mono; lia.
Qed.

(** ** Shape and size of a generated script *)

Section ScriptShape.
Import Timeline Text.

Lemma scheduleFrom_texts (pieces : list Piece) :
  forall t, map text (scheduleFrom t pieces) = map (fun p => snd (fst p)) pieces.
Proof.
  induction pieces as [| [[ty txt] hint] rest IH]; intros t; simpl;
    [reflexivity | by rewrite IH].
Qed.

Lemma scheduleFrom_durations (pieces : list Piece) :
  forall t,
    Forall (fun seg => 1 <= duration seg
                       /\ endTime seg = startTime seg + duration seg)
           (scheduleFrom t pieces).
Proof.
  induction pieces as [| [[ty txt] hint] rest IH]; intros t; simpl;
    constructor; [| apply IH].
  simpl. split; [| reflexivity]. apply duration_pos, splitCount_pos.
Qed.

Lemma fold_words (segs : list ScriptSegment) :
  forall acc,
    fold_left (fun sum seg => sum + splitCount (text seg)) segs acc
    = acc + pieceTotal segs.
Proof.
  induction segs as [| s rest IH]; intros acc; simpl; [lia |].
  rewrite IH. unfold pieceTotal. simpl. lia.
Qed.

Lemma scheduleFrom_total (pieces : list Piece) :
  forall t,
    2 * pieceTotal (scheduleFrom t pieces)
      <= 5 * (endFrom t pieces - t)
      <= 2 * pieceTotal (scheduleFrom t pieces)
         + 4 * Z.of_nat (List.length pieces).
Proof.
  induction pieces as [| [[ty txt] hint] rest IH]; intros t.
  - unfold pieceTotal. simpl. lia.
  - cbn [scheduleFrom endFrom List.length].
    specialize (IH (t + calculateSegmentDuration (splitCount txt))).
    pose proof (duration_bounds (splitCount txt)).
    unfold pieceTotal in *. cbn [fold_right text]. lia.
Qed.

Lemma endFrom_lower (pieces : list Piece) :
  forall t, t + Z.of_nat (List.length pieces) <= endFrom t pieces.
Proof.
  induction pieces as [| [[ty txt] hint] rest IH]; intros t.
  - simpl. lia.
  - cbn [endFrom List.length].
    specialize (IH (t + calculateSegmentDuration (splitCount txt))).
    pose proof (duration_pos _ (splitCount_pos txt)). lia.
Qed.

Lemma generateScript_schedule (a : Ambient) (t : ScoredTopic) :
  segments (generateScript a t) = scheduleFrom 0 (scriptPieces a t)
  /\ estimatedDuration (generateScript a t) = endFrom 0 (scriptPieces a t).
Proof.
  pose proof (generateScript_layOut a t) as Hl.
  rewrite layOut_schedule in Hl.
  split; [exact (f_equal fst Hl) | exact (f_equal snd Hl)].
Qed.

Lemma chained_increasing (segs : list ScriptSegment) :
  forall t total i a b,
    chained t segs total ->
    Forall (fun seg => 1 <= duration seg
                       /\ endTime seg = startTime seg + duration seg) segs ->
    segs !! i = Some a -> segs !! S i = Some b ->
    startTime a < startTime b.
Proof.
  intros t total i a b Hc Hall Ha Hb.
  pose proof (chained_adjacent _ _ _ _ _ _ Hc Ha Hb) as Hadj.
  destruct (Forall_lookup_1 _ _ _ _ Hall Ha) as [Hd He].
  lia.
Qed.

(** X1: whatever the topic and the random draws, a generated script has
    exactly eight segments, a hook, a context, four explanations hinted
    [step_1] to [step_4], a summary and a call to action, in that order;
    every segment lasts at least one second and ends [duration] after it
    starts, so the start offsets strictly increase. *)
Theorem X1_script_has_eight_timed_segments :
  forall (a : Ambient) (t : ScoredTopic),
    let segs := segments (generateScript a t) in
    map type segs
    = [hook; context; explanation; explanation; explanation; explanation;
       summary; cta]
    /\ map visualHint segs
       = ["attention_grabber"; "explanation_visual"; "step_1"; "step_2";
          "step_3"; "step_4"; "recap_visual"; "end_screen"]
    /\ Forall (fun seg => 1 <= duration seg
                          /\ endTime seg = startTime seg + duration seg) segs
    /\ (forall i x y,
          segs !! i = Some x -> segs !! S i = Some y ->
          startTime x < startTime y)
    /\ 8 <= estimatedDuration (generateScript a t).
Proof.
  intros a t segs.
  destruct (generateScript_schedule a t) as [Hs He].
  split; [reflexivity |]. split; [reflexivity |].
  assert (Hall : Forall (fun seg => 1 <= duration seg
                   /\ endTime seg = startTime seg + duration seg) segs).
  { unfold segs. rewrite Hs. apply scheduleFrom_durations. }
  split; [exact Hall |]. split.
  - intros i x y. unfold segs in *. rewrite Hs in *.
    apply (chained_increasing _ _ _ _ _ _
             (scheduleFrom_chained (scriptPieces a t) 0) Hall).
  - rewrite He.
    pose proof (endFrom_lower (scriptPieces a t) 0) as Ht.
    change (List.length (scriptPieces a t)) with 8%nat in Ht. lia.
Qed.

(** X2: the [totalWords] of a generated script is the sum of the piece
    counts of its eight texts, and its estimated duration lies between
    [totalWords / 2.5] and that plus 6.4 seconds:
    [2 * totalWords <= 5 * estimatedDuration <= 2 * totalWords + 32]. *)
Theorem X2_duration_tracks_word_total :
  forall (a : Ambient) (t : ScoredTopic),
    let scr := generateScript a t in
    totalWords scr = pieceTotal (segments scr)
    /\ 2 * totalWords scr <= 5 * estimatedDuration scr
    /\ 5 * estimatedDuration scr <= 2 * totalWords scr + 32.
Proof.
  intros a t scr.
  assert (Hw : totalWords scr = pieceTotal (segments scr)).
  { change (totalWords scr)
      with (fold_left (fun sum seg => sum + splitCount (text seg))
              (segments scr) 0).
    by rewrite fold_words. }
  destruct (generateScript_schedule a t) as [Hs He].
  pose proof (scheduleFrom_total (scriptPieces a t) 0) as Ht.
  change (List.length (scriptPieces a t)) with 8%nat in Ht.
  rewrite Hw. unfold scr. rewrite Hs, He. lia.
Qed.

Lemma endFrom_durations (pieces : list Piece) :
  forall t,
    endFrom t pieces
    = t + fold_right Z.add 0 (map duration (scheduleFrom t pieces)).
Proof.
  induction pieces as [| [[ty txt] hint] rest IH]; intros t.
  - simpl. lia.
  - cbn [endFrom scheduleFrom map fold_right duration]. rewrite IH. lia.
Qed.

(** X16: in every generated script each segment lasts
    [ceil(n / 2.5)], which is [(2n + 4) div 5], seconds for the [n]
    pieces of its text and ends that long after it starts; the first
    segment starts at 0, every segment ends exactly where the next one
    starts, the last one ends at [estimatedDuration], and
    [estimatedDuration] is the sum of the eight durations. *)
Theorem X16_generated_schedule_is_contiguous :
  forall (a : Ambient) (t : ScoredTopic),
    let scr := generateScript a t in
    let segs := segments scr in
    (forall i seg,
       segs !! i = Some seg ->
       duration seg = calculateSegmentDuration (splitCount (text seg))
       /\ duration seg = (2 * splitCount (text seg) + 4) / 5
       /\ endTime seg = startTime seg + duration seg)
    /\ (exists first, segs !! 0%nat = Some first /\ startTime first = 0)
    /\ (forall i x y,
          segs !! i = Some x -> segs !! S i = Some y ->
          endTime x = startTime y)
    /\ (exists final,
          last segs = Some final /\ endTime final = estimatedDuration scr)
    /\ estimatedDuration scr = fold_right Z.add 0 (map duration segs).
Proof.
  intros a t scr segs.
  destruct (generateScript_schedule a t) as [Hs He].
  pose proof (scheduleFrom_chained (scriptPieces a t) 0) as Hc.
  pose proof (endFrom_durations (scriptPieces a t) 0) as Hsum.
  rewrite <- Hs, <- He in Hc, Hsum. fold scr in Hc, Hsum.
  split; [| split; [| split; [| split]]].
  - intros i seg Hi. unfold segs, scr in Hi. rewrite Hs in Hi.
    destruct (scheduleFrom_lookup _ _ _ _ Hi)
      as (ty & txt & hint & _ & _ & Htx & _ & Hd & Hend).
    rewrite Htx. split; [exact Hd |]. split; [| exact Hend].
    rewrite Hd. apply ceilDiv_rate.
  - eexists. split; reflexivity.
  - intros i x y. apply (chained_adjacent _ _ _ _ _ _ Hc).
  - eexists. split; [reflexivity |].
    apply (chained_last _ _ _ _ Hc). reflexivity.
  - rewrite Hsum. fold segs. lia.
Qed.

End ScriptShape.

(** ** How the schedule depends on the topic *)

Section TopicPieces.
Import Timeline Text.

Lemma endFrom_sum (pieces : list Piece) :
  forall t,
    endFrom t pieces
    = t + fold_right Z.add 0
            (map calculateSegmentDuration
               (map (fun p => splitCount (snd (fst p))) pieces)).
Proof.
  induction pieces as [| [[ty txt] hint] rest IH]; intros t.
  - simpl. lia.
  - cbn [endFrom map fold_right fst snd]. rewrite IH. lia.
Qed.

Ltac count_closed :=
  repeat match goal with
  | |- context [splitCount ?s] =>
      let v := eval vm_compute in (splitCount s) in
      progress change (splitCount s) with v
  end.

Ltac count_pieces :=
  rewrite ?splitCount_app, ?splitCount_toLowerCase;
  match goal with
  | |- context [splitCount (query ?t)] =>
      generalize (splitCount (query t)); intros ?
  | _ => idtac
  end;
  count_closed; lia.

Lemma hook_pieces (d : nat) (t : ScoredTopic) :
  splitCount (generateHook d (query t))
  = nth (randomIndex d 5) [4; 10; 8; 7; 8] 0 + splitCount (query t).
Proof.
  unfold generateHook. cbn [List.length].
  pose proof (Nat.mod_upper_bound d 5 ltac:(lia)) as Hlt.
  unfold randomIndex.
  destruct (d mod 5)%nat as [| [| [| [| [| k]]]]]; [.. | lia];
    cbn [nth]; count_pieces.
Qed.

Lemma cta_pieces (d : nat) :
  splitCount (generateCTA d) = nth (randomIndex d 3) [27; 31; 30] 0.
Proof.
  unfold generateCTA. cbn [List.length].
  pose proof (Nat.mod_upper_bound d 3 ltac:(lia)) as Hlt.
  unfold randomIndex.
  destruct (d mod 3)%nat as [| [| [| k]]]; [.. | lia];
    vm_compute; reflexivity.
Qed.

Lemma script_piece_counts (a : Ambient) (t : ScoredTopic) :
  map (fun p => splitCount (snd (fst p))) (scriptPieces a t)
  = [ nth (randomIndex (hookDraw a) 5) [4; 10; 8; 7; 8] 0
        + splitCount (query t);
      41 + splitCount (query t);
      19 + splitCount (query t);
      24; 21;
      20 + splitCount (query t);
      29 + splitCount (query t);
      nth (randomIndex (ctaDraw a) 3) [27; 31; 30] 0 ].
Proof.
  unfold scriptPieces, generateExplanation, entries.
  cbn [List.length seq combine map app fst snd].
  rewrite hook_pieces, cta_pieces.
  repeat (apply (f_equal2 cons);
          [first [reflexivity
                 | unfold generateContext, generateSummary; count_pieces] |]).
  reflexivity.
Qed.

(** X3: the schedule of a generated script depends on the topic only
    through the number [c] of pieces of [query.split(' ')]: the eight
    texts have [h + c], [41 + c], [19 + c], 24, 21, [20 + c], [29 + c] and
    [k] pieces, where [h] is 4, 10, 8, 7 or 8 and [k] is 27, 31 or 30 by
    the draws.  So the schedule is never shorter than 78 seconds, far
    longer than the 2 seconds each of its eight images is shown. *)
Theorem X3_schedule_depends_on_topic_pieces :
  forall (a : Ambient) (t : ScoredTopic),
    let scr := generateScript a t in
    let c := splitCount (query t) in
    map (fun s => splitCount (text s)) (segments scr)
    = [ nth (randomIndex (hookDraw a) 5) [4; 10; 8; 7; 8] 0 + c;
        41 + c; 19 + c; 24; 21; 20 + c; 29 + c;
        nth (randomIndex (ctaDraw a) 3) [27; 31; 30] 0 ]
    /\ 78 <= estimatedDuration scr
    /\ 2 * Z.of_nat (List.length (segments scr)) < estimatedDuration scr.
Proof.
  intros a t scr c.
  destruct (generateScript_schedule a t) as [Hs He].
  assert (Hcounts :
    map (fun s => splitCount (text s)) (segments scr)
    = map (fun p => splitCount (snd (fst p))) (scriptPieces a t)).
  { unfold scr. rewrite Hs.
    rewrite <- (map_map text splitCount), scheduleFrom_texts.
    by rewrite map_map. }
  assert (Hlow : 78 <= estimatedDuration scr).
  { unfold scr. rewrite He, endFrom_sum, script_piece_counts.
    pose proof (splitCount_pos (query t)) as Hc.
    pose proof (Nat.mod_upper_bound (hookDraw a) 5 ltac:(lia)) as Hh.
    pose proof (Nat.mod_upper_bound (ctaDraw a) 3 ltac:(lia)) as Hk.
    unfold randomIndex.
    cbn [map fold_right].
    pose proof (duration_mono 5
                  (nth (hookDraw a mod 5) [4; 10; 8; 7; 8] 0
                   + splitCount (query t))) as M1.
    pose proof (duration_mono 42 (41 + splitCount (query t))) as M2.
    pose proof (duration_mono 20 (19 + splitCount (query t))) as M3.
    pose proof (duration_mono 21 (20 + splitCount (query t))) as M4.
    pose proof (duration_mono 30 (29 + splitCount (query t))) as M5.
    pose proof (duration_mono 27
                  (nth (ctaDraw a mod 3) [27; 31; 30] 0)) as M6.
    assert (H1 : 5 <= nth (hookDraw a mod 5) [4; 10; 8; 7; 8] 0
                      + splitCount (query t)).
    { destruct (hookDraw a mod 5)%nat as [| [| [| [| [| k]]]]];
        cbn [nth]; lia. }
    assert (H6 : 27 <= nth (ctaDraw a mod 3) [27; 31; 30] 0).
    { destruct (ctaDraw a mod 3)%nat as [| [| [| k]]]; cbn [nth]; lia. }
    specialize (M1 H1). specialize (M2 ltac:(lia)). specialize (M3 ltac:(lia)).
    specialize (M4 ltac:(lia)). specialize (M5 ltac:(lia)). specialize (M6 H6).
    change (calculateSegmentDuration 5) with 2 in M1.
    change (calculateSegmentDuration 42) with 17 in M2.
    change (calculateSegmentDuration 20) with 8 in M3.
    change (calculateSegmentDuration 21) with 9 in M4.
    change (calculateSegmentDuration 30) with 12 in M5.
    change (calculateSegmentDuration 27) with 11 in M6.
    change (calculateSegmentDuration 24) with 10.
    change (calculateSegmentDuration 21) with 9.
    lia. }
  split; [rewrite Hcounts; apply script_piece_counts |].
  split; [exact Hlow |].
  change (List.length (segments scr)) with 8%nat. lia.
Qed.

End TopicPieces.

(** ** Keywords *)

Section Keywords.
Import Text.

Lemma split_pieces_chars (p : ascii -> bool) (sep : ascii) (s : string) :
  allChars p s = true -> Forall (fun w => allChars p w = true) (split sep s).
Proof.
  induction s as [| c s IH]; intros Hs.
  - repeat constructor.
  - cbn [allChars] in Hs. apply andb_prop in Hs as [Hc Hs].
    specialize (IH Hs). cbn [split].
    destruct (Ascii.eqb c sep).
    + by constructor.
    + destruct (split sep s) as [| w ws].
      * repeat constructor. cbn. by rewrite Hc.
      * inversion IH as [| ? ? Hw Hws]; subst.
        constructor; [cbn; by rewrite Hc, Hw | exact Hws].
Qed.

Lemma split_pieces_no_sep (sep : ascii) (s : string) :
  Forall (fun w => allChars (fun c => negb (Ascii.eqb c sep)) w = true)
         (split sep s).
Proof.
  induction s as [| c s IH].
  - repeat constructor.
  - cbn [split]. destruct (Ascii.eqb c sep) eqn:E.
    + by constructor.
    + destruct (split sep s) as [| w ws].
      * repeat constructor. cbn. by rewrite E.
      * inversion IH as [| ? ? Hw Hws]; subst.
        constructor; [cbn; by rewrite E, Hw | exact Hws].
Qed.

Lemma lowerChar_idem (c : ascii) : lowerChar (lowerChar c) = lowerChar c.
Proof. destruct c as [[] [] [] [] [] [] [] []]; reflexivity. Qed.

Lemma toLowerCase_lower (s : string) :
  allChars (fun c => Ascii.eqb (lowerChar c) c) (toLowerCase s) = true.
Proof.
  induction s as [| c s IH]; [reflexivity |].
  cbn [toLowerCase allChars]. by rewrite lowerChar_idem, Ascii.eqb_refl, IH.
Qed.

Lemma lower_fixed (s : string) :
  allChars (fun c => Ascii.eqb (lowerChar c) c) s = true ->
  toLowerCase s = s.
Proof.
  induction s as [| c s IH]; [reflexivity |].
  cbn [allChars toLowerCase]. intros Hs.
  apply andb_prop in Hs as [Hc Hs]. apply Ascii.eqb_eq in Hc.
  by rewrite Hc, IH.
Qed.

Lemma filter_sublist {A} (f : A -> bool) (l : list A) :
  List.filter f l `sublist_of` l.
Proof.
  induction l as [| x l IH]; simpl; [constructor |].
  destruct (f x); by constructor.
Qed.

(** X4: [extractKeywords] returns at most ten keywords; they are pieces of
    the lower-cased query, in the order in which they occur there; each
    is longer than three characters, is no stop word, holds no space and
    is in lower case.  A query without such a piece has no keywords. *)
Theorem X4_keywords_are_filtered_lowercase_pieces :
  forall query : string,
    let keywords := extractKeywords query in
    (List.length keywords <= 10)%nat
    /\ keywords `sublist_of` split space (toLowerCase query)
    /\ Forall (fun k =>
                 3 < len k
                 /\ ~ In k stopWords
                 /\ allChars (fun c => negb (Ascii.eqb c space)) k = true
                 /\ toLowerCase k = k)
              keywords
    /\ (Forall (fun w => len w <= 3 \/ In w stopWords)
               (split space (toLowerCase query)) ->
        keywords = []).
Proof.
  intros query keywords. unfold keywords, extractKeywords.
  set (words := split space (toLowerCase query)).
  set (keep := fun word : string =>
                 (3 <? len word)
                 && negb (existsb (String.eqb word) stopWords)).
  assert (Hkeep : forall w, keep w = true <-> 3 < len w /\ ~ In w stopWords).
  { intros w. unfold keep. rewrite andb_true_iff, negb_true_iff, Z.ltb_lt.
    split; intros [Hl Hs]; (split; [exact Hl |]).
    - intros Hin. assert (existsb (String.eqb w) stopWords = true) as Ht.
      { apply existsb_exists. exists w. split; [exact Hin |].
        apply String.eqb_refl. }
      congruence.
    - destruct (existsb (String.eqb w) stopWords) eqn:E; [| reflexivity].
      apply existsb_exists in E as (x & Hx & Hwx).
      apply String.eqb_eq in Hwx. subst x. contradiction. }
  split; [rewrite length_take; unfold maxKeywords; lia |].
  split.
  { etransitivity; [apply sublist_take | apply filter_sublist]. }
  split.
  - apply Forall_take. apply Forall_forall. intros k Hk.
    apply list_elem_of_In in Hk. apply filter_In in Hk as [Hin Hf].
    apply Hkeep in Hf as [Hl Hs].
    split; [exact Hl |]. split; [exact Hs |].
    apply list_elem_of_In in Hin.
    pose proof (split_pieces_no_sep space (toLowerCase query)) as Hn.
    pose proof (split_pieces_chars _ space _ (toLowerCase_lower query)) as Hc.
    fold words in Hn, Hc.
    rewrite Forall_forall in Hn, Hc.
    split; [apply Hn, Hin | apply lower_fixed, Hc, Hin].
  - intros Hnone.
    assert (Hf : List.filter keep words = []).
    { induction words as [| w ws IH]; [reflexivity |].
      inversion Hnone as [| ? ? Hw Hws]; subst. cbn [List.filter].
      destruct (keep w) eqn:E; [| by apply IH].
      apply Hkeep in E as [Hl Hs]. destruct Hw; [lia | contradiction]. }
    by rewrite Hf.
Qed.

End Keywords.

(* ===================================================================== *)
(** * Further properties of the video generator *)
(* ===================================================================== *)

(** ** The label drawn on a segment image *)

Section SegmentLabel.
Import Text Ladder.

Lemma stripNonWordSpace_chars (s : string) :
  allChars (fun c => isWordChar c || isSpaceChar c) (stripNonWordSpace s)
  = true.
Proof.
  induction s as [| c s IH]; [reflexivity |].
  cbn [stripNonWordSpace].
  destruct (isWordChar c || isSpaceChar c) eqn:E; [| exact IH].
  cbn [allChars]. by rewrite E, IH.
Qed.

Lemma stripNonWordSpace_length (s : string) :
  (String.length (stripNonWordSpace s) <= String.length s)%nat.
Proof.
  induction s as [| c s IH]; [reflexivity |].
  cbn [stripNonWordSpace].
  destruct (isWordChar c || isSpaceChar c); simpl; lia.
Qed.

Lemma stripNonWordSpace_fixed (s : string) :
  allChars (fun c => isWordChar c || isSpaceChar c) s = true ->
  stripNonWordSpace s = s.
Proof.
  induction s as [| c s IH]; [reflexivity |].
  cbn [allChars stripNonWordSpace]. intros Hs.
  apply andb_prop in Hs as [Hc Hs]. by rewrite Hc, IH.
Qed.

Lemma word_or_space_inactive (c : ascii) :
  isWordChar c || isSpaceChar c = true -> isShellActive c = false.
Proof. destruct c as [[] [] [] [] [] [] [] []]; vm_compute; congruence. Qed.

Lemma allChars_impl (p q : ascii -> bool) (s : string) :
  (forall c, p c = true -> q c = true) ->
  allChars p s = true -> allChars q s = true.
Proof.
  intros Hpq. induction s as [| c s IH]; [reflexivity |].
  cbn [allChars]. intros Hs. apply andb_prop in Hs as [Hc Hs].
  by rewrite (Hpq c Hc), IH.
Qed.

(** X5: the text that [createSegmentImage] puts between the double quotes
    of the rasterizer command is the first 100 characters of the segment
    text without everything that is neither a word character nor white
    space: it has at most 100 characters, all of them word characters or
    white space, so no double quote, dollar sign, backslash or backquote;
    a text of at most 100 such characters is passed unchanged. *)
Theorem X5_segment_label_is_sanitized :
  forall (segment : ScriptSegment) (outputPath : string) (index : nat),
    let label := stripNonWordSpace (substring0 100 (text segment)) in
    rasterCommand segment outputPath index
    = ("convert -size 1920x1080 xc:"
         +:+ Video.getSegmentColor (typeName (type segment)) +:+ " "
         +:+ "      -font Arial -pointsize 72 -fill white -gravity center "
         +:+ "      -annotate +0+0 " +:+ dq +:+ "Segment "
         +:+ toString (Z.of_nat index + 1) +:+ "\n"
         +:+ typeName (type segment) +:+ "\n\n")
        +:+ label +:+ (dq +:+ " " +:+ "      " +:+ dq +:+ outputPath +:+ dq)
    /\ (String.length label <= 100)%nat
    /\ allChars (fun c => isWordChar c || isSpaceChar c) label = true
    /\ allChars (fun c => negb (isShellActive c)) label = true
    /\ (allChars (fun c => isWordChar c || isSpaceChar c) (text segment)
          = true ->
        (String.length (text segment) <= 100)%nat ->
        label = text segment).
Proof.
  intros segment outputPath index label.
  split; [unfold rasterCommand; fold label; by rewrite !append_assoc |].
  split.
  { unfold label.
    pose proof (stripNonWordSpace_length (substring0 100 (text segment))).
    rewrite length_substring0 in *. lia. }
  split; [apply stripNonWordSpace_chars |].
  split.
  - apply (allChars_impl (fun c => isWordChar c || isSpaceChar c));
      [| apply stripNonWordSpace_chars].
    intros c Hc. by rewrite (word_or_space_inactive c Hc).
  - intros Hchars Hlen. unfold label.
    rewrite (substring0_all 100 _ Hlen). by apply stripNonWordSpace_fixed.
Qed.

End SegmentLabel.

(** ** Colour tables *)

Section ColourTables.
Import Video Thumbnail.

Ltac missing_key :=
  rewrite not_elem_of_list_to_map_1;
  [| cbn [fmap list_fmap fst]; rewrite !not_elem_of_cons;
     repeat split; try congruence; apply not_elem_of_nil].

(** X6: for a type that names none of the properties an object literal
    inherits, [getSegmentColor] gives the five segment kinds their five
    colours and every other string the colour [black]; so [black] is
    returned exactly for a type that is none of the five.  The kinds of
    segments are such types. *)
Theorem X6_unknown_segment_type_is_black :
  forall type : string,
    ~ In type inheritedKeys ->
    (getSegmentColor type = "black"
     <-> ~ In type ["hook"; "context"; "explanation"; "summary"; "cta"])
    /\ (forall t : SegmentType,
          getSegmentColor (typeName t) <> "black"
          /\ ~ In (typeName t) inheritedKeys)
    /\ getSegmentColor EmptyString = "black".
Proof.
  intros type _. split; [| split].
  - unfold getSegmentColor, segmentColors.
    destruct (decide (type = "hook")) as [-> | N1];
      [vm_compute; split; [discriminate | intros Hn; destruct Hn; tauto] |].
    destruct (decide (type = "context")) as [-> | N2];
      [vm_compute; split; [discriminate | intros Hn; destruct Hn; tauto] |].
    destruct (decide (type = "explanation")) as [-> | N3];
      [vm_compute; split; [discriminate | intros Hn; destruct Hn; tauto] |].
    destruct (decide (type = "summary")) as [-> | N4];
      [vm_compute; split; [discriminate | intros Hn; destruct Hn; tauto] |].
    destruct (decide (type = "cta")) as [-> | N5];
      [vm_compute; split; [discriminate | intros Hn; destruct Hn; tauto] |].
    missing_key. cbn [default]. split; [| reflexivity].
    intros _ Hin. cbn [In] in Hin.
    destruct Hin as [<- | [<- | [<- | [<- | [<- | []]]]]]; congruence.
  - intros []; (split; [vm_compute; discriminate |]);
      intros Hin; cbn [In inheritedKeys typeName] in Hin;
      repeat (destruct Hin as [Hin | Hin]; [discriminate Hin |]);
      exact Hin.
  - vm_compute. reflexivity.
Qed.

(** X7: for a style that names none of the properties an object literal
    inherits, [getColorScheme] knows the styles [minimal], [bold],
    [contrast] and [gradient]; every other style, the empty one included,
    is drawn with the scheme of [bold], and only [bold] and unknown
    styles are. *)
Theorem X7_unknown_style_is_bold :
  forall style : string,
    ~ In style inheritedKeys ->
    (getColorScheme style = schemeBold
     <-> ~ In style ["minimal"; "contrast"; "gradient"])
    /\ accent (getColorScheme "minimal") = "#333333"
    /\ accent (getColorScheme "contrast") = "#FFC107"
    /\ accent (getColorScheme "gradient") = "#673AB7"
    /\ accent (getColorScheme "bold") = "#FF5722".
Proof.
  intros style _. split; [| repeat split; vm_compute; reflexivity].
  unfold getColorScheme, schemes.
  destruct (decide (style = "minimal")) as [-> | N1];
    [vm_compute; split; [discriminate | intros Hn; destruct Hn; tauto] |].
  destruct (decide (style = "contrast")) as [-> | N2];
    [vm_compute; split; [discriminate | intros Hn; destruct Hn; tauto] |].
  destruct (decide (style = "gradient")) as [-> | N3];
    [vm_compute; split; [discriminate | intros Hn; destruct Hn; tauto] |].
  split.
  - intros _ Hin. cbn [In] in Hin.
    destruct Hin as [<- | [<- | [<- | []]]]; congruence.
  - intros _. destruct (decide (style = "bold")) as [-> | N4];
      [vm_compute; reflexivity |].
    missing_key. reflexivity.
Qed.

End ColourTables.

(** X6 at a type that is no segment kind. *)
Lemma X6_witness :
  (Video.getSegmentColor "intro" = "black"
   <-> ~ In "intro" ["hook"; "context"; "explanation"; "summary"; "cta"])
  /\ (forall t : SegmentType,
        Video.getSegmentColor (typeName t) <> "black"
        /\ ~ In (typeName t) inheritedKeys)
  /\ Video.getSegmentColor EmptyString = "black".
Proof.
  apply (X6_unknown_segment_type_is_black "intro").
  intros Hin. cbn [In inheritedKeys] in Hin.
  repeat (destruct Hin as [Hin | Hin]; [discriminate Hin |]).
  exact Hin.
Defined.

(** X7 at a style the table does not know. *)
Lemma X7_witness :
  (Thumbnail.getColorScheme "neon" = Thumbnail.schemeBold
   <-> ~ In "neon" ["minimal"; "contrast"; "gradient"])
  /\ Thumbnail.accent (Thumbnail.getColorScheme "minimal") = "#333333"
  /\ Thumbnail.accent (Thumbnail.getColorScheme "contrast") = "#FFC107"
  /\ Thumbnail.accent (Thumbnail.getColorScheme "gradient") = "#673AB7"
  /\ Thumbnail.accent (Thumbnail.getColorScheme "bold") = "#FF5722".
Proof.
  apply (X7_unknown_style_is_bold "neon").
  intros Hin. cbn [In inheritedKeys] in Hin.
  repeat (destruct Hin as [Hin | Hin]; [discriminate Hin |]).
  exact Hin.
Defined.

(** ** The commands of a video run, in order *)

Section VideoCalls.
Import Video RenderGraph Ladder.
Context `{Platform}.
Variable this : VideoGenerator.

Lemma createSegmentImage_run (segment : ScriptSegment) (path : string)
    (index : nat) (w : World) :
  let c1 := plain (rasterCommand segment path index) in
  let c2 := plain (flatFrameCommand segment path) in
  createSegmentImage segment path index w = (Ok tt, after c1 w)
  \/ (exists r,
        createSegmentImage segment path index w
          = (r, after c2 (after c1 w))
        /\ (r = Ok tt \/ exists why, r = Throw (ExecError (command c2) why))).
Proof.
  intros c1 c2.
  change (createSegmentImage segment path index w)
    with (tryCatch (exec (command c1) None)
            (fun _ => exec (command c2) None) w).
  unfold tryCatch. rewrite exec_after.
  change {| command := command c1; timeout := None |} with c1.
  destruct (failed c1 w) as [why |]; [| by left].
  right. rewrite exec_after.
  change {| command := command c2; timeout := None |} with c2.
  eexists. split; [reflexivity |].
  destruct (failed c2 (after c1 w)) as [why2 |]; [right; by eexists | by left].
Qed.

Lemma prepareFrom_calls (scr : GeneratedScript) (rest : list ScriptSegment) :
  forall i acc w r w',
    prepareFrom this scr i rest acc w = (r, w') ->
    exists new,
      calls w' = calls w ++ new
      /\ Forall (fun c => timeout c = None) new
      /\ (List.length new <= 2 * List.length rest)%nat
      /\ (forall assets, r = Ok assets ->
            (List.length rest <= List.length new)%nat)
      /\ (forall e, r = Throw e ->
            exists segment j why,
              In segment rest
              /\ e = ExecError
                       (flatFrameCommand segment (assetPathOf this scr j))
                       why).
Proof.
  induction rest as [| segment rest IH]; intros i acc w r w' Hrun.
  - cbn in Hrun. injection Hrun as <- <-. exists [].
    rewrite app_nil_r.
    repeat split; try constructor; try discriminate; try (simpl; lia).
  - cbn [prepareFrom] in Hrun. unfold bind at 1 in Hrun.
    fold (assetPathOf this scr i) in Hrun.
    destruct (createSegmentImage_run segment (assetPathOf this scr i) i w)
      as [Hone | (r1 & Htwo & Hr1)].
    + rewrite Hone in Hrun. apply IH in Hrun
        as (new & Hc & Hall & Hlen & Hok & Hthrow).
      eexists (_ :: new). split; [| split; [| split; [| split]]].
      * rewrite Hc. cbn [after calls]. by rewrite <- app_assoc.
      * constructor; [reflexivity | exact Hall].
      * cbn [List.length]. lia.
      * intros assets Hr. specialize (Hok assets Hr). cbn [List.length]. lia.
      * intros e Hr. destruct (Hthrow e Hr) as (s & j & why & Hin & He).
        exists s, j, why. split; [by right | exact He].
    + rewrite Htwo in Hrun. destruct Hr1 as [-> | [why ->]].
      * apply IH in Hrun as (new & Hc & Hall & Hlen & Hok & Hthrow).
        eexists (_ :: _ :: new). split; [| split; [| split; [| split]]].
        -- rewrite Hc. cbn [after calls]. by rewrite <- !app_assoc.
        -- repeat constructor; exact Hall.
        -- cbn [List.length]. lia.
        -- intros assets Hr. specialize (Hok assets Hr).
           cbn [List.length]. lia.
        -- intros e Hr. destruct (Hthrow e Hr) as (s & j & why & Hin & He).
           exists s, j, why. split; [by right | exact He].
      * injection Hrun as <- <-.
        eexists [_; _]. split; [| split; [| split; [| split]]].
        -- cbn [after calls]. by rewrite <- !app_assoc.
        -- repeat constructor.
        -- cbn [List.length]. lia.
        -- discriminate.
        -- intros e [= <-]. exists segment, i, why.
           split; [by left | reflexivity].
Qed.

(** X8: for a script of [n] segments [prepareAssets] runs between one and
    two commands per segment it reaches, none with a timeout; when it
    resolves it has run at least [n] commands and returns the [n] image
    paths of segments [0 .. n-1]; when it rejects, the error is the failure
    of the flat-frame command of one of the segments. *)
Theorem X8_assets_take_one_or_two_commands_each :
  forall (scr : GeneratedScript) (w : World),
    let r := fst (prepareAssets this scr w) in
    let w' := snd (prepareAssets this scr w) in
    let n := List.length (segments scr) in
    exists new,
      calls w' = calls w ++ new
      /\ Forall (fun c => timeout c = None) new
      /\ (List.length new <= 2 * n)%nat
      /\ (forall assets,
            r = Ok assets ->
            (n <= List.length new)%nat
            /\ assets = map (assetPathOf this scr) (seq 0 n))
      /\ (forall e,
            r = Throw e ->
            exists segment j why,
              In segment (segments scr)
              /\ e = ExecError
                       (flatFrameCommand segment (assetPathOf this scr j))
                       why).
Proof.
  intros scr w r w' n.
  destruct (prepareAssets this scr w) as [r0 w0] eqn:Hrun.
  unfold r, w'. cbn [fst snd].
  destruct (prepareFrom_calls scr _ _ _ _ _ _ Hrun)
    as (new & Hc & Hall & Hlen & Hok & Hthrow).
  exists new. repeat split; try assumption.
  - by apply Hok with assets.
  - subst r0.
    apply (prepareFrom_paths this scr _ 0%nat [] w assets w0 Hrun).
Qed.

Lemma prepareFrom_groups (scr : GeneratedScript)
    (rest : list ScriptSegment) :
  forall i acc w r w',
    prepareFrom this scr i rest acc w = (r, w') ->
    exists groups : list (list Call),
      calls w' = calls w ++ List.concat groups
      /\ (List.length groups <= List.length rest)%nat
      /\ (forall j g,
            groups !! j = Some g ->
            exists segment,
              rest !! j = Some segment
              /\ (g = [plain (rasterCommand segment
                                (assetPathOf this scr (i + j)) (i + j))]
                  \/ g = [plain (rasterCommand segment
                                   (assetPathOf this scr (i + j)) (i + j));
                          plain (flatFrameCommand segment
                                   (assetPathOf this scr (i + j)))]))
      /\ (forall assets,
            r = Ok assets -> List.length groups = List.length rest)
      /\ (forall e,
            r = Throw e ->
            exists j segment why,
              rest !! j = Some segment
              /\ List.length groups = S j
              /\ groups !! j
                 = Some [plain (rasterCommand segment
                                  (assetPathOf this scr (i + j)) (i + j));
                         plain (flatFrameCommand segment
                                  (assetPathOf this scr (i + j)))]
              /\ e = ExecError
                       (flatFrameCommand segment
                          (assetPathOf this scr (i + j)))
                       why).
Proof.
  induction rest as [| segment rest IH]; intros i acc w r w' Hrun.
  - cbn in Hrun. injection Hrun as <- <-. exists [].
    split; [by rewrite app_nil_r |]. split; [reflexivity |].
    split; [intros j g Hj; destruct j; discriminate |].
    split; [reflexivity | discriminate].
  - cbn [prepareFrom] in Hrun. unfold bind at 1 in Hrun.
    fold (assetPathOf this scr i) in Hrun.
    set (c1 := plain (rasterCommand segment (assetPathOf this scr i) i)).
    set (c2 := plain (flatFrameCommand segment (assetPathOf this scr i))).
    assert (Hhead : forall g : list Call,
              g = [c1] \/ g = [c1; c2] ->
              exists s0,
                (segment :: rest) !! 0%nat = Some s0
                /\ (g = [plain (rasterCommand s0
                                  (assetPathOf this scr (i + 0)) (i + 0))]
                    \/ g = [plain (rasterCommand s0
                                     (assetPathOf this scr (i + 0)) (i + 0));
                            plain (flatFrameCommand s0
                                     (assetPathOf this scr (i + 0)))])).
    { intros g Hg. exists segment. split; [reflexivity |].
      rewrite Nat.add_0_r. exact Hg. }
    assert (Htail : forall (groups : list (list Call)) j g,
              (forall j g,
                 groups !! j = Some g ->
                 exists s0,
                   rest !! j = Some s0
                   /\ (g = [plain (rasterCommand s0
                                     (assetPathOf this scr (S i + j))
                                     (S i + j))]
                       \/ g = [plain (rasterCommand s0
                                        (assetPathOf this scr (S i + j))
                                        (S i + j));
                               plain (flatFrameCommand s0
                                        (assetPathOf this scr (S i + j)))])) ->
              groups !! j = Some g ->
              exists s0,
                (segment :: rest) !! S j = Some s0
                /\ (g = [plain (rasterCommand s0
                                  (assetPathOf this scr (i + S j))
                                  (i + S j))]
                    \/ g = [plain (rasterCommand s0
                                     (assetPathOf this scr (i + S j))
                                     (i + S j));
                            plain (flatFrameCommand s0
                                     (assetPathOf this scr (i + S j)))])).
    { intros groups j g Hg Hj. rewrite Nat.add_succ_r.
      exact (Hg j g Hj). }
    destruct (createSegmentImage_run segment (assetPathOf this scr i) i w)
      as [Hone | (r1 & Htwo & Hr1)].
    + rewrite Hone in Hrun. apply IH in Hrun
        as (groups & Hc & Hlen & Hg & Hok & Hthrow).
      exists ([c1] :: groups).
      split; [| split; [| split; [| split]]].
      * rewrite Hc. cbn [after calls List.concat]. by rewrite <- app_assoc.
      * cbn [List.length]. lia.
      * intros [| j] g Hj.
        -- injection Hj as <-. apply Hhead. by left.
        -- exact (Htail groups j g Hg Hj).
      * intros assets Hr. cbn [List.length]. by rewrite (Hok assets Hr).
      * intros e Hr.
        destruct (Hthrow e Hr) as (j & s0 & why & Hs0 & Hl & Hj & He).
        exists (S j), s0, why. rewrite Nat.add_succ_r.
        split; [exact Hs0 |]. split; [cbn [List.length]; by rewrite Hl |].
        split; [exact Hj | exact He].
    + rewrite Htwo in Hrun. destruct Hr1 as [-> | [why ->]].
      * apply IH in Hrun as (groups & Hc & Hlen & Hg & Hok & Hthrow).
        exists ([c1; c2] :: groups).
        split; [| split; [| split; [| split]]].
        -- rewrite Hc. cbn [after calls List.concat].
           by rewrite <- !app_assoc.
        -- cbn [List.length]. lia.
        -- intros [| j] g Hj.
           ++ injection Hj as <-. apply Hhead. by right.
           ++ exact (Htail groups j g Hg Hj).
        -- intros assets Hr. cbn [List.length]. by rewrite (Hok assets Hr).
        -- intros e Hr.
           destruct (Hthrow e Hr) as (j & s0 & why & Hs0 & Hl & Hj & He).
           exists (S j), s0, why. rewrite Nat.add_succ_r.
           split; [exact Hs0 |]. split; [cbn [List.length]; by rewrite Hl |].
           split; [exact Hj | exact He].
      * injection Hrun as <- <-.
        exists [[c1; c2]].
        split; [| split; [| split; [| split]]].
        -- cbn [after calls List.concat]. by rewrite <- !app_assoc.
        -- cbn [List.length]. lia.
        -- intros [| j] g Hj; [| destruct j; discriminate].
           injection Hj as <-. apply Hhead. by right.
        -- discriminate.
        -- intros e [= <-]. exists 0%nat, segment, why.
           rewrite Nat.add_0_r.
           split; [reflexivity |]. split; [reflexivity |].
           split; reflexivity.
Qed.

(** X9: a run of [generateVideo] first makes, for the segments in their
    order, the rasterizer call and, where [createSegmentImage] went on to
    it, the flat-frame call of that segment, and nothing else.  If the
    provisioning rejects, which it does with the failure of the
    flat-frame call it made last, [generateVideo] rejects with that very
    error and has done nothing more.  If the provisioning resolves, every
    segment has had its calls; if then the caption file cannot be
    written, [generateVideo] rejects with the write error and has run no
    further command; otherwise the caption file holds the caption
    document and the renderer is called, once, with the render timeout,
    as the last command of the run, and a failure of that call is the
    error of the run. *)
Theorem X9_renderer_runs_last_and_only_when_prepared :
  forall (options : VideoGenerationOptions) (w : World),
    let scr := script options in
    let n := List.length (segments scr) in
    let captionsPath :=
      pathJoin [outputDir this; id scr +:+ "_captions.srt"] in
    let ra := fst (prepareAssets this scr w) in
    let wa := snd (prepareAssets this scr w) in
    let w1 :=
      {| files := <[captionsPath := captionsDocument (segments scr)]>
                    (files wa);
         calls := calls wa; clock := clock wa; draws := draws wa |} in
    let raster := fun (i : nat) (segment : ScriptSegment) =>
      plain (rasterCommand segment (assetPathOf this scr i) i) in
    let flat := fun (i : nat) (segment : ScriptSegment) =>
      plain (flatFrameCommand segment (assetPathOf this scr i)) in
    exists groups : list (list Call),
      calls wa = calls w ++ List.concat groups
      /\ (forall j g,
            groups !! j = Some g ->
            exists segment,
              segments scr !! j = Some segment
              /\ (g = [raster j segment]
                  \/ g = [raster j segment; flat j segment]))
      /\ (forall e,
            ra = Throw e ->
            generateVideo this options w = (Throw e, wa)
            /\ exists j segment why,
                 segments scr !! j = Some segment
                 /\ List.length groups = S j
                 /\ groups !! j = Some [raster j segment; flat j segment]
                 /\ e = ExecError (command (flat j segment)) why)
      /\ (forall assets,
            ra = Ok assets ->
            List.length groups = n
            /\ (writeRefused captionsPath wa = true ->
                generateVideo this options w
                = (Throw (FsError "writeFile" captionsPath), wa))
            /\ (writeRefused captionsPath wa = false ->
                let call :=
                  {| command :=
                       commandOf (musicIn this w1)
                         (requestOf this options assets captionsPath);
                     timeout := Some renderTimeout |} in
                snd (generateVideo this options w) = after call w1
                /\ calls (snd (generateVideo this options w))
                   = calls w ++ List.concat groups ++ [call]
                /\ files w1 !! captionsPath
                   = Some (captionsDocument (segments scr))
                /\ (forall why,
                      failed call w1 = Some why ->
                      fst (generateVideo this options w)
                      = Throw (ExecError (command call) why)))).
Proof.
  intros options w scr n captionsPath ra wa w1 raster flat.
  subst w1 ra wa.
  unfold generateVideo. fold scr. unfold tryCatch, bind.
  destruct (prepareAssets this scr w) as [r0 w0] eqn:Ha.
  destruct (prepareFrom_groups scr _ _ _ _ _ _ Ha)
    as (groups & Hc & Hlen & Hg & Hok & Hthrow).
  cbn [fst snd].
  exists groups. split; [exact Hc |]. split; [exact Hg |].
  split.
  { intros e ->. split; [reflexivity |]. exact (Hthrow e eq_refl). }
  intros assets ->. split; [exact (Hok assets eq_refl) |].
  unfold generateCaptions, bind, writeFile. fold captionsPath.
  split; [by intros -> |].
  intros ->. unfold ret. rewrite renderWithFFmpeg_run, exec_after.
  set (w1 := {| files := <[captionsPath := captionsDocument (segments scr)]>
                           (files w0);
                calls := calls w0; clock := clock w0; draws := draws w0 |}).
  set (call := {| command := _; timeout := Some renderTimeout |}).
  match goal with
  | |- ?run = after call w1 /\ _ => assert (Hw : run = after call w1)
  end.
  { destruct (failed call w1) as [why |]; [reflexivity |].
    unfold statSize.
    destruct (files (after call w1) !! pathJoin [outputDir this; _])
      as [c |]; [| reflexivity].
    by destruct (len c =? 0). }
  split; [exact Hw |].
  split.
  { rewrite Hw. cbn [after calls]. subst w1. cbn [calls].
    by rewrite Hc, <- app_assoc. }
  split; [apply lookup_insert_eq |].
  intros why Hwhy. by rewrite Hwhy.
Qed.

End VideoCalls.

(** ** Timestamps can be read back *)

Section TimestampRoundTrip.
Import Video Captions Text.

Lemma split_no_sep (sep : ascii) (s : string) :
  allChars (fun c => negb (Ascii.eqb c sep)) s = true ->
  split sep s = [s].
Proof.
  induction s as [| c s IH]; [reflexivity |].
  cbn [allChars split]. intros Hs. apply andb_prop in Hs as [Hc Hs].
  apply negb_true_iff in Hc. by rewrite Hc, (IH Hs).
Qed.

Lemma split_app_sep (sep : ascii) (a b : string) :
  allChars (fun c => negb (Ascii.eqb c sep)) a = true ->
  split sep (a +:+ String sep b) = a :: split sep b.
Proof.
  induction a as [| c a IH].
  - intros _. change (EmptyString +:+ String sep b) with (String sep b).
    cbn [split]. by rewrite Ascii.eqb_refl.
  - cbn [allChars]. intros Hs. apply andb_prop in Hs as [Hc Hs].
    apply negb_true_iff in Hc.
    rewrite append_cons. cbn [split]. by rewrite Hc, (IH Hs).
Qed.

Lemma allChars_app (p : ascii -> bool) (a b : string) :
  allChars p (a +:+ b) = allChars p a && allChars p b.
Proof.
  induction a as [| c a IH]; [reflexivity |].
  rewrite append_cons. cbn [allChars]. by rewrite IH, andb_assoc.
Qed.

Lemma digits_no_punct (sep : ascii) (s : string) :
  isDigit sep = false ->
  allDigits s = true ->
  allChars (fun c => negb (Ascii.eqb c sep)) s = true.
Proof.
  intros Hsep. induction s as [| c s IH]; [reflexivity |].
  cbn [allDigits allChars]. intros Hs. apply andb_prop in Hs as [Hc Hs].
  rewrite (IH Hs), andb_true_r. apply negb_true_iff.
  destruct (Ascii.eqb_spec c sep) as [-> |]; [congruence | reflexivity].
Qed.

Lemma int_of_digits (s : string) :
  allDigits s = true ->
  NilEmpty.int_of_string s = option_map Decimal.Pos (NilEmpty.uint_of_string s).
Proof.
  destruct s as [| c s]; [reflexivity |].
  cbn [allDigits]. intros Hs. apply andb_prop in Hs as [Hc _].
  unfold NilEmpty.int_of_string.
  destruct (Ascii.eqb_spec c "-") as [-> |]; [discriminate | reflexivity].
Qed.

Lemma uint_of_padded (m : nat) (d : Decimal.uint) :
  exists d',
    NilEmpty.uint_of_string (repeatChar "0" m +:+ NilEmpty.string_of_uint d)
    = Some d'
    /\ Z.of_uint d' = Z.of_uint d.
Proof.
  induction m as [| m (d' & Hd & Hz)].
  - exists d. split; [apply NilEmpty.usu | reflexivity].
  - exists (Decimal.D0 d'). cbn [repeatChar]. rewrite append_cons.
    cbn [NilEmpty.uint_of_string]. rewrite Hd. split; [reflexivity |].
    exact Hz.
Qed.

Lemma readNumber_padded (k : nat) (n : Z) :
  0 <= n -> readNumber (padStart k "0" (toString n)) = Some n.
Proof.
  intros Hn. unfold readNumber.
  rewrite int_of_digits by (apply padStart_digits, toString_digits, Hn).
  unfold padStart, toString.
  assert (Hd : exists d, Z.to_int n = Decimal.Pos d /\ Z.of_uint d = n).
  { pose proof (DecimalZ.of_to n) as Hz.
    destruct n as [| p | p]; [| | lia]; eexists; (split; [reflexivity |]);
      exact Hz. }
  destruct Hd as (d & Hd & Hz). rewrite Hd.
  cbn [NilEmpty.string_of_int].
  destruct (uint_of_padded (k - String.length (NilEmpty.string_of_uint d)) d)
    as (d' & Hp & Hz').
  rewrite Hp. cbn [option_map]. f_equal. cbn [Z.of_int]. congruence.
Qed.

Lemma formatTime_read (s : Z) :
  0 <= s -> readTimestamp (formatTime s) = Some (s, 0).
Proof.
  intros Hs. unfold readTimestamp, formatTime.
  set (hh := padStart 2 "0" (toString (s / 3600))).
  set (mm := padStart 2 "0" (toString (Z.rem s 3600 / 60))).
  set (ss := padStart 2 "0" (toString (Z.rem s 60))).
  set (ms := padStart 3 "0" (toString (Z.rem s 1 * 1000))).
  pose proof (Z.rem_bound_pos s 3600 ltac:(lia) ltac:(lia)) as B1.
  pose proof (Z.rem_bound_pos s 60 ltac:(lia) ltac:(lia)) as B2.
  assert (H0 : 0 <= s / 3600) by (apply Z.div_pos; lia).
  assert (H1 : 0 <= Z.rem s 3600 / 60) by (apply Z.div_pos; lia).
  assert (Hms : ms = "000")
    by (unfold ms; rewrite Z.rem_1_r; reflexivity).
  assert (Dh : allDigits hh = true)
    by (apply padStart_digits, toString_digits, H0).
  assert (Dm : allDigits mm = true)
    by (apply padStart_digits, toString_digits, H1).
  assert (Ds : allDigits ss = true)
    by (apply padStart_digits, toString_digits; lia).
  change (hh +:+ ":" +:+ mm +:+ ":" +:+ ss +:+ "," +:+ ms)
    with (hh +:+ String ":" (mm +:+ String ":" (ss +:+ String "," ms))).
  rewrite (split_app_sep ":" hh) by (by apply digits_no_punct).
  rewrite (split_app_sep ":" mm) by (by apply digits_no_punct).
  rewrite (split_no_sep ":" (ss +:+ String "," ms)).
  2:{ change (ss +:+ String "," ms) with (ss +:+ ("," +:+ ms)).
      rewrite allChars_app, (digits_no_punct ":" ss) by done.
      by rewrite Hms. }
  rewrite (split_app_sep "," ss) by (by apply digits_no_punct).
  rewrite (split_no_sep "," ms) by (by rewrite Hms).
  unfold hh, mm, ss. rewrite !readNumber_padded by lia.
  rewrite Hms. change (readNumber "000") with (Some 0).
  f_equal. f_equal.
  rewrite !Z.rem_mod_nonneg by lia.
  pose proof (Z.div_mod s 3600 ltac:(lia)) as E1.
  pose proof (Z.div_mod (s mod 3600) 60 ltac:(lia)) as E2.
  assert (E3 : s mod 60 = (s mod 3600) mod 60).
  { symmetry. apply Z.mod_mod_divide. exists 60. reflexivity. }
  lia.
Qed.

(** X10: a timestamp written by [formatTime] for a whole number of
    seconds from 0 up to the largest integer a number holds exactly
    reads back as exactly that number of seconds and 0 milliseconds; so
    within that range two different offsets never get the same
    timestamp. *)
Theorem X10_timestamp_reads_back :
  forall s : Z,
    0 <= s <= maxSafeInteger ->
    readTimestamp (formatTime s) = Some (s, 0)
    /\ (forall s' : Z,
          0 <= s' <= maxSafeInteger ->
          formatTime s = formatTime s' -> s = s').
Proof.
  intros s [Hs _]. split; [by apply formatTime_read |].
  intros s' [Hs' _] Heq.
  pose proof (formatTime_read s Hs) as R1.
  pose proof (formatTime_read s' Hs') as R2.
  rewrite Heq in R1. congruence.
Qed.

Lemma formatTime_parts (s : Z) :
  0 <= s ->
  formatTime s
  = padStart 2 "0" (toString (s / 3600)) +:+ ":"
      +:+ padStart 2 "0" (toString (s mod 3600 / 60)) +:+ ":"
      +:+ padStart 2 "0" (toString (s mod 60)) +:+ ",000".
Proof.
  intros Hs. unfold formatTime.
  rewrite Z.rem_1_r, !Z.rem_mod_nonneg by lia.
  reflexivity.
Qed.

Lemma cueBlocks_imap (segs : list ScriptSegment) :
  forall k,
    map cueBlock (cuesFrom k segs)
    = imap (fun i seg =>
              toString (Z.of_nat i + k) +:+ nl
                +:+ formatTime (startTime seg) +:+ " --> "
                +:+ formatTime (endTime seg) +:+ nl
                +:+ text seg +:+ nl +:+ nl)
           segs.
Proof.
  induction segs as [| s rest IH]; intros k; [reflexivity |].
  cbn [cuesFrom map imap]. apply (f_equal2 cons); [reflexivity |].
  rewrite IH. apply imap_ext. intros i x _. cbn [compose].
  replace (Z.of_nat i + (k + 1)) with (Z.of_nat (S i) + k) by lia.
  reflexivity.
Qed.

End TimestampRoundTrip.

(** X10 at one hour, two minutes and five seconds. *)
Lemma X10_witness :
  Text.readTimestamp (Video.formatTime 3725) = Some (3725, 0)
  /\ (forall s' : Z,
        0 <= s' <= maxSafeInteger ->
        Video.formatTime 3725 = Video.formatTime s' -> 3725 = s').
Proof.
  apply (X10_timestamp_reads_back 3725).
  split; [lia | apply Z.leb_le; reflexivity].
Defined.

(** ** The caption file *)

Section CaptionFile.
Import Video Captions Text.
Context `{Platform}.

(** C2: the caption track has exactly one cue per segment, numbered
    from 1 in segment order, each with the start and end offset of its
    segment.  The document written to the caption file is, segment by
    segment in that order, the block of the cue number, the line
    [start --> end] and the text, where [start] and [end] are the
    timestamps of the segment's own offsets.  For an offset of a whole
    number of seconds from 0 up to the largest integer a number holds
    exactly, the timestamp is hours:minutes:seconds,milliseconds with
    the hours, the minutes and the seconds of the offset in decimal
    digits, hours padded to at least two digits, minutes and seconds to
    exactly two, and milliseconds [000]; read back, it denotes exactly
    the offset.  Below one hundred hours it has the shape
    HH:MM:SS,mmm. *)
Theorem C2_one_cue_per_segment :
  forall (this : VideoGenerator) (scr : GeneratedScript)
         (videoId : string) (w : World),
    let segs := segments scr in
    let cues := cuesOf segs in
    let path := pathJoin [outputDir this; videoId +:+ "_captions.srt"] in
    let range := fun seg : ScriptSegment =>
      formatTime (startTime seg) +:+ " --> " +:+ formatTime (endTime seg) in
    let block := fun (i : nat) (seg : ScriptSegment) =>
      toString (Z.of_nat i + 1) +:+ nl
        +:+ range seg +:+ nl
        +:+ text seg +:+ nl +:+ nl in
    (* one cue per segment, numbered from 1, with the segment's offsets *)
    List.length cues = List.length segs
    /\ (forall i seg,
          segs !! i = Some seg ->
          cues !! i
          = Some {| index := Z.of_nat i + 1;
                    startOffsetSeconds := startTime seg;
                    endOffsetSeconds := endTime seg;
                    cueText := text seg |})
    (* the document is the blocks of the segments, in order *)
    /\ captionsDocument segs = Js.concat (imap block segs)
    /\ (writeRefused path w = false ->
        exists w',
          generateCaptions this scr videoId w = (Ok path, w')
          /\ files w' !! path = Some (Js.concat (imap block segs))
          /\ calls w' = calls w)
    (* the two timestamps of a block denote the offsets of its segment *)
    /\ (forall seg,
          0 <= startTime seg <= maxSafeInteger ->
          0 <= endTime seg <= maxSafeInteger ->
          readTimestamp (formatTime (startTime seg)) = Some (startTime seg, 0)
          /\ readTimestamp (formatTime (endTime seg)) = Some (endTime seg, 0))
    (* the fields of a timestamp *)
    /\ (forall s,
          0 <= s <= maxSafeInteger ->
          exists hh mm ss,
            formatTime s = hh +:+ ":" +:+ mm +:+ ":" +:+ ss +:+ ",000"
            /\ hh = padStart 2 "0" (toString (s / 3600))
            /\ mm = padStart 2 "0" (toString (s mod 3600 / 60))
            /\ ss = padStart 2 "0" (toString (s mod 60))
            /\ readNumber hh = Some (s / 3600)
            /\ readNumber mm = Some (s mod 3600 / 60)
            /\ readNumber ss = Some (s mod 60)
            /\ s = s / 3600 * 3600 + s mod 3600 / 60 * 60 + s mod 60
            /\ allDigits hh = true /\ (2 <= String.length hh)%nat
            /\ twoDigits mm = true /\ twoDigits ss = true
            /\ readTimestamp (formatTime s) = Some (s, 0))
    /\ (forall s, 0 <= s < 360000 -> isTimestamp (formatTime s) = true).
Proof.
  intros this scr videoId w segs cues path range block.
  assert (Hdoc : captionsDocument segs = Js.concat (imap block segs)).
  { rewrite captionsDocument_cues. unfold cuesOf. rewrite cueBlocks_imap.
    f_equal. apply imap_ext. intros i seg _. unfold block, range.
    by rewrite !append_assoc. }
  split; [apply cuesFrom_length |].
  split.
  { intros i seg Hi. unfold cues, cuesOf.
    rewrite (cuesFrom_lookup _ _ _ _ Hi). do 2 f_equal. lia. }
  split; [exact Hdoc |].
  split.
  { intros Hw. unfold generateCaptions, bind, writeFile, ret.
    fold path. rewrite Hw. eexists. split; [reflexivity |].
    cbn [files calls]. split; [| reflexivity].
    rewrite lookup_insert_eq. fold segs. by rewrite Hdoc. }
  split.
  { intros seg [Hs _] [He _]. split; by apply formatTime_read. }
  split; [| apply formatTime_shape].
  intros s [Hs _].
  pose proof (Z.mod_pos_bound s 3600 ltac:(lia)) as B1.
  pose proof (Z.mod_pos_bound s 60 ltac:(lia)) as B2.
  assert (H0 : 0 <= s / 3600) by (apply Z.div_pos; lia).
  assert (H1 : 0 <= s mod 3600 / 60 < 60).
  { split; [apply Z.div_pos; lia | apply Z.div_lt_upper_bound; lia]. }
  eexists _, _, _. split; [by apply formatTime_parts |].
  split; [reflexivity |]. split; [reflexivity |]. split; [reflexivity |].
  split; [apply readNumber_padded; lia |].
  split; [apply readNumber_padded; lia |].
  split; [apply readNumber_padded; lia |].
  split.
  { pose proof (Z.div_mod s 3600 ltac:(lia)) as E1.
    pose proof (Z.div_mod (s mod 3600) 60 ltac:(lia)) as E2.
    assert (E3 : s mod 60 = (s mod 3600) mod 60).
    { symmetry. apply Z.mod_mod_divide. exists 60. reflexivity. }
    lia. }
  split; [apply padStart_digits, toString_digits, H0 |].
  split; [rewrite padStart_length; lia |].
  split; [apply pad2_twoDigits; lia |].
  split; [apply pad2_twoDigits; lia |].
  by apply formatTime_read.
Qed.

End CaptionFile.

(** ** The caption track of a generated script *)

Section GeneratedCaptions.
Import Video Captions Timeline.

Lemma scheduleFrom_starts (pieces : list Piece) :
  forall t,
    0 <= t -> Forall (fun seg => 0 <= startTime seg) (scheduleFrom t pieces).
Proof.
  induction pieces as [| [[ty txt] hint] rest IH]; intros t Ht; simpl;
    constructor; [exact Ht |].
  apply IH. pose proof (duration_pos _ (splitCount_pos txt)). lia.
Qed.

(** X11: the caption document of a generated script consists of eight
    blocks, one per segment, whose time ranges tile the schedule: the
    first range starts with [00:00:00,000]; the timestamp that ends a
    range is, letter by letter, the timestamp that starts the next, and
    the two start timestamps read back as two offsets of which the
    first is strictly earlier; the last range ends with the timestamp
    that reads back as the estimated duration of the script.  This is
    for scripts whose estimated duration is a whole number of seconds
    that a number holds exactly, as it is for every script that can be
    generated in practice. *)
Theorem X11_generated_captions_tile_the_schedule :
  forall (a : Ambient) (t : ScoredTopic),
    let scr := generateScript a t in
    let segs := segments scr in
    estimatedDuration scr <= maxSafeInteger ->
    captionsDocument segs
    = Js.concat
        (imap (fun i seg =>
                 toString (Z.of_nat i + 1) +:+ nl
                   +:+ formatTime (startTime seg) +:+ " --> "
                   +:+ formatTime (endTime seg) +:+ nl
                   +:+ text seg +:+ nl +:+ nl)
              segs)
    /\ List.length segs = 8%nat
    /\ (exists first,
          segs !! 0%nat = Some first
          /\ formatTime (startTime first) = "00:00:00,000")
    /\ (forall i x y,
          segs !! i = Some x -> segs !! S i = Some y ->
          formatTime (endTime x) = formatTime (startTime y)
          /\ exists p q,
               Text.readTimestamp (formatTime (startTime x)) = Some (p, 0)
               /\ Text.readTimestamp (formatTime (startTime y)) = Some (q, 0)
               /\ p < q)
    /\ (exists final,
          last segs = Some final
          /\ Text.readTimestamp (formatTime (endTime final))
             = Some (estimatedDuration scr, 0)).
Proof.
  intros a t scr segs _.
  destruct (generateScript_schedule a t) as [Hs He].
  pose proof (scheduleFrom_chained (scriptPieces a t) 0) as Hc.
  pose proof (scheduleFrom_durations (scriptPieces a t) 0) as Hd.
  pose proof (scheduleFrom_starts (scriptPieces a t) 0 ltac:(lia)) as Hn.
  pose proof (endFrom_lower (scriptPieces a t) 0) as Hl.
  rewrite <- Hs, <- ?He in *. fold scr in Hc, Hd, Hn, Hl. fold segs in Hc, Hd, Hn.
  split.
  { rewrite captionsDocument_cues. unfold cuesOf.
    by rewrite cueBlocks_imap. }
  split; [reflexivity |].
  split; [eexists; split; reflexivity |].
  split.
  - intros i x y Hx Hy.
    rewrite (chained_adjacent _ _ _ _ _ _ Hc Hx Hy).
    split; [reflexivity |].
    exists (startTime x), (startTime y).
    split; [apply formatTime_read, (Forall_lookup_1 _ _ _ _ Hn Hx) |].
    split; [apply formatTime_read, (Forall_lookup_1 _ _ _ _ Hn Hy) |].
    apply (chained_increasing _ _ _ _ _ _ Hc Hd Hx Hy).
  - assert (Hlast : exists final, last segs = Some final)
      by (eexists; reflexivity).
    destruct Hlast as [final Hlast]. exists final.
    split; [exact Hlast |].
    rewrite (chained_last _ _ _ _ Hc Hlast).
    apply formatTime_read.
    change (List.length (scriptPieces a t)) with 8%nat in Hl. lia.
Qed.

End GeneratedCaptions.

(** X11 at the script for the topic [x], which is scheduled for 78
    seconds: its last caption ends at [00:01:18,000]. *)
Lemma X11_witness :
  exists final,
    last (segments (generateScript Examples.ambient0 Examples.topicX))
    = Some final
    /\ Video.formatTime (endTime final) = "00:01:18,000"
    /\ Text.readTimestamp (Video.formatTime (endTime final)) = Some (78, 0).
Proof.
  destruct (X11_generated_captions_tile_the_schedule
              Examples.ambient0 Examples.topicX)
    as (_ & _ & _ & _ & final & Hlast & Hread).
  - apply Z.leb_le. vm_compute. reflexivity.
  - exists final. split; [exact Hlast |].
    assert (Hend : endTime final = 78).
    { vm_compute in Hlast. injection Hlast as <-. reflexivity. }
    rewrite Hend in *. split; [vm_compute; reflexivity | exact Hread].
Defined.

(* ===================================================================== *)
(** * Properties of the voice generator *)
(* ===================================================================== *)

Section VoiceRuns.
Import Voice Ladder Text.
Context `{Platform}.
Variable this : VoiceGenerator.

Ltac split_run H :=
  repeat match type of H with
  | context [match ?x with _ => _ end] => destruct x eqn:?
  | context [if ?x then _ else _] => destruct x eqn:?
  end.

Ltac list_calls :=
  first
    [ exists []; split; [by rewrite app_nil_r |];
      split; [simpl; lia | constructor]
    | eexists [_]; split; [reflexivity |];
      split; [simpl; lia | repeat constructor]
    | eexists [_; _]; split; [by rewrite <- app_assoc |];
      split; [simpl; lia | repeat constructor] ].

Lemma fileExists_run (path : string) (w : World) :
  fileExists path w
  = (Ok (match files w !! path with Some _ => true | None => false end), w).
Proof.
  unfold fileExists, tryCatch, bind, access, ret.
  by destruct (files w !! path).
Qed.

Lemma tts_calls (scr : GeneratedScript) (outputPath : string) (w : World) :
  exists before,
    calls (snd (generateWithFFmpegTTS this scr outputPath w))
    = calls w ++ before
    /\ (List.length before <= 2)%nat
    /\ Forall (fun c => timeout c = None) before.
Proof.
  unfold generateWithFFmpegTTS.
  destruct (String.eqb (platform this) "darwin").
  { rewrite exec_after. cbn [snd after calls]. list_calls. }
  destruct (String.eqb (platform this) "linux").
  { unfold bind. rewrite exec_after.
    destruct (failed _ w); [cbn [snd after calls]; list_calls |].
    rewrite exec_after.
    destruct (failed _ _); [cbn [snd after calls]; list_calls |].
    rewrite unlinkQuiet_run. cbn [snd]. rewrite calls_unlinked.
    cbn [after calls]. list_calls. }
  unfold bind, writeFile, ret.
  destruct (writeRefused _ w); [cbn [snd calls]; list_calls |].
  rewrite exec_after.
  destruct (failed _ _); [cbn [snd after calls]; list_calls |].
  rewrite unlinkQuiet_run, fileExists_run.
  destruct (files (unlinked _ _) !! _).
  - rewrite exec_after. destruct (failed _ _).
    + cbn [snd after calls]. rewrite calls_unlinked. cbn [after calls].
      list_calls.
    + rewrite unlinkQuiet_run. cbn [snd]. rewrite !calls_unlinked.
      cbn [after calls]. rewrite calls_unlinked. cbn [after calls].
      list_calls.
  - cbn [snd]. rewrite calls_unlinked. cbn [after calls]. list_calls.
Qed.

(** X12: [generateVoice] first runs the speech commands of the platform,
    at most two and none with a timeout.  It then either resolves with the
    path of a narration file that is there and not empty, or runs the
    silence command, for exactly the estimated duration of the script, as
    its last command: in that case it resolves if that command succeeds,
    whatever it left behind, and rejects with that command's failure
    otherwise.  There is no other way in which it rejects. *)
Theorem X12_voice_falls_back_to_silence :
  forall (scr : GeneratedScript) (w : World),
    let r := fst (generateVoice this scr w) in
    let w' := snd (generateVoice this scr w) in
    let path := voicePathOf this scr in
    let silence := silenceCall this scr in
    command silence
    = "ffmpeg -f lavfi -i anullsrc=r=44100:cl=stereo -t "
        +:+ toString (estimatedDuration scr)
        +:+ " -c:a libmp3lame -qscale:a 2 " +:+ dq +:+ path +:+ dq
    /\ exists wb before,
         calls wb = calls w ++ before
         /\ (List.length before <= 2)%nat
         /\ Forall (fun c => timeout c = None) before
         /\ ((r = Ok path /\ w' = wb /\ hasVoice this scr wb)
             \/ (w' = after silence wb
                 /\ r = match failed silence wb with
                        | None => Ok path
                        | Some why => Throw (ExecError (command silence) why)
                        end)).
Proof.
  intros scr w r w' path silence.
  split; [reflexivity |].
  destruct (tts_calls scr path w) as (before & Hc & Hlen & Hall).
  set (fallback := fun _ : Error =>
         (createFallbackAudio (estimatedDuration scr) path ;;
          ret path)%prog).
  assert (Hfall : forall e wb,
    fallback e wb
    = (match failed silence wb with
       | None => Ok path
       | Some why => Throw (ExecError (command silence) why)
       end, after silence wb)).
  { intros e wb. unfold fallback, createFallbackAudio, bind.
    rewrite exec_after.
    change {| command := silenceCommand (estimatedDuration scr) path;
              timeout := None |} with silence.
    by destruct (failed silence wb). }
  assert (Hgen : generateVoice this scr w
    = tryCatch
        (generateWithFFmpegTTS this scr path ;;
         size <- statSize path ;;
         if size =? 0
         then throw (JsError "Generated voice file is empty")
         else ret path)%prog
        fallback w) by reflexivity.
  unfold r, w'. rewrite Hgen. clear Hgen.
  unfold tryCatch, bind, statSize, throw, ret.
  destruct (generateWithFFmpegTTS this scr path w) as [rt wb] eqn:Htts.
  cbn [snd] in Hc.
  exists wb, before. repeat (split; [assumption |]).
  destruct rt as [[] | e].
  - destruct (files wb !! path) as [content |] eqn:Hfile.
    + destruct (len content =? 0) eqn:Hz.
      * right. rewrite Hfall. by split.
      * left. cbn [fst snd]. split; [reflexivity |].
        split; [reflexivity |]. exists content. split; [exact Hfile |].
        apply Z.eqb_neq in Hz. unfold len in *. lia.
    + right. rewrite Hfall. by split.
  - right. rewrite Hfall. by split.
Qed.

End VoiceRuns.

(** ** What is spoken is what was counted *)

Section SpokenWords.
Import Voice Text.

Lemma splitCount_cons (c : ascii) (s : string) :
  splitCount (String c s)
  = if Ascii.eqb c space then splitCount s + 1 else splitCount s.
Proof.
  unfold splitCount. rewrite split_length_cons.
  destruct (Ascii.eqb c space); lia.
Qed.

Lemma splitCount_escapeQuotes (s : string) :
  splitCount (escapeQuotes s) = splitCount s.
Proof.
  unfold escapeQuotes.
  induction s as [| c s IH]; [reflexivity |].
  cbn [replaceChar]. destruct (Ascii.eqb_spec c "034") as [-> | Hc].
  - change (("\" +:+ dq) +:+ ?r) with (String "\" (String "034" r)).
    rewrite !splitCount_cons. cbn [Ascii.eqb Bool.eqb space]. exact IH.
  - rewrite !splitCount_cons, IH. reflexivity.
Qed.

Lemma splitCount_join (xs : list string) :
  xs <> [] ->
  splitCount (join " " xs) = fold_right (fun x acc => splitCount x + acc) 0 xs.
Proof.
  induction xs as [| x [| y rest] IH]; intros Hne; [contradiction | |].
  - cbn. lia.
  - change (join " " (x :: y :: rest))
      with (x +:+ String " " (join " " (y :: rest))).
    rewrite splitCount_app, splitCount_cons.
    change (Ascii.eqb " " space) with true.
    rewrite IH by discriminate. cbn [fold_right]. lia.
Qed.

Lemma pieceTotal_texts (segs : list ScriptSegment) :
  pieceTotal segs = fold_right (fun x acc => splitCount x + acc) 0 (map text segs).
Proof.
  unfold pieceTotal. induction segs as [| s rest IH]; simpl; [reflexivity |].
  by rewrite IH.
Qed.

(** X13: the narration text that [generateVoice] hands to the speech
    command is the segment texts joined by single spaces, and escaping
    its double quotes adds no piece: for a script with at least one
    segment it has exactly as many space-separated pieces as the segment
    texts have together, which for a generated script is [totalWords]; a
    script without segments is spoken as the empty text. *)
Theorem X13_spoken_text_has_total_words :
  (forall scr : GeneratedScript,
     segments scr <> [] ->
     splitCount (escapeQuotes (fullText scr)) = pieceTotal (segments scr))
  /\ (forall scr : GeneratedScript,
        segments scr = [] -> escapeQuotes (fullText scr) = EmptyString)
  /\ (forall (a : Ambient) (t : ScoredTopic),
        splitCount (escapeQuotes (fullText (generateScript a t)))
        = totalWords (generateScript a t)).
Proof.
  assert (Hgen : forall scr : GeneratedScript,
            segments scr <> [] ->
            splitCount (escapeQuotes (fullText scr))
            = pieceTotal (segments scr)).
  { intros scr Hne. rewrite splitCount_escapeQuotes. unfold fullText.
    rewrite splitCount_join, pieceTotal_texts; [reflexivity |].
    destruct (segments scr); [contradiction | discriminate]. }
  split; [exact Hgen |]. split.
  - intros scr Hnil. unfold fullText. by rewrite Hnil.
  - intros a t.
    assert (Hlen : List.length (segments (generateScript a t)) = 8%nat)
      by reflexivity.
    assert (Hw : totalWords (generateScript a t)
                 = fold_left (fun sum seg => sum + splitCount (text seg))
                     (segments (generateScript a t)) 0)
      by reflexivity.
    revert Hlen Hw. generalize (generateScript a t). intros scr Hlen Hw.
    rewrite Hw, fold_words, Hgen; [lia |].
    intros Hnil. rewrite Hnil in Hlen. discriminate.
Qed.

End SpokenWords.

(* ===================================================================== *)
(** * Further properties of the thumbnail generator *)
(* ===================================================================== *)

Section ThumbnailEffort.
Import Thumbnail Ladder.
Context `{Platform}.
Variable this : ThumbnailGenerator.
Variable options : ThumbnailOptions.

Ltac effort :=
  unfold flatOutcome; cbn [after drawn calls draws snd];
  rewrite ?calls_unlinked, ?draws_unlinked; cbn [after drawn calls draws];
  repeat split;
  [ rewrite <- ?app_assoc; reflexivity
  | cbn [List.length]; lia
  | cbn [List.length]; lia
  | repeat constructor
  | match goal with
    | |- context [draws ?w] => destruct (draws w) as [| ? [| ? ?]]
    end; cbn [tl List.length]; lia ].

Lemma unlinked_files (path : string) (wp : World) :
  (unlinkRefused path wp = false -> files (unlinked path wp) !! path = None)
  /\ (unlinkRefused path wp = true -> files (unlinked path wp) = files wp).
Proof.
  split; [apply files_unlinked |]. unfold unlinked. by intros ->.
Qed.

(** X14: a run of [generateThumbnail] takes between two and four
    commands, none of them with a timeout, and at most two random draws;
    and unless the flat-colour command is the last thing it runs, it
    returns the path of a non-empty image, and the last thing it did to
    the world was to try to unlink the frame it extracted: the frame is
    gone if the file system let it go, and the files are untouched if
    the unlink was refused, which the run ignores. *)
Theorem X14_thumbnail_effort_and_cleanup :
  forall w : World,
    let r := fst (generateThumbnail this options w) in
    let w' := snd (generateThumbnail this options w) in
    let frame := framePathIn this w in
    (exists new,
       calls w' = calls w ++ new
       /\ (2 <= List.length new)%nat /\ (List.length new <= 4)%nat
       /\ Forall (fun c => timeout c = None) new
       /\ (List.length (draws w) <= List.length (draws w') + 2)%nat)
    /\ ((exists wl, w' = after (flatCall this options wl) (drawn wl))
        \/ (r = Ok (thumbnailPathOf this options)
            /\ hasImage this options w'
            /\ exists wp,
                 w' = unlinked frame wp
                 /\ (unlinkRefused frame wp = false ->
                     files w' !! frame = None)
                 /\ (unlinkRefused frame wp = true ->
                     files w' = files wp))).
Proof.
  intros w r w' frame. unfold r, w'. rewrite generateThumbnail_ladder.
  set (cF := frameCall this options w).
  set (cO := overlayCall this options w).
  set (cD := drawtextCall this options w).
  fold frame.
  destruct (failed cF w) as [whyF |].
  { split; [eexists [_; _]; effort |]. left. by eexists. }
  destruct (failed cO (drawn (after cF w))) as [whyO |].
  - destruct (failed cD (after cO (drawn (after cF w)))) as [whyD |].
    + split; [eexists [_; _; _; _]; effort |]. left. by eexists.
    + destruct (verified_cases this options frame
                  (after cD (after cO (drawn (after cF w)))))
        as [[Hv Hi] | [_ Hv]]; rewrite Hv.
      * split; [eexists [_; _; _]; effort |].
        right. cbn [fst snd]. split; [reflexivity |]. split; [exact Hi |].
        eexists. split; [reflexivity | apply unlinked_files].
      * split; [eexists [_; _; _; _]; effort |]. left. by eexists.
  - destruct (verified_cases this options frame
                (after cO (drawn (after cF w))))
      as [[Hv Hi] | [_ Hv]]; rewrite Hv.
    + split; [eexists [_; _]; effort |].
      right. cbn [fst snd]. split; [reflexivity |]. split; [exact Hi |].
      eexists. split; [reflexivity | apply unlinked_files].
    + split; [eexists [_; _; _]; effort |]. left. by eexists.
Qed.

End ThumbnailEffort.

(* ===================================================================== *)
(** * The narration rate, and worked runs of the voice generator *)
(* ===================================================================== *)

(** X15: for word counts below [2^50], where the quotient [n / 2.5] of
    the code has the ceiling of the exact quotient, the duration given
    to a text grows with its word count, is 0 for no words and at least
    one second from one word on, and every five further words add exactly
    two seconds; a text cut into two parts is never scheduled shorter
    than the whole, and at most one second longer. *)
Theorem X15_five_words_are_two_seconds :
  forall n m : Z,
    0 <= n -> 0 <= m -> n + m + 5 < 2 ^ 50 ->
    calculateSegmentDuration (n + 5) = calculateSegmentDuration n + 2
    /\ calculateSegmentDuration 0 = 0
    /\ (1 <= n -> 1 <= calculateSegmentDuration n)
    /\ (n <= m -> calculateSegmentDuration n <= calculateSegmentDuration m)
    /\ calculateSegmentDuration (n + m)
       <= calculateSegmentDuration n + calculateSegmentDuration m
    /\ calculateSegmentDuration n + calculateSegmentDuration m
       <= calculateSegmentDuration (n + m) + 1.
Proof.
  intros n m _ _ _.
  split; [| split; [reflexivity | split; [apply duration_pos |
                                          split; [apply duration_mono |]]]].
  - unfold calculateSegmentDuration. rewrite !ceilDiv_rate.
    replace (2 * (n + 5) + 4) with (2 * n + 4 + 2 * 5) by lia.
    by rewrite Z.div_add.
  - pose proof (duration_bounds n). pose proof (duration_bounds m).
    pose proof (duration_bounds (n + m)). lia.
Qed.

(** X15 at texts of 8 and 30 words: 4 and 12 seconds, 16 together. *)
Lemma X15_witness :
  calculateSegmentDuration (8 + 5) = calculateSegmentDuration 8 + 2
  /\ calculateSegmentDuration 0 = 0
  /\ (1 <= 8 -> 1 <= calculateSegmentDuration 8)
  /\ (8 <= 30 -> calculateSegmentDuration 8 <= calculateSegmentDuration 30)
  /\ calculateSegmentDuration (8 + 30)
     <= calculateSegmentDuration 8 + calculateSegmentDuration 30
  /\ calculateSegmentDuration 8 + calculateSegmentDuration 30
     <= calculateSegmentDuration (8 + 30) + 1.
Proof.
  apply (X15_five_words_are_two_seconds 8 30); [lia | lia |].
  apply Z.ltb_lt. vm_compute. reflexivity.
Defined.

(** On Linux the narration takes the speech engine and the encoder, and
    the intermediate file is removed; without a speech engine the silence
    stands in. *)
Example voice_runs :
  (exists w',
     @Voice.generateVoice (Examples.scripted VoiceExamples.speechWell)
       VoiceExamples.linuxVoice Examples.oneSegmentScript Examples.emptyWorld
     = (Ok "out/run_voice.mp3", w')
     /\ files w' !! "out/run_voice.mp3" = Some "MP3"
     /\ files w' !! "out/run_temp.wav" = None
     /\ map command (calls w')
        = [ "espeak -v en-us -w out/run_temp.wav " +:+ dq
              +:+ "Have you ever wondered x?" +:+ dq;
            "ffmpeg -i out/run_temp.wav -codec:a libmp3lame -qscale:a 2 out/run_voice.mp3" ])
  /\ (exists w',
        @Voice.generateVoice (Examples.scripted VoiceExamples.noSpeech)
          VoiceExamples.windowsVoice Examples.oneSegmentScript
          Examples.emptyWorld
        = (Ok "out/run_voice.mp3", w')
        /\ map command (calls w')
           = [ "powershell -ExecutionPolicy Bypass -File " +:+ dq
                 +:+ "out/run_tts.ps1" +:+ dq;
               "ffmpeg -f lavfi -i anullsrc=r=44100:cl=stereo -t 2 -c:a libmp3lame -qscale:a 2 "
                 +:+ dq +:+ "out/run_voice.mp3" +:+ dq ]).
Proof.
  split.
  - eexists. split; [vm_compute; reflexivity |].
    repeat split; vm_compute; reflexivity.
  - eexists. split; [vm_compute; reflexivity |].
    vm_compute. reflexivity.
Qed.
